(** * The Momentum Engine: state engine of [src/App.tsx]

    A shallow embedding of the state logic of the React component [App]:
    the entity records, the handlers that update the component state
    ([addEntry], [deleteEntry], [toggleHabit], the midnight [checkReset],
    [exportData] and [importData]) and the derived values ([calculateStreak],
    [activityMap], [avgActionsPerDay] and the colour tiers of the 30-day
    heatmap).  The atoms of [State] are those that these read or write.

    The rest of the component follows: the timer and its effect, the
    mini-goals and the If-Then plans, the themes and the badges, the views
    computed from the log (the 7-day chart, the most active day, the daily
    summary) and the keeping of the atoms in local storage.  The record
    [Component] adds the atoms of these to [State]; what the user and the
    clock do is an [Action], and a session of use is a list of actions,
    each with the clock reading at which it happens.

    Conventions.
    - A JavaScript string is a [string] holding the UTF-8 bytes of its text.
    - A JavaScript number that the program counts with (points, counters,
      lengths, millisecond time stamps) is a [Z]; such numbers stay within
      the range where double arithmetic on integers is exact.  The one
      genuinely fractional computation, the quotient formatted by
      [toFixed(1)], is carried out on IEEE binary64 values ([spec_float]).
    - A [useState] atom is a field of the record [State]; a handler is a
      function from [State] to [State], the clock readings it makes
      ([Date.now()], [new Date()]) being passed as one argument [now].
    - The platform's [Date] is read in a time zone at a fixed offset from
      UTC, and instants are within the range of valid dates; the text
      produced by [toDateString] for a calendar day is a parameter of the
      development (section [Engine]).  [calculateStreak] is the one function
      that tells 24 hours from a calendar day; module [Zoned] reads it in a
      zone whose offset changes, and in a zone at a fixed offset it is the
      function of section [Engine].
    - [JSON.parse] and [JSON.stringify] belong to the platform; module
      [JSON] gives them as a reader and a printer of the JSON grammar, and
      the properties show that the reader undoes the printer. *)

From Stdlib Require Import ZArith Lia Ascii Floats.SpecFloat.
From stdpp Require Import gmap strings list sorting pretty.

Set Warnings "-register-all".
Open Scope Z_scope.

(* ===================================================================== *)
(** * Text *)
(* ===================================================================== *)

Module Text.

Definition code (c : ascii) : N := Ascii.N_of_ascii c.
Definition chr (n : N) : ascii := Ascii.ascii_of_N n.

(** One-byte white space and line terminators of ECMAScript:
    TAB, LF, VT, FF, CR and SPACE. *)
Definition isWs1 (c : ascii) : bool :=
  let n := code c in
  ((9 <=? n) && (n <=? 13))%N || (n =? 32)%N.

(** [trimStart]: drops leading white space.  The multi-byte cases are the
    UTF-8 forms of U+00A0, U+1680, U+2000..U+200A, U+2028, U+2029, U+202F,
    U+205F, U+3000 and U+FEFF. *)
Fixpoint trimStart (s : string) : string :=
  match s with
  | String c r =>
      if isWs1 c then trimStart r
      else
        match r with
        | String c2 r2 =>
            if ((code c =? 194) && (code c2 =? 160))%N then trimStart r2
            else
              match r2 with
              | String c3 r3 =>
                  let a := code c in
                  let b := code c2 in
                  let d := code c3 in
                  if (((a =? 225) && (b =? 154) && (d =? 128))
                      || ((a =? 226) && (b =? 128)
                          && (((128 <=? d) && (d <=? 138))
                              || (d =? 168) || (d =? 169) || (d =? 175)))
                      || ((a =? 226) && (b =? 129) && (d =? 159))
                      || ((a =? 227) && (b =? 128) && (d =? 128))
                      || ((a =? 239) && (b =? 187) && (d =? 191)))%N
                  then trimStart r3
                  else s
              | EmptyString => s
              end
        | EmptyString => s
        end
  | EmptyString => EmptyString
  end.

Definition isBlank (s : string) : bool :=
  bool_decide (trimStart s = "").

(** [trimEnd]: a position is kept unless everything from it to the end of
    the string is white space. *)
Fixpoint trimEnd (s : string) : string :=
  match s with
  | String c r => if isBlank s then "" else String c (trimEnd r)
  | EmptyString => EmptyString
  end.

(** [String.prototype.trim]. *)
Definition trim (s : string) : string := trimEnd (trimStart s).

(** [Array.prototype.join] on strings. *)
Fixpoint join (sep : string) (l : list string) : string :=
  match l with
  | [] => ""
  | [x] => x
  | x :: r => x +:+ sep +:+ join sep r
  end.

(** [Number.prototype.toString] on an integer. *)
Definition ofInt (z : Z) : string := pretty z.

(** Writing aid for documents quoted in this file: every apostrophe of
    [s] becomes a double quote. *)
Fixpoint dq (s : string) : string :=
  match s with
  | EmptyString => EmptyString
  | String c r => String (if (code c =? 39)%N then chr 34 else c) (dq r)
  end.

End Text.

(* ===================================================================== *)
(** * JSON values, [JSON.parse] and [JSON.stringify] *)
(* ===================================================================== *)

Module JSON.

(** A value as [JSON.parse] returns it.  A number keeps the decimal it was
    written as: [JNum m e] stands for [m * 10^e]; the double the platform
    holds is the one nearest to it.  An object lists its own properties in
    insertion order, each key once. *)
Inductive JValue : Type :=
| JNull
| JBool (b : bool)
| JNum (m e : Z)
| JStr (s : string)
| JArr (items : list JValue)
| JObj (fields : list (string * JValue)).

Definition JInt (z : Z) : JValue := JNum z 0.

(** The number is [+0] or [-0] as a double: the decimal is zero, or it is
    so small that it rounds to zero (at most [2^-1075] in magnitude). *)
Definition isZeroNumber (m e : Z) : bool :=
  (m =? 0) || ((e <? 0) && (Z.abs m * 2 ^ 1075 <=? 10 ^ (- e))).

(** ECMAScript [ToBoolean] on a parsed value. *)
Definition truthy (v : JValue) : bool :=
  match v with
  | JNull => false
  | JBool b => b
  | JNum m e => negb (isZeroNumber m e)
  | JStr s => negb (bool_decide (s = ""))
  | JArr _ => true
  | JObj _ => true
  end.

(** [obj[k]] on the own properties of an object; [None] is [undefined]. *)
Fixpoint prop (fields : list (string * JValue)) (k : string) : option JValue :=
  match fields with
  | [] => None
  | (k', v) :: r => if bool_decide (k' = k) then Some v else prop r k
  end.

(** [ToBoolean (obj[k])]. *)
Definition truthyProp (fields : list (string * JValue)) (k : string) : bool :=
  match prop fields k with
  | Some v => truthy v
  | None => false
  end.

(** Defining a property: an existing key keeps its place and takes the new
    value, a new key goes last. *)
Fixpoint setProp (k : string) (v : JValue) (fields : list (string * JValue))
  : list (string * JValue) :=
  match fields with
  | [] => [(k, v)]
  | (k', v') :: r =>
      if bool_decide (k' = k) then (k', v) :: r else (k', v') :: setProp k v r
  end.

(** ** Tokens *)

Inductive Token : Type :=
| TLBrace | TRBrace | TLBracket | TRBracket | TColon | TComma
| TString (s : string)
| TNumber (m e : Z)
| TTrue | TFalse | TNull.

(** Where a number literal stands.  The grammar: an optional minus sign;
    then a single zero, or a non-zero digit and any digits; then optionally
    a dot and one or more digits; then optionally e or E, an optional sign
    and one or more digits. *)
Inductive NumPhase : Type :=
| NSign      (* after "-" *)
| NZero      (* after a leading "0" *)
| NInt       (* inside the integer digits *)
| NDot       (* after "." *)
| NFrac      (* inside the fraction digits *)
| NExpMark   (* after "e" or "E" *)
| NExpSign   (* after the sign of the exponent *)
| NExp.      (* inside the exponent digits *)

Record NumAcc : Type := mkNumAcc {
  nPhase : NumPhase;
  nNeg : bool;      (* a leading "-" was read *)
  nMant : Z;        (* integer and fraction digits read so far *)
  nScale : Z;       (* how many of them are fraction digits *)
  nExpNeg : bool;   (* the exponent has a "-" *)
  nExpo : Z         (* exponent digits read so far *)
}.

Inductive LexMode : Type :=
| LTop
| LLit (rest : string) (tok : Token)          (* inside true, false, null *)
| LStr (acc : list ascii) (hi : option N)     (* inside a string; [acc] reversed *)
| LEsc (acc : list ascii) (hi : option N)     (* after a backslash *)
| LHex (acc : list ascii) (hi : option N) (k : nat) (v : N)  (* inside \uXXXX *)
| LNum (a : NumAcc).

Definition digitVal (c : ascii) : option Z :=
  let n := Text.code c in
  if ((48 <=? n) && (n <=? 57))%N then Some (Z.of_N n - 48) else None.

Definition hexVal (c : ascii) : option N :=
  let n := Text.code c in
  if ((48 <=? n) && (n <=? 57))%N then Some (n - 48)%N
  else if ((65 <=? n) && (n <=? 70))%N then Some (n - 55)%N
  else if ((97 <=? n) && (n <=? 102))%N then Some (n - 87)%N
  else None.

(** UTF-8 bytes of a code point, pushed on a reversed accumulator.  A lone
    surrogate takes the three-byte form. *)
Definition pushUtf8 (cp : N) (acc : list ascii) : list ascii :=
  (if cp <? 128 then Text.chr cp :: acc
   else if cp <? 2048 then
     Text.chr (128 + cp mod 64) :: Text.chr (192 + cp / 64) :: acc
   else if cp <? 65536 then
     Text.chr (128 + cp mod 64) :: Text.chr (128 + (cp / 64) mod 64)
       :: Text.chr (224 + cp / 4096) :: acc
   else
     Text.chr (128 + cp mod 64) :: Text.chr (128 + (cp / 64) mod 64)
       :: Text.chr (128 + (cp / 4096) mod 64)
       :: Text.chr (240 + cp / 262144) :: acc)%N.

(** A pending high surrogate that no low surrogate followed. *)
Definition flushHi (hi : option N) (acc : list ascii) : list ascii :=
  match hi with
  | Some h => pushUtf8 h acc
  | None => acc
  end.

Definition isHighSurrogate (u : N) : bool := ((55296 <=? u) && (u <=? 56319))%N.
Definition isLowSurrogate (u : N) : bool := ((56320 <=? u) && (u <=? 57343))%N.

(** The code unit [u] of a completed [\uXXXX]. *)
Definition pushUnit (u : N) (acc : list ascii) (hi : option N) : LexMode :=
  match hi with
  | Some h =>
      if isLowSurrogate u
      then LStr (pushUtf8 (65536 + (h - 55296) * 1024 + (u - 56320))%N acc) None
      else if isHighSurrogate u then LStr (pushUtf8 h acc) (Some u)
      else LStr (pushUtf8 u (pushUtf8 h acc)) None
  | None =>
      if isHighSurrogate u then LStr acc (Some u)
      else LStr (pushUtf8 u acc) None
  end.

Definition stringOfRev (acc : list ascii) : string :=
  String.string_of_list_ascii (rev acc).

Definition numStart (neg : bool) (ph : NumPhase) (m : Z) : LexMode :=
  LNum (mkNumAcc ph neg m 0 false 0).

(** The token of a number whose literal is complete; [None] when the
    literal stops where the grammar needs more. *)
Definition numToken (a : NumAcc) : option Token :=
  match nPhase a with
  | NZero | NInt | NFrac | NExp =>
      Some (TNumber (if nNeg a then - nMant a else nMant a)
                    ((if nExpNeg a then - nExpo a else nExpo a) - nScale a))
  | _ => None
  end.

(** One character outside any token. *)
Definition lexTop (c : ascii) : option (list Token * LexMode) :=
  let n := Text.code c in
  if ((n =? 32) || (n =? 9) || (n =? 10) || (n =? 13))%N then Some ([], LTop)
  else if (n =? 123)%N then Some ([TLBrace], LTop)
  else if (n =? 125)%N then Some ([TRBrace], LTop)
  else if (n =? 91)%N then Some ([TLBracket], LTop)
  else if (n =? 93)%N then Some ([TRBracket], LTop)
  else if (n =? 58)%N then Some ([TColon], LTop)
  else if (n =? 44)%N then Some ([TComma], LTop)
  else if (n =? 34)%N then Some ([], LStr [] None)
  else if (n =? 45)%N then Some ([], numStart true NSign 0)
  else if (n =? 48)%N then Some ([], numStart false NZero 0)
  else if (n =? 116)%N then Some ([], LLit "rue" TTrue)
  else if (n =? 102)%N then Some ([], LLit "alse" TFalse)
  else if (n =? 110)%N then Some ([], LLit "ull" TNull)
  else
    match digitVal c with
    | Some d => Some ([], numStart false NInt d)
    | None => None
    end.

(** One character inside a number; a character that cannot continue a
    complete literal ends it and is read again from [lexTop]. *)
Definition lexNum (a : NumAcc) (c : ascii) : option (list Token * LexMode) :=
  let n := Text.code c in
  let finish :=
    match numToken a with
    | Some t =>
        match lexTop c with
        | Some (ts, md) => Some (t :: ts, md)
        | None => None
        end
    | None => None
    end in
  let isE := ((n =? 101) || (n =? 69))%N in
  let isDot := (n =? 46)%N in
  let withPhase ph := mkNumAcc ph (nNeg a) (nMant a) (nScale a) (nExpNeg a) (nExpo a) in
  match nPhase a, digitVal c with
  | NSign, Some d =>
      Some ([], LNum (mkNumAcc (if d =? 0 then NZero else NInt) (nNeg a) d 0 false 0))
  | NSign, None => None
  | NZero, _ =>
      if isDot then Some ([], LNum (withPhase NDot))
      else if isE then Some ([], LNum (withPhase NExpMark))
      else finish
  | NInt, Some d =>
      Some ([], LNum (mkNumAcc NInt (nNeg a) (10 * nMant a + d) 0 false 0))
  | NInt, None =>
      if isDot then Some ([], LNum (withPhase NDot))
      else if isE then Some ([], LNum (withPhase NExpMark))
      else finish
  | (NDot | NFrac), Some d =>
      Some ([], LNum (mkNumAcc NFrac (nNeg a) (10 * nMant a + d) (nScale a + 1) false 0))
  | NDot, None => None
  | NFrac, None =>
      if isE then Some ([], LNum (withPhase NExpMark)) else finish
  | NExpMark, None =>
      if (n =? 43)%N then Some ([], LNum (withPhase NExpSign))
      else if (n =? 45)%N then
        Some ([], LNum (mkNumAcc NExpSign (nNeg a) (nMant a) (nScale a) true 0))
      else None
  | NExpSign, None => None
  | (NExpMark | NExpSign | NExp), Some d =>
      Some ([], LNum (mkNumAcc NExp (nNeg a) (nMant a) (nScale a) (nExpNeg a)
                               (10 * nExpo a + d)))
  | NExp, None => finish
  end.

Definition lexStep (md : LexMode) (c : ascii) : option (list Token * LexMode) :=
  let n := Text.code c in
  match md with
  | LTop => lexTop c
  | LLit rest tok =>
      match rest with
      | String x rest' =>
          if bool_decide (x = c)
          then Some (if bool_decide (rest' = "") then ([tok], LTop)
                     else ([], LLit rest' tok))
          else None
      | EmptyString => None
      end
  | LStr acc hi =>
      if (n =? 34)%N then Some ([TString (stringOfRev (flushHi hi acc))], LTop)
      else if (n =? 92)%N then Some ([], LEsc acc hi)
      else if (n <? 32)%N then None
      else Some ([], LStr (c :: flushHi hi acc) None)
  | LEsc acc hi =>
      if (n =? 117)%N then Some ([], LHex acc hi 0 0%N)
      else
        let put b := Some ([], LStr (Text.chr b :: flushHi hi acc) None) in
        if ((n =? 34) || (n =? 92) || (n =? 47))%N then put n
        else if (n =? 98)%N then put 8%N
        else if (n =? 102)%N then put 12%N
        else if (n =? 110)%N then put 10%N
        else if (n =? 114)%N then put 13%N
        else if (n =? 116)%N then put 9%N
        else None
  | LHex acc hi k v =>
      match hexVal c with
      | Some d =>
          let v' := (16 * v + d)%N in
          if bool_decide (k = 3%nat) then Some ([], pushUnit v' acc hi)
          else Some ([], LHex acc hi (S k) v')
      | None => None
      end
  | LNum a => lexNum a c
  end.

(** The end of the text: only a complete number may still be open. *)
Definition lexEnd (md : LexMode) : option (list Token) :=
  match md with
  | LTop => Some []
  | LNum a => match numToken a with Some t => Some [t] | None => None end
  | _ => None
  end.

(** ** Parsing *)

(** An open container: an array with the elements read so far (reversed),
    an object with the properties defined so far, and the same object
    while the value of the key [key] is being read. *)
Inductive Frame : Type :=
| FArr (acc : list JValue)
| FObj (acc : list (string * JValue))
| FObjK (acc : list (string * JValue)) (key : string).

Inductive Expect : Type :=
| EValue       (* a value *)
| EArrFirst    (* a value, or the end of an empty array *)
| EObjFirst    (* a key, or the end of an empty object *)
| EObjKey      (* a key *)
| EColon       (* the colon after a key *)
| EAfter       (* a comma, or the end of the innermost container *)
| EDone (v : JValue).   (* the end of the text *)

(** A value is complete: it is the whole document, or it goes into the
    innermost open container. *)
Definition complete (v : JValue) (stack : list Frame) : option (Expect * list Frame) :=
  match stack with
  | [] => Some (EDone v, [])
  | FArr acc :: up => Some (EAfter, FArr (v :: acc) :: up)
  | FObjK acc k :: up => Some (EAfter, FObj (setProp k v acc) :: up)
  | FObj _ :: _ => None
  end.

Definition startValue (t : Token) (stack : list Frame) : option (Expect * list Frame) :=
  match t with
  | TString s => complete (JStr s) stack
  | TNumber m e => complete (JNum m e) stack
  | TTrue => complete (JBool true) stack
  | TFalse => complete (JBool false) stack
  | TNull => complete JNull stack
  | TLBracket => Some (EArrFirst, FArr [] :: stack)
  | TLBrace => Some (EObjFirst, FObj [] :: stack)
  | _ => None
  end.

Definition startKey (t : Token) (stack : list Frame) : option (Expect * list Frame) :=
  match t, stack with
  | TString k, FObj acc :: up => Some (EColon, FObjK acc k :: up)
  | _, _ => None
  end.

Definition parseStep (ex : Expect) (stack : list Frame) (t : Token)
  : option (Expect * list Frame) :=
  match ex with
  | EValue => startValue t stack
  | EArrFirst =>
      match t, stack with
      | TRBracket, FArr _ :: up => complete (JArr []) up
      | _, _ => startValue t stack
      end
  | EObjFirst =>
      match t, stack with
      | TRBrace, FObj _ :: up => complete (JObj []) up
      | _, _ => startKey t stack
      end
  | EObjKey => startKey t stack
  | EColon => match t with TColon => Some (EValue, stack) | _ => None end
  | EAfter =>
      match t, stack with
      | TComma, FArr _ :: _ => Some (EValue, stack)
      | TComma, FObj _ :: _ => Some (EObjKey, stack)
      | TRBracket, FArr acc :: up => complete (JArr (rev acc)) up
      | TRBrace, FObj acc :: up => complete (JObj acc) up
      | _, _ => None
      end
  | EDone _ => None
  end.

(** The parser takes the tokens that a character has completed. *)
Fixpoint feed (ex : Expect) (stack : list Frame) (ts : list Token)
  : option (Expect * list Frame) :=
  match ts with
  | [] => Some (ex, stack)
  | t :: r =>
      match parseStep ex stack t with
      | Some (ex', stack') => feed ex' stack' r
      | None => None
      end
  end.

(** At the end of the text one value is complete and nothing is open. *)
Definition finish (ex : Expect) (stack : list Frame) : option JValue :=
  match ex, stack with
  | EDone v, [] => Some v
  | _, _ => None
  end.

(** One pass over the text: each character moves the lexer, and the tokens
    it completes move the parser. *)
Fixpoint scan (md : LexMode) (ex : Expect) (stack : list Frame) (s : string)
  : option JValue :=
  match s with
  | EmptyString =>
      match lexEnd md with
      | Some ts =>
          match feed ex stack ts with
          | Some (ex', stack') => finish ex' stack'
          | None => None
          end
      | None => None
      end
  | String c r =>
      match lexStep md c with
      | Some (ts, md') =>
          match feed ex stack ts with
          | Some (ex', stack') => scan md' ex' stack' r
          | None => None
          end
      | None => None
      end
  end.

(** [JSON.parse]; [None] is the [SyntaxError] it throws. *)
Definition parse (s : string) : option JValue := scan LTop EValue [] s.

(** ** Printing *)

Definition hexDigit (n : N) : ascii :=
  (if n <? 10 then Text.chr (48 + n) else Text.chr (87 + n))%N.

(** [QuoteJSONString] on one character: the quote, the backslash and the
    control characters are escaped, everything else is copied. *)
Definition escapeChar (c : ascii) : string :=
  let n := Text.code c in
  if (n =? 34)%N then String "\" (String c "")
  else if (n =? 92)%N then "\\"
  else if (n =? 8)%N then "\b"
  else if (n =? 12)%N then "\f"
  else if (n =? 10)%N then "\n"
  else if (n =? 13)%N then "\r"
  else if (n =? 9)%N then "\t"
  else if (n <? 32)%N then
    "\u00" +:+ String (hexDigit (n / 16)) (String (hexDigit (n mod 16)) "")
  else String c "".

(** The code unit of a surrogate in its three-byte form [237 b2 b3]. *)
Definition surrogateUnit (b2 b3 : N) : N :=
  (53248 + (b2 - 128) * 64 + (b3 - 128))%N.

Definition hex4 (u : N) : string :=
  (String (hexDigit (u / 4096)) (String (hexDigit ((u / 256) mod 16))
    (String (hexDigit ((u / 16) mod 16)) (String (hexDigit (u mod 16)) ""))))%N.

(** [QuoteJSONString] on the characters of a string; a surrogate that is
    not part of a pair is written as an escape. *)
Fixpoint escape (s : string) : string :=
  match s with
  | EmptyString => ""
  | String c r =>
      match r with
      | String c2 (String c3 r3) =>
          let b2 := Text.code c2 in
          let b3 := Text.code c3 in
          if ((Text.code c =? 237) && (160 <=? b2) && (b2 <=? 191)
              && (128 <=? b3) && (b3 <=? 191))%N
          then "\u" +:+ hex4 (surrogateUnit b2 b3) +:+ escape r3
          else escapeChar c +:+ escape r
      | _ => escapeChar c +:+ escape r
      end
  end.

Definition quote (s : string) : string :=
  String (Text.chr 34) (escape s +:+ String (Text.chr 34) "").

(** Digits of the decimal [m * 10^e].  An integer prints as
    [Number.prototype.toString] prints it (below [10^21]); the program
    serialises no other number, and a fraction is written out in
    positional notation. *)
Definition showNumber (m e : Z) : string :=
  if 0 <=? e then Text.ofInt (m * 10 ^ e)
  else
    let p := 10 ^ (- e) in
    let a := Z.abs m in
    let frac := Text.ofInt (a mod p) in
    (if m <? 0 then "-" else "") +:+ Text.ofInt (a / p) +:+ "."
      +:+ String.string_of_list_ascii
            (replicate (Z.to_nat (- e) - String.length frac) (Text.chr 48))
      +:+ frac.

Definition newline : string := String (Text.chr 10) "".

(** [JSON.stringify (v, null, 2)] below the indentation [ind]. *)
Fixpoint stringifyAt (ind : string) (v : JValue) : string :=
  let ind' := ind +:+ "  " in
  let sep := "," +:+ newline +:+ ind' in
  match v with
  | JNull => "null"
  | JBool b => if b then "true" else "false"
  | JNum m e => showNumber m e
  | JStr s => quote s
  | JArr [] => "[]"
  | JArr items =>
      "[" +:+ newline +:+ ind'
        +:+ Text.join sep (map (stringifyAt ind') items)
        +:+ newline +:+ ind +:+ "]"
  | JObj [] => "{}"
  | JObj fields =>
      "{" +:+ newline +:+ ind'
        +:+ Text.join sep
              (map (fun kv => quote (fst kv) +:+ ": " +:+ stringifyAt ind' (snd kv))
                   fields)
        +:+ newline +:+ ind +:+ "}"
  end.

Definition stringify (v : JValue) : string := stringifyAt "" v.

(** ** What is printed and read back *)

(** The text has no surrogate in three-byte form: true of every well-formed
    UTF-8 text. *)
Fixpoint plainText (s : string) : bool :=
  match s with
  | EmptyString => true
  | String c r =>
      match r with
      | String c2 (String c3 _) =>
          negb ((Text.code c =? 237) && (160 <=? Text.code c2)
                && (Text.code c2 <=? 191) && (128 <=? Text.code c3)
                && (Text.code c3 <=? 191))%N
          && plainText r
      | _ => plainText r
      end
  end.

(** Spaces only: an indentation. *)
Fixpoint blank (s : string) : bool :=
  match s with
  | EmptyString => true
  | String c r => (Text.code c =? 32)%N && blank r
  end.

(** A character that cannot continue an integer literal. *)
Definition delimChar (c : ascii) : bool :=
  let n := Text.code c in
  match digitVal c with
  | Some _ => false
  | None => negb ((n =? 46) || (n =? 101) || (n =? 69))%N
  end.

(** The rest of a text after a value: nothing, or something that starts
    with such a character. *)
Definition delimited (r : string) : bool :=
  match r with
  | EmptyString => true
  | String c _ => delimChar c
  end.

(** The values that the program serialises: integers for numbers, plain
    text for strings and keys, and no key twice in an object. *)
Inductive Printable : JValue -> Prop :=
| PrintNull : Printable JNull
| PrintBool b : Printable (JBool b)
| PrintInt z : Printable (JNum z 0)
| PrintStr s : plainText s = true -> Printable (JStr s)
| PrintArr items : Forall Printable items -> Printable (JArr items)
| PrintObj fields :
    NoDup (map fst fields) ->
    Forall (fun kv => plainText (fst kv) = true /\ Printable (snd kv)) fields ->
    Printable (JObj fields).

Definition chars (s : string) : list ascii := String.list_ascii_of_string s.

(** The lexer inside the digits of an integer. *)
Definition intAcc (neg : bool) (m : Z) : NumAcc := mkNumAcc NInt neg m 0 false 0.

(** The parser is where a value may start. *)
Definition ValueSlot (ex : Expect) : Prop := ex = EValue \/ ex = EArrFirst.

(** The parser is where a key may start. *)
Definition KeySlot (ex : Expect) : Prop := ex = EObjFirst \/ ex = EObjKey.

(** Reading the text of [v], wherever a value may start and whatever
    follows, completes [v]. *)
Definition ReadsBack (v : JValue) : Prop :=
  forall ind ex stack r,
    blank ind = true -> ValueSlot ex -> delimited r = true ->
    scan LTop ex stack (stringifyAt ind v +:+ r) =
    match complete v stack with
    | Some (ex', stack') => scan LTop ex' stack' r
    | None => None
    end.

(** What [stringifyAt] puts between two elements, and what it writes for a
    property. *)
Definition separator (ind' : string) : string := "," +:+ newline +:+ ind'.

Definition fieldText (ind' : string) (kv : string * JValue) : string :=
  quote (fst kv) +:+ ": " +:+ stringifyAt ind' (snd kv).

End JSON.


(* ===================================================================== *)
(** * Types *)
(* ===================================================================== *)

Record ActivityEntry : Type := mkActivityEntry {
  entryId : string;
  entryText : string;
  entryTimestamp : Z
}.

Record Habit : Type := mkHabit {
  habitId : string;
  habitLabel : string;
  habitCompleted : bool
}.

Record MiniGoal : Type := mkMiniGoal {
  goalId : string;
  goalText : string;
  goalDeadline : string;
  goalCompleted : bool
}.

Record IfThenPlan : Type := mkIfThenPlan {
  planId : string;
  planTrigger : string;
  planAction : string
}.

Record WOOPPlan : Type := mkWOOPPlan {
  wish : string;
  outcome : string;
  obstacle : string;
  plan : string
}.

Record AnalyticsData : Type := mkAnalyticsData {
  timerSessions : Z;
  habitsCompleted : Z;
  goalsCreated : Z;
  ifThenCreated : Z
}.

Record Theme : Type := mkTheme {
  themeName : string;
  themeColor : string;
  unlockPoints : Z
}.

Global Instance ActivityEntry_eq_dec : EqDecision ActivityEntry.
Proof. solve_decision. Defined.
Global Instance Habit_eq_dec : EqDecision Habit.
Proof. solve_decision. Defined.

(** ** Constants *)

Definition THEMES : list Theme :=
  [ mkTheme "Matrix Green" "#00FF41" 0;
    mkTheme "Amber Alert" "#FFB000" 50;
    mkTheme "Plasma Blue" "#00D1FF" 100;
    mkTheme "Crimson Surge" "#FF3131" 250;
    mkTheme "Void Purple" "#BC13FE" 500 ].

(** ** The component state *)

(** The [useState] atoms that the handlers below read or write, and the
    local-storage slot [momentum_last_reset] of the midnight reset. *)
Record State : Type := mkState {
  entries : list ActivityEntry;
  habits : list Habit;
  vision : string;
  miniGoals : list MiniGoal;
  ifThenPlans : list IfThenPlan;
  woop : WOOPPlan;
  points : Z;
  activeTheme : string;
  habitHistory : gmap string (list string);
  futureCostNotes : gmap string string;
  analytics : AnalyticsData;
  newEntry : string;
  lastReset : option string
}.

Definition setEntries (v : list ActivityEntry) (st : State) : State :=
  mkState v (habits st) (vision st) (miniGoals st) (ifThenPlans st) (woop st)
    (points st) (activeTheme st) (habitHistory st) (futureCostNotes st)
    (analytics st) (newEntry st) (lastReset st).

Definition setHabits (v : list Habit) (st : State) : State :=
  mkState (entries st) v (vision st) (miniGoals st) (ifThenPlans st) (woop st)
    (points st) (activeTheme st) (habitHistory st) (futureCostNotes st)
    (analytics st) (newEntry st) (lastReset st).

Definition setVision (v : string) (st : State) : State :=
  mkState (entries st) (habits st) v (miniGoals st) (ifThenPlans st) (woop st)
    (points st) (activeTheme st) (habitHistory st) (futureCostNotes st)
    (analytics st) (newEntry st) (lastReset st).

Definition setMiniGoals (v : list MiniGoal) (st : State) : State :=
  mkState (entries st) (habits st) (vision st) v (ifThenPlans st) (woop st)
    (points st) (activeTheme st) (habitHistory st) (futureCostNotes st)
    (analytics st) (newEntry st) (lastReset st).

Definition setIfThenPlans (v : list IfThenPlan) (st : State) : State :=
  mkState (entries st) (habits st) (vision st) (miniGoals st) v (woop st)
    (points st) (activeTheme st) (habitHistory st) (futureCostNotes st)
    (analytics st) (newEntry st) (lastReset st).

Definition setWoop (v : WOOPPlan) (st : State) : State :=
  mkState (entries st) (habits st) (vision st) (miniGoals st) (ifThenPlans st) v
    (points st) (activeTheme st) (habitHistory st) (futureCostNotes st)
    (analytics st) (newEntry st) (lastReset st).

Definition setPoints (v : Z) (st : State) : State :=
  mkState (entries st) (habits st) (vision st) (miniGoals st) (ifThenPlans st)
    (woop st) v (activeTheme st) (habitHistory st) (futureCostNotes st)
    (analytics st) (newEntry st) (lastReset st).

Definition setActiveTheme (v : string) (st : State) : State :=
  mkState (entries st) (habits st) (vision st) (miniGoals st) (ifThenPlans st)
    (woop st) (points st) v (habitHistory st) (futureCostNotes st)
    (analytics st) (newEntry st) (lastReset st).

Definition setHabitHistory (v : gmap string (list string)) (st : State) : State :=
  mkState (entries st) (habits st) (vision st) (miniGoals st) (ifThenPlans st)
    (woop st) (points st) (activeTheme st) v (futureCostNotes st)
    (analytics st) (newEntry st) (lastReset st).

Definition setFutureCostNotes (v : gmap string string) (st : State) : State :=
  mkState (entries st) (habits st) (vision st) (miniGoals st) (ifThenPlans st)
    (woop st) (points st) (activeTheme st) (habitHistory st) v
    (analytics st) (newEntry st) (lastReset st).

Definition setAnalytics (v : AnalyticsData) (st : State) : State :=
  mkState (entries st) (habits st) (vision st) (miniGoals st) (ifThenPlans st)
    (woop st) (points st) (activeTheme st) (habitHistory st) (futureCostNotes st)
    v (newEntry st) (lastReset st).

Definition setNewEntry (v : string) (st : State) : State :=
  mkState (entries st) (habits st) (vision st) (miniGoals st) (ifThenPlans st)
    (woop st) (points st) (activeTheme st) (habitHistory st) (futureCostNotes st)
    (analytics st) v (lastReset st).

(** [localStorage.setItem (STORAGE_KEYS.LAST_RESET, v)]. *)
Definition setLastReset (v : string) (st : State) : State :=
  mkState (entries st) (habits st) (vision st) (miniGoals st) (ifThenPlans st)
    (woop st) (points st) (activeTheme st) (habitHistory st) (futureCostNotes st)
    (analytics st) (newEntry st) (Some v).

(** The initialisers of the atoms on a first run, when local storage holds
    nothing. *)
Definition initialState : State :=
  {| entries := [];
     habits := [ mkHabit "1" "Wake up 30m earlier" false;
                 mkHabit "2" "Read 10 pages" false;
                 mkHabit "3" "Meditate 5 minutes" false;
                 mkHabit "4" "Gratitude journal" false ];
     vision := "";
     miniGoals := [];
     ifThenPlans := [];
     woop := mkWOOPPlan "" "" "" "";
     points := 0;
     activeTheme := match THEMES with t :: _ => themeColor t | [] => "" end;
     habitHistory := ∅;
     futureCostNotes := ∅;
     analytics := mkAnalyticsData 0 0 0 0;
     newEntry := "";
     lastReset := None |}.

(* ===================================================================== *)
(** * Backup documents *)
(* ===================================================================== *)

(** The state as a JSON value and back.  The setters of the component are
    typed by the interfaces above while [importData] hands them whatever the
    document holds; [Codec] says which JSON values are values of those
    types.  An object is read structurally: it has the declared properties,
    each of the declared type. *)
Module Codec.
Import JSON.

Definition maxSafeInteger : Z := 2 ^ 53 - 1.

Definition asStr (v : JValue) : option string :=
  match v with JStr s => Some s | _ => None end.

Definition asBool (v : JValue) : option bool :=
  match v with JBool b => Some b | _ => None end.

(** A number that is an integer, within the range where every integer is
    a double. *)
Definition asInt (v : JValue) : option Z :=
  match v with
  | JNum m e =>
      let z := if 0 <=? e then Some (m * 10 ^ e)
               else if m mod 10 ^ (- e) =? 0 then Some (m / 10 ^ (- e))
               else None in
      z ≫= (fun n => if Z.abs n <=? maxSafeInteger then Some n else None)
  | _ => None
  end.

Definition asList {A} (dec : JValue -> option A) (v : JValue) : option (list A) :=
  match v with JArr items => mapM dec items | _ => None end.

(** A [Record<string, A>]. *)
Definition asRecord {A} (dec : JValue -> option A) (v : JValue)
  : option (gmap string A) :=
  match v with
  | JObj fields =>
      list_to_map <$> mapM (fun kv => pair (fst kv) <$> dec (snd kv)) fields
  | _ => None
  end.

Definition field {A} (fields : list (string * JValue)) (k : string)
    (dec : JValue -> option A) : option A :=
  prop fields k ≫= dec.

Definition asEntry (v : JValue) : option ActivityEntry :=
  match v with
  | JObj f =>
      i ← field f "id" asStr; t ← field f "text" asStr;
      ts ← field f "timestamp" asInt;
      Some (mkActivityEntry i t ts)
  | _ => None
  end.

Definition asHabit (v : JValue) : option Habit :=
  match v with
  | JObj f =>
      i ← field f "id" asStr; l ← field f "label" asStr;
      c ← field f "completed" asBool;
      Some (mkHabit i l c)
  | _ => None
  end.

Definition asMiniGoal (v : JValue) : option MiniGoal :=
  match v with
  | JObj f =>
      i ← field f "id" asStr; t ← field f "text" asStr;
      d ← field f "deadline" asStr; c ← field f "completed" asBool;
      Some (mkMiniGoal i t d c)
  | _ => None
  end.

Definition asIfThenPlan (v : JValue) : option IfThenPlan :=
  match v with
  | JObj f =>
      i ← field f "id" asStr; t ← field f "trigger" asStr;
      a ← field f "action" asStr;
      Some (mkIfThenPlan i t a)
  | _ => None
  end.

Definition asWoop (v : JValue) : option WOOPPlan :=
  match v with
  | JObj f =>
      w ← field f "wish" asStr; o ← field f "outcome" asStr;
      b ← field f "obstacle" asStr; p ← field f "plan" asStr;
      Some (mkWOOPPlan w o b p)
  | _ => None
  end.

Definition asAnalytics (v : JValue) : option AnalyticsData :=
  match v with
  | JObj f =>
      t ← field f "timerSessions" asInt; h ← field f "habitsCompleted" asInt;
      g ← field f "goalsCreated" asInt; i ← field f "ifThenCreated" asInt;
      Some (mkAnalyticsData t h g i)
  | _ => None
  end.

Definition ofEntry (e : ActivityEntry) : JValue :=
  JObj [("id", JStr (entryId e)); ("text", JStr (entryText e));
        ("timestamp", JInt (entryTimestamp e))].

Definition ofHabit (h : Habit) : JValue :=
  JObj [("id", JStr (habitId h)); ("label", JStr (habitLabel h));
        ("completed", JBool (habitCompleted h))].

Definition ofMiniGoal (g : MiniGoal) : JValue :=
  JObj [("id", JStr (goalId g)); ("text", JStr (goalText g));
        ("deadline", JStr (goalDeadline g)); ("completed", JBool (goalCompleted g))].

Definition ofIfThenPlan (p : IfThenPlan) : JValue :=
  JObj [("id", JStr (planId p)); ("trigger", JStr (planTrigger p));
        ("action", JStr (planAction p))].

Definition ofWoop (w : WOOPPlan) : JValue :=
  JObj [("wish", JStr (wish w)); ("outcome", JStr (outcome w));
        ("obstacle", JStr (obstacle w)); ("plan", JStr (plan w))].

End Codec.

(** ** [exportData] *)

(** The object [data] of [exportData]; [isoNow] is
    [new Date().toISOString()]. *)
Definition exportDocument (isoNow : string) (st : State) : JSON.JValue :=
  JSON.JObj
    [ ("entries", JSON.JArr (map Codec.ofEntry (entries st)));
      ("habits", JSON.JArr (map Codec.ofHabit (habits st)));
      ("vision", JSON.JStr (vision st));
      ("miniGoals", JSON.JArr (map Codec.ofMiniGoal (miniGoals st)));
      ("ifThenPlans", JSON.JArr (map Codec.ofIfThenPlan (ifThenPlans st)));
      ("woop", Codec.ofWoop (woop st));
      ("points", JSON.JInt (points st));
      ("activeTheme", JSON.JStr (activeTheme st));
      ("timestamp", JSON.JStr isoNow) ].

(** [exportData]: the text of the downloaded backup file. *)
Definition exportData (isoNow : string) (st : State) : string :=
  JSON.stringify (exportDocument isoNow st).

(** ** [importData] *)

(** How the [onload] handler of [importData] ends.
    - [Restored st']: the alert "System data restored successfully.", the
      component state being [st'].
    - [InvalidBackup st']: the [catch] branch, alert
      "Error: Invalid backup file.", the component state being [st'].
    - [OutsideSchema]: the document holds, under a key that is read, a
      truthy value that is not of the type of the atom (or the document is
      an array, whose inherited [entries] method is truthy).  The source
      passes it to the setter unchecked; the typed state does not follow it
      there. *)
Inductive ImportResult : Type :=
| Restored (st' : State)
| InvalidBackup (st' : State)
| OutsideSchema.

(** [if (data.k) setK (data.k)]. *)
Definition importField {A} (fields : list (string * JSON.JValue)) (k : string)
    (dec : JSON.JValue -> option A) (set : A -> State -> State) (st : State)
  : option State :=
  match JSON.prop fields k with
  | Some v => if JSON.truthy v then (a ← dec v; Some (set a st)) else Some st
  | None => Some st
  end.

(** The eleven guarded setter calls, in the order of the source. *)
Definition importFields (f : list (string * JSON.JValue)) (st : State) : option State :=
  st ← importField f "entries" (Codec.asList Codec.asEntry) setEntries st;
  st ← importField f "habits" (Codec.asList Codec.asHabit) setHabits st;
  st ← importField f "vision" Codec.asStr setVision st;
  st ← importField f "miniGoals" (Codec.asList Codec.asMiniGoal) setMiniGoals st;
  st ← importField f "ifThenPlans" (Codec.asList Codec.asIfThenPlan) setIfThenPlans st;
  st ← importField f "woop" Codec.asWoop setWoop st;
  st ← importField f "points" Codec.asInt setPoints st;
  st ← importField f "activeTheme" Codec.asStr setActiveTheme st;
  st ← importField f "habitHistory" (Codec.asRecord (Codec.asList Codec.asStr))
         setHabitHistory st;
  st ← importField f "futureCostNotes" (Codec.asRecord Codec.asStr)
         setFutureCostNotes st;
  importField f "analytics" Codec.asAnalytics setAnalytics st.

(** The body of the [try] block once [JSON.parse] has returned [data].
    Reading [data.entries] from [null] throws a [TypeError], which the
    [catch] receives before any setter has run; a boolean, a number or a
    string has none of the properties. *)
Definition importParsed (data : JSON.JValue) (st : State) : ImportResult :=
  match data with
  | JSON.JNull => InvalidBackup st
  | JSON.JObj f =>
      match importFields f st with
      | Some st' => Restored st'
      | None => OutsideSchema
      end
  | JSON.JArr _ => OutsideSchema
  | _ => Restored st
  end.

(** [reader.onload] of [importData] on the text of the chosen file. *)
Definition importData (text : string) (st : State) : ImportResult :=
  match JSON.parse text with
  | None => InvalidBackup st
  | Some data => importParsed data st
  end.

(* ===================================================================== *)
(** * Handlers and derived state *)
(* ===================================================================== *)

(** [Array.prototype.includes] on strings. *)
Definition includes (l : list string) (x : string) : bool := bool_decide (x ∈ l).

(** [Array.from (new Set (l))]: the distinct elements of [l], each at its
    first occurrence. *)
Fixpoint distinct (l : list string) : list string :=
  match l with
  | [] => []
  | x :: r => x :: filter (fun y => y ≠ x) (distinct r)
  end.

Definition msPerDay : Z := 86400000.

(** ** The 30-day heatmap *)

(** The classes [bgColor] and [glowClass] of a cell showing [count]
    actions. *)
Definition heatmapClasses (count : Z) : string * string :=
  if (0 <? count) && (count <=? 2) then ("bg-engine-accent/30", "")
  else if (2 <? count) && (count <=? 5) then ("bg-engine-accent/60", "")
  else if 5 <? count then ("bg-engine-accent", "shadow-[0_0_8px_rgba(0,255,65,0.4)]")
  else ("bg-engine-border", "").

Inductive Tier : Type := TierNone | TierLow | TierMedium | TierHigh.

(** The legend drawn above the heatmap: which colour stands for which range
    of counts ("0", "1-2", "3-5", "6+"). *)
Definition legendTier (bgColor : string) : option Tier :=
  if bool_decide (bgColor = "bg-engine-border") then Some TierNone
  else if bool_decide (bgColor = "bg-engine-accent/30") then Some TierLow
  else if bool_decide (bgColor = "bg-engine-accent/60") then Some TierMedium
  else if bool_decide (bgColor = "bg-engine-accent") then Some TierHigh
  else None.

(** The bucketing policy in the words of the specification. *)
Definition specTier (count : Z) : Tier :=
  if count =? 0 then TierNone
  else if count <=? 2 then TierLow
  else if count <=? 5 then TierMedium
  else TierHigh.

(** ** [toFixed(1)] on a double *)

Definition prec : Z := 53.
Definition emax : Z := 1024.

(** The double of an integer. *)
Definition doubleOfZ (z : Z) : spec_float := binary_normalize prec emax z 0 false.

(** The integer [n] for which [n / 10] is nearest to [m * 2^e], the larger
    one of two. *)
Definition tenths (m : positive) (e : Z) : Z :=
  if 0 <=? e then 10 * Z.pos m * 2 ^ e
  else (20 * Z.pos m + 2 ^ (- e)) / 2 ^ (1 - e).

Definition showTenths (n : Z) : string :=
  Text.ofInt (n / 10) +:+ "." +:+ Text.ofInt (n mod 10).

(** [Number.prototype.toFixed] with one fraction digit, below [10^21]. *)
Definition toFixed1 (x : spec_float) : string :=
  match x with
  | S754_zero _ => "0.0"
  | S754_finite s m e => (if s then "-" else "") +:+ showTenths (tenths m e)
  | S754_infinity s => if s then "-Infinity" else "Infinity"
  | S754_nan => "NaN"
  end.

(** What [avgActionsPerDay] holds: the number [0], or the text made by
    [toFixed]. *)
Inductive AvgValue : Type :=
| AvgNumber (z : Z)
| AvgText (s : string).

(** ** Handlers that read no clock *)

(** [deleteEntry]. *)
Definition deleteEntry (id : string) (st : State) : State :=
  setEntries (filter (fun e => entryId e ≠ id) (entries st)) st.

Section Engine.

(** The time zone: local time is UTC plus [tzOffset] milliseconds. *)
Variable tzOffset : Z.

(** The text [toDateString] gives for a local calendar day, the day being
    counted from the epoch. *)
Variable dateLabel : Z -> string.

(** The local calendar day of an instant (milliseconds since the epoch). *)
Definition localDay (t : Z) : Z := (t + tzOffset) `div` msPerDay.

(** [new Date (t).toDateString ()]. *)
Definition toDateString (t : Z) : string := dateLabel (localDay t).

(** [getTodayString], the clock showing [now]. *)
Definition getTodayString (now : Z) : string := toDateString now.

(** [d.setDate (d.getDate () + k)] on the instant held by [d]. *)
Definition setDate (t : Z) (k : Z) : Z := t + k * msPerDay.

(** ** [calculateStreak] *)

(** At a fixed offset the instant 24 hours before another lies on the
    calendar day before, and so does the instant that [setDate] gives for
    one day back.  [Zoned.calculateStreak] below is the function in a zone
    whose offset changes. *)

(** The [while] loop, run for at most [fuel] tests of its condition. *)
Fixpoint streakLoop (fuel : nat) (dates : list string) (currentDate : Z)
    (streak : Z) : option Z :=
  match fuel with
  | O => None
  | S fuel' =>
      if includes dates (toDateString currentDate)
      then streakLoop fuel' dates (setDate currentDate (-1)) (streak + 1)
      else Some streak
  end.

Definition calculateStreakWithin (fuel : nat) (now : Z)
    (entries : list ActivityEntry) : option Z :=
  if bool_decide (length entries = 0%nat) then Some 0
  else
    let dates := distinct (map (fun e => toDateString (entryTimestamp e)) entries) in
    let today := getTodayString now in
    let yesterday := toDateString (now - 86400000) in
    if negb (includes dates today) && negb (includes dates yesterday) then Some 0
    else
      streakLoop fuel dates
        (if includes dates today then now else now - 86400000) 0.

(** [calculateStreak], the clock showing [now]; the loop is given one test
    more than there are entries. *)
Definition calculateStreak (now : Z) (entries : list ActivityEntry) : option Z :=
  calculateStreakWithin (S (length entries)) now entries.

(** ** [activityMap] and what is computed from it *)

Definition activityMap (entries : list ActivityEntry) : gmap string Z :=
  foldl (fun m entry =>
           let dateStr := toDateString (entryTimestamp entry) in
           <[dateStr := default 0 (m !! dateStr) + 1]> m)
        ∅ entries.

(** [avgActionsPerDay]. *)
Definition avgActionsPerDay (entries : list ActivityEntry) : AvgValue :=
  let dates := map fst (map_to_list (activityMap entries)) in
  if bool_decide (length dates = 0%nat) then AvgNumber 0
  else AvgText (toFixed1 (SFdiv prec emax
                            (doubleOfZ (Z.of_nat (length entries)))
                            (doubleOfZ (Z.of_nat (length dates))))).

(** [getLast30Days]: the instants [now - 29 days], ..., [now]. *)
Definition getLast30Days (now : Z) : list Z :=
  map (fun i => setDate now (- Z.of_nat i)) (rev (seq 0 30)).

(** The classes of the heatmap cell of the day of [date]. *)
Definition heatmapCell (entries : list ActivityEntry) (date : Z) : string * string :=
  let dateStr := toDateString date in
  let count := default 0 (activityMap entries !! dateStr) in
  heatmapClasses count.

(** ** Midnight reset *)

(** [checkReset], the clock showing [now]. *)
Definition checkReset (now : Z) (st : State) : State :=
  let today := getTodayString now in
  if bool_decide (lastReset st ≠ Some today)
  then setLastReset today
         (setHabits (map (fun h => mkHabit (habitId h) (habitLabel h) false)
                         (habits st)) st)
  else st.

(** ** Activity log *)

(** [addEntry], the clock showing [now].  The source reads the clock once
    for the id and once for the time stamp of the entry; [now] is both
    readings. *)
Definition addEntry (now : Z) (st : State) : State :=
  if bool_decide (Text.trim (newEntry st) = "") then st
  else
    let entry := mkActivityEntry (Text.ofInt now) (Text.trim (newEntry st)) now in
    setNewEntry "" (setEntries (entry :: entries st) st).

(** ** Habits *)

(** The update of [habitHistory] made by [toggleHabit]. *)
Definition logHabit (today : string) (label : string)
    (prevH : gmap string (list string)) : gmap string (list string) :=
  let dayHistory := default [] (prevH !! today) in
  if negb (includes dayHistory label)
  then <[today := dayHistory ++ [label]]> prevH
  else prevH.

(** [toggleHabit], the clock showing [now]. *)
Definition toggleHabit (id : string) (now : Z) (st : State) : State :=
  let newHabits :=
    map (fun h => if bool_decide (habitId h = id)
                  then mkHabit (habitId h) (habitLabel h) (negb (habitCompleted h))
                  else h)
        (habits st) in
  match find (fun h => bool_decide (habitId h = id)) newHabits with
  | Some habit =>
      if habitCompleted habit then
        let a := analytics st in
        setHabits newHabits
          (setHabitHistory (logHabit (getTodayString now) (habitLabel habit)
                                     (habitHistory st))
             (setAnalytics (mkAnalyticsData (timerSessions a) (habitsCompleted a + 1)
                                            (goalsCreated a) (ifThenCreated a)) st))
      else setHabits newHabits st
  | None => setHabits newHabits st
  end.

End Engine.

(** ** Time zones whose offset changes *)

(** A time zone as the platform gives it to [Date].  [offsetAt t] is the
    offset of local time from UTC at the instant [t].  [offsetOfLocal w] is
    the offset at which the local time value [w] is read back as an instant:
    where a clock change makes two instants show [w] it is the offset of the
    earlier one, and where a clock change skips [w] it is the offset before
    the change. *)
Record Zone : Type := mkZone {
  offsetAt : Z -> Z;
  offsetOfLocal : Z -> Z
}.

(** A zone that keeps one offset, [tzOffset] milliseconds. *)
Definition fixedZone (tzOffset : Z) : Zone :=
  mkZone (fun _ => tzOffset) (fun _ => tzOffset).

Definition msPerHour : Z := 3600000.

(** New York in 2026, the clock changes of other years left out: five
    hours behind UTC, and four hours behind from Sun Mar 08 2026 07:00 UTC
    (02:00 local time, which becomes 03:00) to Sun Nov 01 2026 06:00 UTC
    (02:00 local time, which becomes 01:00). *)
Definition newYork2026 : Zone :=
  let spring := 1772953200000 in
  let autumn := 1793512800000 in
  mkZone
    (fun t => if (spring <=? t) && (t <? autumn) then -4 * msPerHour
              else -5 * msPerHour)
    (fun w => if (spring - 4 * msPerHour <=? w) && (w <? autumn - 4 * msPerHour)
              then -4 * msPerHour
              else -5 * msPerHour).

(** [Date] in a time zone, with the local time of an instant and the
    instant of a local time as the language defines them. *)
Module Zoned.
Section Zoned.

Variable zone : Zone.
Variable dateLabel : Z -> string.

(** [LocalTime (t)] and [UTC (t)] of the language. *)
Definition LocalTime (t : Z) : Z := t + offsetAt zone t.
Definition UTC (tlocal : Z) : Z := tlocal - offsetOfLocal zone tlocal.

(** The local calendar day of an instant. *)
Definition localDay (t : Z) : Z := LocalTime t `div` msPerDay.

(** [new Date (t).toDateString ()]. *)
Definition toDateString (t : Z) : string := dateLabel (localDay t).

(** [getTodayString], the clock showing [now]. *)
Definition getTodayString (now : Z) : string := toDateString now.

(** [d.setDate (d.getDate () + k)] on the instant held by [d]: the day of
    the month is changed in local time, the time within the day is kept, and
    the local time that results is read back as an instant. *)
Definition setDate (t : Z) (k : Z) : Z := UTC (LocalTime t + k * msPerDay).

(** The [while] loop of [calculateStreak], run for at most [fuel] tests of
    its condition. *)
Fixpoint streakLoop (fuel : nat) (dates : list string) (currentDate : Z)
    (streak : Z) : option Z :=
  match fuel with
  | O => None
  | S fuel' =>
      if includes dates (toDateString currentDate)
      then streakLoop fuel' dates (setDate currentDate (-1)) (streak + 1)
      else Some streak
  end.

Definition calculateStreakWithin (fuel : nat) (now : Z)
    (entries : list ActivityEntry) : option Z :=
  if bool_decide (length entries = 0%nat) then Some 0
  else
    let dates := distinct (map (fun e => toDateString (entryTimestamp e)) entries) in
    let today := getTodayString now in
    let yesterday := toDateString (now - 86400000) in
    if negb (includes dates today) && negb (includes dates yesterday) then Some 0
    else
      streakLoop fuel dates
        (if includes dates today then now else now - 86400000) 0.

(** [calculateStreak], the clock showing [now]; the loop is given one test
    more than there are entries. *)
Definition calculateStreak (now : Z) (entries : list ActivityEntry) : option Z :=
  calculateStreakWithin (S (length entries)) now entries.

End Zoned.
End Zoned.

(** ** Sequences of operations on the activity log *)

(** [listAll]: the log as the component holds it. *)
Definition listAll (st : State) : list ActivityEntry := entries st.

(** An operation of the user on the log: typing [text] into the input and
    submitting the form while the clock shows [now], or deleting the entry
    [id]. *)
Inductive LogOp : Type :=
| Append (text : string) (now : Z)
| Remove (id : string).

Definition applyOp (op : LogOp) (st : State) : State :=
  match op with
  | Append text now => addEntry now (setNewEntry text st)
  | Remove id => deleteEntry id st
  end.

Definition runOps (ops : list LogOp) (st : State) : State :=
  foldl (fun s op => applyOp op s) st ops.

(** The clock readings of the appends that are not rejected. *)
Definition appendTimes (ops : list LogOp) : list Z :=
  omap (fun op => match op with
                  | Append text now =>
                      if bool_decide (Text.trim text = "") then None else Some now
                  | Remove _ => None
                  end) ops.

Definition successfulAppends (ops : list LogOp) : nat := length (appendTimes ops).

(** The entries made by the appends that are not rejected, in the order of
    their making. *)
Definition created (ops : list LogOp) : list ActivityEntry :=
  omap (fun op => match op with
                  | Append text now =>
                      if bool_decide (Text.trim text = "") then None
                      else Some (mkActivityEntry (Text.ofInt now) (Text.trim text) now)
                  | Remove _ => None
                  end) ops.

(** The removals that name an id present in the log at the time. *)
Fixpoint removalsOfPresent (ops : list LogOp) (st : State) : nat :=
  match ops with
  | [] => 0%nat
  | op :: rest =>
      ((match op with
        | Remove id => if bool_decide (id ∈ map entryId (entries st)) then 1 else 0
        | Append _ _ => 0
        end) + removalsOfPresent rest (applyOp op st))%nat
  end.

(** ** Reading [avgActionsPerDay] as a quotient *)

(** [v] is the quotient [num / den]: as a number, or as a text of tenths. *)
Definition avgDenotes (v : AvgValue) (num den : Z) : Prop :=
  match v with
  | AvgNumber z => z * den = num
  | AvgText s => ∃ n, s = showTenths n ∧ n * den = 10 * num
  end.

(* ===================================================================== *)
(** * Vocabulary of the properties *)
(* ===================================================================== *)

(** What a guarded setter call leaves alone. *)
Definition Preserves {B} (proj : State -> B) {A} (set : A -> State -> State) : Prop :=
  ∀ a st, proj (set a st) = proj st.

(** The habit that [find] returns for [id]. *)
Definition findHabit (id : string) (hs : list Habit) : option Habit :=
  find (fun h => bool_decide (habitId h = id)) hs.

Definition flipHabit (id : string) (h : Habit) : Habit :=
  if bool_decide (habitId h = id)
  then mkHabit (habitId h) (habitLabel h) (negb (habitCompleted h))
  else h.

(** The day's list of a history, [prevH[today] || []]. *)
Definition dayHistory (today : string) (hist : gmap string (list string))
  : list string := default [] (hist !! today).

(** Newest first: every entry has a later time stamp than all entries
    behind it. *)
Definition NewestFirst (es : list ActivityEntry) : Prop :=
  StronglySorted (fun a b => entryTimestamp b < entryTimestamp a) es.

(** The entries were made by [addEntry]: the id is the time stamp in
    decimal. *)
Definition IdsFromClock (es : list ActivityEntry) : Prop :=
  Forall (fun e => entryId e = Text.ofInt (entryTimestamp e)) es.

(** Four entries on three days: the quotient is 4/3, the value is the text
    "1.3". *)
Definition fourOnThreeDays : list ActivityEntry :=
  [ mkActivityEntry "259200000" "d" 259200000;
    mkActivityEntry "172800001" "c" 172800001;
    mkActivityEntry "172800000" "b" 172800000;
    mkActivityEntry "86400000" "a" 86400000 ].

(** The log has an entry on the local calendar day [day]. *)
Definition hasEntryOn (tzOffset : Z) (entries : list ActivityEntry) (day : Z) : Prop :=
  day ∈ map (fun e => localDay tzOffset (entryTimestamp e)) entries.

(** [k] days in a row, [start] being the latest, have an entry and the day
    before them has none. *)
Definition StreakRun (has : Z -> Prop) (start k : Z) : Prop :=
  0 ≤ k ∧ (∀ i, 0 ≤ i < k → has (start - i)) ∧ ¬ has (start - k).

Global Instance hasEntryOn_dec tzOffset entries day :
  Decision (hasEntryOn tzOffset entries day).
Proof. unfold hasEntryOn. apply _. Defined.

(** A log with entries on five days in a row, the last being the day of the
    clock reading [8640000005], and one older entry after a gap. *)
Definition fiveDayLog : list ActivityEntry :=
  map (fun t => mkActivityEntry (Text.ofInt t) "x" t)
    [8640000000; 8553600007; 8467200000; 8380800001; 8294400000; 8121600000].

(** The log has an entry on the local calendar day [day] of the zone. *)
Definition hasEntryIn (zone : Zone) (entries : list ActivityEntry) (day : Z) : Prop :=
  day ∈ map (fun e => Zoned.localDay zone (entryTimestamp e)) entries.

Global Instance hasEntryIn_dec zone entries day : Decision (hasEntryIn zone entries day).
Proof. unfold hasEntryIn. apply _. Defined.

(** [setDate] by one day back lands on the calendar day before: no clock
    change of the zone carries a local time across midnight. *)
Definition StepsByDay (zone : Zone) : Prop :=
  ∀ t, Zoned.localDay zone (Zoned.setDate zone t (-1)) = Zoned.localDay zone t - 1.

(** The instant 24 hours before [now] lies on the calendar day before that
    of [now]. *)
Definition DayAgoIsYesterday (zone : Zone) (now : Z) : Prop :=
  Zoned.localDay zone (now - 86400000) = Zoned.localDay zone now - 1.

(** One entry, made on Sun Mar 08 2026 at 12:00 in New York. *)
Definition sundayLog : list ActivityEntry :=
  [ mkActivityEntry "1772985600000" "walk" 1772985600000 ].

(** One entry, made on Sat Mar 07 2026 at 12:00 in New York. *)
Definition saturdayLog : list ActivityEntry :=
  [ mkActivityEntry "1772902800000" "run" 1772902800000 ].

(** A number of the state that a double holds exactly. *)
Definition SafeInteger (z : Z) : Prop := Z.abs z ≤ Codec.maxSafeInteger.

(** The numbers of the exported atoms are safe integers. *)
Definition SafeState (st : State) : Prop :=
  Forall (fun e => SafeInteger (entryTimestamp e)) (entries st)
  ∧ SafeInteger (points st).

(** What importing the backup of [src] makes of [dst]: the exported atoms
    are taken from [src], except those that are falsy there, and the atoms
    that [exportData] leaves out stay as they are in [dst]. *)
Definition restoredFrom (src dst : State) : State :=
  {| entries := entries src;
     habits := habits src;
     vision := if bool_decide (vision src = "") then vision dst else vision src;
     miniGoals := miniGoals src;
     ifThenPlans := ifThenPlans src;
     woop := woop src;
     points := if bool_decide (points src = 0) then points dst else points src;
     activeTheme := if bool_decide (activeTheme src = "") then activeTheme dst
                    else activeTheme src;
     habitHistory := habitHistory dst;
     futureCostNotes := futureCostNotes dst;
     analytics := analytics dst;
     newEntry := newEntry dst;
     lastReset := lastReset dst |}.

(** A state with some history: three points, and the habit "2" completed
    at the instant [1767225600000]. *)
Definition trackedState : State :=
  toggleHabit 0 pretty "2" 1767225600000 (setPoints 3 initialState).

(** Every string of the exported atoms is plain text. *)
Definition PlainState (st : State) : Prop :=
  Forall (fun e => JSON.plainText (entryId e) = true
                   ∧ JSON.plainText (entryText e) = true) (entries st)
  ∧ Forall (fun h => JSON.plainText (habitId h) = true
                     ∧ JSON.plainText (habitLabel h) = true) (habits st)
  ∧ JSON.plainText (vision st) = true
  ∧ Forall (fun g => JSON.plainText (goalId g) = true
                     ∧ JSON.plainText (goalText g) = true
                     ∧ JSON.plainText (goalDeadline g) = true) (miniGoals st)
  ∧ Forall (fun p => JSON.plainText (planId p) = true
                     ∧ JSON.plainText (planTrigger p) = true
                     ∧ JSON.plainText (planAction p) = true) (ifThenPlans st)
  ∧ (JSON.plainText (wish (woop st)) = true
     ∧ JSON.plainText (outcome (woop st)) = true
     ∧ JSON.plainText (obstacle (woop st)) = true
     ∧ JSON.plainText (plan (woop st)) = true)
  ∧ JSON.plainText (activeTheme st) = true.

(* ===================================================================== *)
(** * The rest of the component *)
(* ===================================================================== *)

(** ** Further constants *)

Definition TIMER_DURATION : Z := 300.

(** The shape of [newIfThen] and of a preset: a trigger and an action. *)
Record PlanForm : Type := mkPlanForm {
  formTrigger : string;
  formAction : string
}.

(** The shape of [newGoal]. *)
Record GoalForm : Type := mkGoalForm {
  formText : string;
  formDeadline : string
}.

Definition IF_THEN_PRESETS : list PlanForm :=
  [ mkPlanForm "I get distracted by my phone"
               "I will set a timer of 20 minutes to do deep-work";
    mkPlanForm "I want to spend something online"
               "I will wait 30 minutes and see if I still need it";
    mkPlanForm "I feel like procrastinating"
               "I will do 10 pushups and start a 5-minute burst";
    mkPlanForm "I lose focus on my task"
               "I will take 3 deep breaths and write down my next tiny step" ].

(** The argument of a badge's [requirement]. *)
Record Stats : Type := mkStats {
  statPoints : Z;
  statStreak : Z;
  statAnalytics : AnalyticsData
}.

(** A badge; the icon, a component of the drawing library, is left out. *)
Record Badge : Type := mkBadge {
  badgeId : string;
  badgeName : string;
  badgeDescription : string;
  requirement : Stats -> bool
}.

Definition BADGES : list Badge :=
  [ mkBadge "starter" "Engine Start" "Earn your first 10 points"
      (fun s => 10 <=? statPoints s);
    mkBadge "consistent" "Steady State" "Maintain a 3-day streak"
      (fun s => 3 <=? statStreak s);
    mkBadge "focused" "Deep Diver" "Complete 10 timer sessions"
      (fun s => 10 <=? timerSessions (statAnalytics s));
    mkBadge "planner" "Strategist" "Create 5 If-Then plans"
      (fun s => 5 <=? ifThenCreated (statAnalytics s));
    mkBadge "master" "Momentum Master" "Earn 500 points"
      (fun s => 500 <=? statPoints s) ].

Module STORAGE_KEYS.
Definition ENTRIES : string := "momentum_entries".
Definition HABITS : string := "momentum_habits".
Definition FUTURE_COST : string := "momentum_future_cost".
Definition POINTS : string := "momentum_points".
Definition LAST_RESET : string := "momentum_last_reset".
Definition VISION : string := "momentum_vision".
Definition MINI_GOALS : string := "momentum_mini_goals".
Definition IF_THEN : string := "momentum_if_then".
Definition WOOP : string := "momentum_woop".
Definition THEME : string := "momentum_theme".
Definition AUDIO_SHIELD : string := "momentum_audio_shield".
Definition REMINDERS : string := "momentum_reminders".
Definition ANALYTICS : string := "momentum_analytics".
Definition HABIT_HISTORY : string := "momentum_habit_history".
Definition FUTURE_COST_NOTES : string := "momentum_future_cost_notes".
End STORAGE_KEYS.

(** ** The whole component state *)

(** The atoms of [State] together with the atoms of the timer, of the two
    forms, of the daily summary and of the two switches that are kept in
    local storage. *)
Record Component : Type := mkComponent {
  engine : State;
  timeLeft : Z;
  isActive : bool;
  newGoal : GoalForm;
  newIfThen : PlanForm;
  selectedDate : option string;
  audioShieldEnabled : bool;
  remindersEnabled : bool
}.

Definition setEngine (v : State) (c : Component) : Component :=
  mkComponent v (timeLeft c) (isActive c) (newGoal c) (newIfThen c)
    (selectedDate c) (audioShieldEnabled c) (remindersEnabled c).

Definition setTimeLeft (v : Z) (c : Component) : Component :=
  mkComponent (engine c) v (isActive c) (newGoal c) (newIfThen c)
    (selectedDate c) (audioShieldEnabled c) (remindersEnabled c).

Definition setIsActive (v : bool) (c : Component) : Component :=
  mkComponent (engine c) (timeLeft c) v (newGoal c) (newIfThen c)
    (selectedDate c) (audioShieldEnabled c) (remindersEnabled c).

Definition setNewGoal (v : GoalForm) (c : Component) : Component :=
  mkComponent (engine c) (timeLeft c) (isActive c) v (newIfThen c)
    (selectedDate c) (audioShieldEnabled c) (remindersEnabled c).

Definition setNewIfThen (v : PlanForm) (c : Component) : Component :=
  mkComponent (engine c) (timeLeft c) (isActive c) (newGoal c) v
    (selectedDate c) (audioShieldEnabled c) (remindersEnabled c).

Definition setSelectedDate (v : option string) (c : Component) : Component :=
  mkComponent (engine c) (timeLeft c) (isActive c) (newGoal c) (newIfThen c)
    v (audioShieldEnabled c) (remindersEnabled c).

Definition setAudioShieldEnabled (v : bool) (c : Component) : Component :=
  mkComponent (engine c) (timeLeft c) (isActive c) (newGoal c) (newIfThen c)
    (selectedDate c) v (remindersEnabled c).

Definition setRemindersEnabled (v : bool) (c : Component) : Component :=
  mkComponent (engine c) (timeLeft c) (isActive c) (newGoal c) (newIfThen c)
    (selectedDate c) (audioShieldEnabled c) v.

(** A handler that touches atoms of [State] only. *)
Definition onEngine (f : State -> State) (c : Component) : Component :=
  setEngine (f (engine c)) c.

(** The atoms that no storage key holds, as their initialisers make them. *)
Definition freshComponent (st : State) (audioShield reminders : bool) : Component :=
  {| engine := st;
     timeLeft := TIMER_DURATION;
     isActive := false;
     newGoal := mkGoalForm "" "";
     newIfThen := mkPlanForm "" "";
     selectedDate := None;
     audioShieldEnabled := audioShield;
     remindersEnabled := reminders |}.

(** The component on a first run. *)
Definition initialComponent : Component := freshComponent initialState false false.

(** ** The timer *)

(** [handleTimerComplete], the clock showing [now].  The source reads the
    clock once for the id and once for the time stamp of the entry; [now] is
    both readings.  The vibration it asks for changes no state. *)
Definition handleTimerComplete (now : Z) (c : Component) : Component :=
  let st := engine c in
  let a := analytics st in
  let entry := mkActivityEntry (Text.ofInt now) "Completed 5-Minute Action Burst" now in
  setEngine
    (setEntries (entry :: entries st)
       (setAnalytics (mkAnalyticsData (timerSessions a + 1) (habitsCompleted a)
                                      (goalsCreated a) (ifThenCreated a))
          (setPoints (points st + 1) st)))
    (setTimeLeft TIMER_DURATION (setIsActive false c)).

Definition toggleTimer (c : Component) : Component :=
  setIsActive (negb (isActive c)) c.

Definition resetTimer (c : Component) : Component :=
  setTimeLeft TIMER_DURATION (setIsActive false c).

(** The interval of the timer effect is running. *)
Definition intervalRuns (c : Component) : bool := isActive c && (0 <? timeLeft c).

(** The callback of that interval, [setTimeLeft (prev => prev - 1)]. *)
Definition intervalTick (c : Component) : Component :=
  setTimeLeft (timeLeft c - 1) c.

(** The body of the timer effect: it starts the interval, or completes the
    session when the time is up, or stops the interval. *)
Definition timerEffect (now : Z) (c : Component) : Component :=
  if intervalRuns c then c
  else if timeLeft c =? 0 then handleTimerComplete now c
  else c.

(** The render that follows an update: the timer effect runs when one of
    its dependencies [isActive] and [timeLeft] has changed. *)
Definition afterRender (now : Z) (before after : Component) : Component :=
  if bool_decide (isActive after = isActive before ∧ timeLeft after = timeLeft before)
  then after
  else timerEffect now after.

(** [padStart] with a one-character filler, on a text of one-byte
    characters. *)
Definition padStart (n : nat) (fill : ascii) (s : string) : string :=
  String.string_of_list_ascii (replicate (n - String.length s) fill) +:+ s.

(** [formatTime] on a whole number of seconds. *)
Definition formatTime (seconds : Z) : string :=
  let mins := seconds `div` 60 in
  let secs := seconds `rem` 60 in
  Text.ofInt mins +:+ ":" +:+ padStart 2 "0" (Text.ofInt secs).

(** ** Mini-goals *)

(** [addMiniGoal], the clock showing [now]. *)
Definition addMiniGoal (now : Z) (c : Component) : Component :=
  if bool_decide (Text.trim (formText (newGoal c)) = "") then c
  else
    let goal := mkMiniGoal (Text.ofInt now) (Text.trim (formText (newGoal c)))
                           (formDeadline (newGoal c)) false in
    let st := engine c in
    let a := analytics st in
    setNewGoal (mkGoalForm "" "")
      (setEngine
         (setAnalytics (mkAnalyticsData (timerSessions a) (habitsCompleted a)
                                        (goalsCreated a + 1) (ifThenCreated a))
            (setMiniGoals (miniGoals st ++ [goal]) st))
         c).

Definition toggleMiniGoal (id : string) (st : State) : State :=
  setMiniGoals
    (map (fun g => if bool_decide (goalId g = id)
                   then mkMiniGoal (goalId g) (goalText g) (goalDeadline g)
                                   (negb (goalCompleted g))
                   else g)
         (miniGoals st))
    st.

Definition deleteMiniGoal (id : string) (st : State) : State :=
  setMiniGoals (filter (fun g => goalId g ≠ id) (miniGoals st)) st.

(** ** If-Then plans *)

(** [addIfThen], the clock showing [now]. *)
Definition addIfThen (now : Z) (c : Component) : Component :=
  if bool_decide (Text.trim (formTrigger (newIfThen c)) = "")
     || bool_decide (Text.trim (formAction (newIfThen c)) = "")
  then c
  else
    let plan := mkIfThenPlan (Text.ofInt now) (Text.trim (formTrigger (newIfThen c)))
                             (Text.trim (formAction (newIfThen c))) in
    let st := engine c in
    let a := analytics st in
    setNewIfThen (mkPlanForm "" "")
      (setEngine
         (setAnalytics (mkAnalyticsData (timerSessions a) (habitsCompleted a)
                                        (goalsCreated a) (ifThenCreated a + 1))
            (setIfThenPlans (ifThenPlans st ++ [plan]) st))
         c).

(** [applyPreset], the clock showing [now]. *)
Definition applyPreset (preset : PlanForm) (now : Z) (st : State) : State :=
  let plan := mkIfThenPlan (Text.ofInt now) (formTrigger preset) (formAction preset) in
  let a := analytics st in
  setAnalytics (mkAnalyticsData (timerSessions a) (habitsCompleted a)
                                (goalsCreated a) (ifThenCreated a + 1))
    (setIfThenPlans (ifThenPlans st ++ [plan]) st).

Definition deleteIfThen (id : string) (st : State) : State :=
  setIfThenPlans (filter (fun p => planId p ≠ id) (ifThenPlans st)) st.

(** ** Themes and switches *)

(** A click on the button of [theme]: the button is disabled while the
    points are below [unlockPoints]. *)
Definition selectTheme (theme : Theme) (st : State) : State :=
  if unlockPoints theme <=? points st then setActiveTheme (themeColor theme) st
  else st.

(** [toggleReminders]; [granted] says whether [Notification.requestPermission]
    answers "granted", which is asked only when the reminders are off. *)
Definition toggleReminders (granted : bool) (c : Component) : Component :=
  if negb (remindersEnabled c)
  then (if granted then setRemindersEnabled true c else c)
  else setRemindersEnabled false c.

(** [isEarned] of a badge. *)
Definition isEarned (badge : Badge) (points streak : Z) (analytics : AnalyticsData)
  : bool :=
  requirement badge (mkStats points streak analytics).

(** ** Views that read the clock or the time zone *)

(** One point of the 7-day chart. *)
Record VelocityPoint : Type := mkVelocityPoint {
  pointName : string;
  pointActions : Z
}.

(** What [mostActiveDay] holds. *)
Record PeakDay : Type := mkPeakDay {
  peakDay : string;
  peakCount : Z
}.

Section Views.

Variable tzOffset : Z.
Variable dateLabel : Z -> string.

(** [d.toLocaleDateString ([], { weekday: 'short' })] on an instant, and
    [new Date (date).toLocaleDateString ([], { month: 'short', day:
    'numeric' })] on a date string: texts of the platform's locale. *)
Variable weekdayShort : Z -> string.
Variable monthDay : string -> string.

(** The onChange handler of the Future Cost textarea, the clock showing
    [now]. *)
Definition editFutureCost (text : string) (now : Z) (st : State) : State :=
  setFutureCostNotes (<[getTodayString tzOffset dateLabel now := text]> (futureCostNotes st))
    st.

(** The value of that textarea, [futureCostNotes[getTodayString ()] || '']. *)
Definition futureCostShown (now : Z) (st : State) : string :=
  default "" (futureCostNotes st !! getTodayString tzOffset dateLabel now).

(** [velocityData]: the last seven days, today last. *)
Definition velocityData (now : Z) (entries : list ActivityEntry) : list VelocityPoint :=
  map (fun i =>
         let d := setDate now (- Z.of_nat i) in
         let dateStr := toDateString tzOffset dateLabel d in
         mkVelocityPoint (weekdayShort d)
           (default 0 (activityMap tzOffset dateLabel entries !! dateStr)))
      (rev (seq 0 7)).

(** [Object.entries (activityMap)]: the keys come in the order in which
    [forEach] made them, a date string being no array index. *)
Definition activityEntries (entries : list ActivityEntry) : list (string * Z) :=
  omap (fun dateStr => pair dateStr <$> activityMap tzOffset dateLabel entries !! dateStr)
       (distinct (map (fun e => toDateString tzOffset dateLabel (entryTimestamp e)) entries)).

(** [mostActiveDay]. *)
Definition mostActiveDay (entries : list ActivityEntry) : PeakDay :=
  foldl (fun acc dc =>
           if peakCount acc <? snd dc then mkPeakDay (monthDay (fst dc)) (snd dc)
           else acc)
        (mkPeakDay "N/A" 0) (activityEntries entries).

(** The daily summary: the logged actions of [selectedDate]. *)
Definition loggedActions (selectedDate : string) (entries : list ActivityEntry)
  : list ActivityEntry :=
  filter (fun e => toDateString tzOffset dateLabel (entryTimestamp e) = selectedDate) entries.

End Views.

(** The daily summary: the completed habits of [selectedDate]; [None] is the
    line "No habits recorded." *)
Definition completedHabits (selectedDate : string) (hist : gmap string (list string))
  : option (list string) :=
  match hist !! selectedDate with
  | Some (h :: r) => Some (h :: r)
  | _ => None
  end.

(** The daily summary: the note of [selectedDate]; [None] is the line "No
    future cost note for this day." *)
Definition noteOfDay (selectedDate : string) (notes : gmap string string)
  : option string :=
  match notes !! selectedDate with
  | Some s => if bool_decide (s = "") then None else Some s
  | None => None
  end.

(** The objective shown by the focus overlay,
    [entries[0]?.text || "Focus on the current task."]. *)
Definition currentObjective (entries : list ActivityEntry) : string :=
  match entries with
  | e :: _ => if bool_decide (entryText e = "") then "Focus on the current task."
              else entryText e
  | [] => "Focus on the current task."
  end.

(** ** What the user and the clock do *)

(** The events that change an atom of [Component], each named after the
    control that raises it.  A control that belongs to one item (a habit,
    an entry, a goal, a plan, a heatmap cell) carries the id or the date
    string of the item; here any id or date string may come with it.
    Importing a backup is not among the actions, neither are the controls
    that touch none of these atoms (the export, the spark task, the focus
    mode and the install prompt). *)
Inductive Action : Type :=
| SecondPasses                     (* the timer's interval may fire *)
| MinutePasses                     (* the interval of the midnight reset fires *)
| PressStartPause
| PressReset
| TypeEntry (text : string)
| SubmitEntry
| PressDeleteEntry (id : string)
| PressHabit (id : string)
| TypeVision (text : string)
| TypeGoalText (text : string)
| TypeGoalDeadline (text : string)
| SubmitGoal
| PressGoal (id : string)
| PressDeleteGoal (id : string)
| TypeTrigger (text : string)
| TypeAction (text : string)
| SubmitPlan
| PressPreset (idx : nat)
| PressDeletePlan (id : string)
| TypeWish (text : string)
| TypeOutcome (text : string)
| TypeObstacle (text : string)
| TypePlan (text : string)
| TypeFutureCost (text : string)
| PressTheme (idx : nat)
| PressShield
| PressReminders (granted : bool)
| OpenDay (dateStr : string)
| CloseDay.

Global Instance Action_eq_dec : EqDecision Action.
Proof. solve_decision. Defined.

Section Dispatch.

Variable tzOffset : Z.
Variable dateLabel : Z -> string.

(** The handler of an action, the clock showing [now]. *)
Definition handle (now : Z) (a : Action) (c : Component) : Component :=
  match a with
  | SecondPasses => if intervalRuns c then intervalTick c else c
  | MinutePasses => onEngine (checkReset tzOffset dateLabel now) c
  | PressStartPause => toggleTimer c
  | PressReset => resetTimer c
  | TypeEntry text => onEngine (setNewEntry text) c
  | SubmitEntry => onEngine (addEntry now) c
  | PressDeleteEntry id => onEngine (deleteEntry id) c
  | PressHabit id => onEngine (toggleHabit tzOffset dateLabel id now) c
  | TypeVision text => onEngine (setVision text) c
  | TypeGoalText text => setNewGoal (mkGoalForm text (formDeadline (newGoal c))) c
  | TypeGoalDeadline text => setNewGoal (mkGoalForm (formText (newGoal c)) text) c
  | SubmitGoal => addMiniGoal now c
  | PressGoal id => onEngine (toggleMiniGoal id) c
  | PressDeleteGoal id => onEngine (deleteMiniGoal id) c
  | TypeTrigger text => setNewIfThen (mkPlanForm text (formAction (newIfThen c))) c
  | TypeAction text => setNewIfThen (mkPlanForm (formTrigger (newIfThen c)) text) c
  | SubmitPlan => addIfThen now c
  | PressPreset idx =>
      match IF_THEN_PRESETS !! idx with
      | Some p => onEngine (applyPreset p now) c
      | None => c
      end
  | PressDeletePlan id => onEngine (deleteIfThen id) c
  | TypeWish text =>
      onEngine (fun st => setWoop (mkWOOPPlan text (outcome (woop st))
                                              (obstacle (woop st)) (plan (woop st))) st) c
  | TypeOutcome text =>
      onEngine (fun st => setWoop (mkWOOPPlan (wish (woop st)) text
                                              (obstacle (woop st)) (plan (woop st))) st) c
  | TypeObstacle text =>
      onEngine (fun st => setWoop (mkWOOPPlan (wish (woop st)) (outcome (woop st))
                                              text (plan (woop st))) st) c
  | TypePlan text =>
      onEngine (fun st => setWoop (mkWOOPPlan (wish (woop st)) (outcome (woop st))
                                              (obstacle (woop st)) text) st) c
  | TypeFutureCost text => onEngine (editFutureCost tzOffset dateLabel text now) c
  | PressTheme idx =>
      match THEMES !! idx with
      | Some t => onEngine (selectTheme t) c
      | None => c
      end
  | PressShield => setAudioShieldEnabled (negb (audioShieldEnabled c)) c
  | PressReminders granted => toggleReminders granted c
  | OpenDay dateStr => setSelectedDate (Some dateStr) c
  | CloseDay => setSelectedDate None c
  end.

(** An action and the render that follows it. *)
Definition dispatch (now : Z) (a : Action) (c : Component) : Component :=
  afterRender now c (handle now a c).

(** A session of use: actions, each with the clock reading at which it
    happens. *)
Definition run (acts : list (Z * Action)) (c : Component) : Component :=
  foldl (fun s na => dispatch (fst na) (snd na) s) c acts.

End Dispatch.

(* ===================================================================== *)
(** * Local storage *)
(* ===================================================================== *)

(** The persistence effects write the atoms under the keys of
    [STORAGE_KEYS], and the initialisers of the atoms read them back when
    the component is mounted. *)

(** [JSON.stringify (v)], with no indentation. *)
Fixpoint stringifyCompact (v : JSON.JValue) : string :=
  match v with
  | JSON.JNull => "null"
  | JSON.JBool b => if b then "true" else "false"
  | JSON.JNum m e => JSON.showNumber m e
  | JSON.JStr s => JSON.quote s
  | JSON.JArr items => "[" +:+ Text.join "," (map stringifyCompact items) +:+ "]"
  | JSON.JObj fields =>
      "{" +:+ Text.join ","
                (map (fun kv => JSON.quote (fst kv) +:+ ":" +:+ stringifyCompact (snd kv))
                     fields)
        +:+ "}"
  end.

(** The digits at the head of a text, read as a decimal number; [acc] is
    the value of the digits read so far, [None] when there is none yet. *)
Fixpoint leadingDigits (acc : option Z) (s : string) : option Z :=
  match s with
  | String c r =>
      match JSON.digitVal c with
      | Some d => leadingDigits (Some (10 * default 0 acc + d)) r
      | None => acc
      end
  | EmptyString => acc
  end.

(** [parseInt (s, 10)]: white space is skipped, a sign is read, and the
    digits that follow are the number; [None] is [NaN].  The number is
    given exactly; the platform holds the double nearest to it. *)
Definition parseInt10 (s : string) : option Z :=
  match Text.trimStart s with
  | String c r =>
      if (Text.code c =? 45)%N then Z.opp <$> leadingDigits None r
      else if (Text.code c =? 43)%N then leadingDigits None r
      else leadingDigits None (String c r)
  | EmptyString => None
  end.

(** [Boolean.prototype.toString]. *)
Definition ofBool (b : bool) : string := if b then "true" else "false".

Module Store.
Import JSON Codec.

Definition ofAnalytics (a : AnalyticsData) : JValue :=
  JObj [("timerSessions", JInt (timerSessions a));
        ("habitsCompleted", JInt (habitsCompleted a));
        ("goalsCreated", JInt (goalsCreated a));
        ("ifThenCreated", JInt (ifThenCreated a))].

(** A [Record<string, A>] as an object.  The state keeps such a record as
    a finite map, which has forgotten the order in which the keys were
    made; the object lists the keys in the order of the map. *)
Definition ofRecord {A} (enc : A -> JValue) (m : gmap string A) : JValue :=
  JObj (map (fun kv => (fst kv, enc (snd kv))) (map_to_list m)).

Definition ofStrings (l : list string) : JValue := JArr (map JStr l).

End Store.

(** What an initialiser of an atom makes of the stored text.
    - [Ready a]: the atom starts as [a].
    - [Thrown]: [JSON.parse] throws a [SyntaxError], and with it the
      initialiser and the render.
    - [Foreign]: the stored text is read, but the value is not of the type
      of the atom ([NaN] for the points, say); the typed state does not
      follow it there. *)
Inductive Init (A : Type) : Type :=
| Ready (a : A)
| Thrown
| Foreign.

Arguments Ready {A} a.
Arguments Thrown {A}.
Arguments Foreign {A}.

(** Two initialisers: a throw in either ends the render. *)
Definition both {A B} (x : Init A) (y : Init B) : Init (A * B) :=
  match x, y with
  | Thrown, _ => Thrown
  | _, Thrown => Thrown
  | Foreign, _ => Foreign
  | _, Foreign => Foreign
  | Ready a, Ready b => Ready (a, b)
  end.

(** [saved ? JSON.parse (saved) : dflt]. *)
Definition initJson {A} (dec : JSON.JValue -> option A) (dflt : A)
    (saved : option string) : Init A :=
  match saved with
  | Some text =>
      if bool_decide (text = "") then Ready dflt
      else
        match JSON.parse text with
        | Some v => match dec v with Some a => Ready a | None => Foreign end
        | None => Thrown
        end
  | None => Ready dflt
  end.

(** [saved ? parseInt (saved, 10) : 0]. *)
Definition initPoints (saved : option string) : Init Z :=
  match saved with
  | Some text =>
      if bool_decide (text = "") then Ready 0
      else match parseInt10 text with Some n => Ready n | None => Foreign end
  | None => Ready 0
  end.

(** [localStorage.getItem (key) || dflt]. *)
Definition initText (dflt : string) (saved : option string) : string :=
  match saved with
  | Some text => if bool_decide (text = "") then dflt else text
  | None => dflt
  end.

(** [localStorage.getItem (key) === 'true']. *)
Definition initFlag (saved : option string) : bool :=
  bool_decide (saved = Some "true").

(** The content of local storage. *)
Abbreviation Storage := (gmap string string).

(** Local storage once the persistence effects have run for the state [c];
    the marker of the midnight reset is there when [checkReset] has
    written it. *)
Definition storageOf (c : Component) : Storage :=
  let st := engine c in
  let marker :=
    match lastReset st with
    | Some day => <[STORAGE_KEYS.LAST_RESET := day]> ∅
    | None => ∅
    end in
  <[STORAGE_KEYS.ENTRIES :=
      stringifyCompact (JSON.JArr (map Codec.ofEntry (entries st)))]>
  (<[STORAGE_KEYS.HABITS :=
       stringifyCompact (JSON.JArr (map Codec.ofHabit (habits st)))]>
  (<[STORAGE_KEYS.VISION := vision st]>
  (<[STORAGE_KEYS.MINI_GOALS :=
       stringifyCompact (JSON.JArr (map Codec.ofMiniGoal (miniGoals st)))]>
  (<[STORAGE_KEYS.IF_THEN :=
       stringifyCompact (JSON.JArr (map Codec.ofIfThenPlan (ifThenPlans st)))]>
  (<[STORAGE_KEYS.WOOP := stringifyCompact (Codec.ofWoop (woop st))]>
  (<[STORAGE_KEYS.POINTS := Text.ofInt (points st)]>
  (<[STORAGE_KEYS.THEME := activeTheme st]>
  (<[STORAGE_KEYS.AUDIO_SHIELD := ofBool (audioShieldEnabled c)]>
  (<[STORAGE_KEYS.REMINDERS := ofBool (remindersEnabled c)]>
  (<[STORAGE_KEYS.ANALYTICS := stringifyCompact (Store.ofAnalytics (analytics st))]>
  (<[STORAGE_KEYS.HABIT_HISTORY :=
       stringifyCompact (Store.ofRecord Store.ofStrings (habitHistory st))]>
  (<[STORAGE_KEYS.FUTURE_COST_NOTES :=
       stringifyCompact (Store.ofRecord JSON.JStr (futureCostNotes st))]>
   marker)))))))))))).

(** The first theme of [THEMES], [THEMES[0].color]. *)
Definition defaultTheme : string :=
  match THEMES with t :: _ => themeColor t | [] => "" end.

(** The habits of a first run. *)
Definition defaultHabits : list Habit :=
  [ mkHabit "1" "Wake up 30m earlier" false;
    mkHabit "2" "Read 10 pages" false;
    mkHabit "3" "Meditate 5 minutes" false;
    mkHabit "4" "Gratitude journal" false ].

(** Mounting the component on a local storage: the initialisers of the
    atoms, in the order of the source. *)
Definition mount (storage : Storage) : Init Component :=
  let get k := storage !! k in
  match
    both (initJson (Codec.asList Codec.asEntry) [] (get STORAGE_KEYS.ENTRIES))
   (both (initJson (Codec.asList Codec.asHabit) defaultHabits (get STORAGE_KEYS.HABITS))
   (both (initJson (Codec.asList Codec.asMiniGoal) [] (get STORAGE_KEYS.MINI_GOALS))
   (both (initJson (Codec.asList Codec.asIfThenPlan) [] (get STORAGE_KEYS.IF_THEN))
   (both (initJson Codec.asWoop (mkWOOPPlan "" "" "" "") (get STORAGE_KEYS.WOOP))
   (both (initPoints (get STORAGE_KEYS.POINTS))
   (both (initJson (Codec.asRecord (Codec.asList Codec.asStr)) ∅
                   (get STORAGE_KEYS.HABIT_HISTORY))
   (both (initJson (Codec.asRecord Codec.asStr) ∅ (get STORAGE_KEYS.FUTURE_COST_NOTES))
         (initJson Codec.asAnalytics (mkAnalyticsData 0 0 0 0)
                   (get STORAGE_KEYS.ANALYTICS)))))))))
  with
  | Ready (es, (hs, (gs, (ps, (w, (pts, (hist, (notes, an)))))))) =>
      Ready
        (freshComponent
           {| entries := es;
              habits := hs;
              vision := initText "" (get STORAGE_KEYS.VISION);
              miniGoals := gs;
              ifThenPlans := ps;
              woop := w;
              points := pts;
              activeTheme := initText defaultTheme (get STORAGE_KEYS.THEME);
              habitHistory := hist;
              futureCostNotes := notes;
              analytics := an;
              newEntry := "";
              lastReset := get STORAGE_KEYS.LAST_RESET |}
           (initFlag (get STORAGE_KEYS.AUDIO_SHIELD))
           (initFlag (get STORAGE_KEYS.REMINDERS)))
  | Thrown => Thrown
  | Foreign => Foreign
  end.

(** Mounting, and the check of the midnight reset that the effect of the
    mounted component makes at once, the clock showing [now]. *)
Definition boot (tzOffset : Z) (dateLabel : Z -> string) (now : Z) (storage : Storage)
  : Init Component :=
  match mount storage with
  | Ready c => Ready (onEngine (checkReset tzOffset dateLabel now) c)
  | Thrown => Thrown
  | Foreign => Foreign
  end.

(** The state after a reload of the page: what local storage keeps of [c]. *)
Definition reloaded (c : Component) : Component :=
  let st := engine c in
  freshComponent
    {| entries := entries st;
       habits := habits st;
       vision := vision st;
       miniGoals := miniGoals st;
       ifThenPlans := ifThenPlans st;
       woop := woop st;
       points := points st;
       activeTheme := if bool_decide (activeTheme st = "") then defaultTheme
                      else activeTheme st;
       habitHistory := habitHistory st;
       futureCostNotes := futureCostNotes st;
       analytics := analytics st;
       newEntry := "";
       lastReset := lastReset st |}
    (audioShieldEnabled c) (remindersEnabled c).

(* ===================================================================== *)
(** * Vocabulary of the further properties *)
(* ===================================================================== *)

(** The timer between two renders: some time is left, at most the full
    duration. *)
Definition TimerAtRest (c : Component) : Prop := 1 ≤ timeLeft c ≤ TIMER_DURATION.

(** Seconds passing, one at each clock reading of [nows]. *)
Definition seconds (nows : list Z) : list (Z * Action) :=
  map (fun now => (now, SecondPasses)) nows.

(** The active theme is one that the points have unlocked. *)
Definition ThemeUnlocked (st : State) : Prop :=
  ∃ t, t ∈ THEMES ∧ themeColor t = activeTheme st ∧ unlockPoints t ≤ points st.

(** The counters of the analytics panel and the points, one by one. *)
Definition CountersLe (st st' : State) : Prop :=
  points st ≤ points st'
  ∧ timerSessions (analytics st) ≤ timerSessions (analytics st')
  ∧ habitsCompleted (analytics st) ≤ habitsCompleted (analytics st')
  ∧ goalsCreated (analytics st) ≤ goalsCreated (analytics st')
  ∧ ifThenCreated (analytics st) ≤ ifThenCreated (analytics st').

(** The white-space token at the head of a string, as [trimStart] tests for
    it: what follows the token, or [None] when the string starts with
    none. *)
Definition wsToken (s : string) : option string :=
  match s with
  | String c r =>
      if Text.isWs1 c then Some r
      else
        match r with
        | String c2 r2 =>
            if ((Text.code c =? 194) && (Text.code c2 =? 160))%N then Some r2
            else
              match r2 with
              | String c3 r3 =>
                  let a := Text.code c in
                  let b := Text.code c2 in
                  let d := Text.code c3 in
                  if (((a =? 225) && (b =? 154) && (d =? 128))
                      || ((a =? 226) && (b =? 128)
                          && (((128 <=? d) && (d <=? 138))
                              || (d =? 168) || (d =? 169) || (d =? 175)))
                      || ((a =? 226) && (b =? 129) && (d =? 159))
                      || ((a =? 227) && (b =? 128) && (d =? 128))
                      || ((a =? 239) && (b =? 187) && (d =? 191)))%N
                  then Some r3
                  else None
              | EmptyString => None
              end
        | EmptyString => None
        end
  | EmptyString => None
  end.

(** A text as the forms store it: not empty, with nothing to trim at
    either end. *)
Definition Trimmed (s : string) : Prop := s ≠ "" ∧ Text.trim s = s.

(** Every entry of the log has a trimmed text. *)
Definition LogTidy (st : State) : Prop :=
  Forall (fun e => Trimmed (entryText e)) (entries st).

(** Every mini-goal has a trimmed text, and the counter of created goals
    is not below the number of goals. *)
Definition GoalsTidy (st : State) : Prop :=
  Forall (fun g => Trimmed (goalText g)) (miniGoals st)
  ∧ Z.of_nat (length (miniGoals st)) ≤ goalsCreated (analytics st).

(** Every plan has a trimmed trigger and a trimmed action, and the counter
    of created plans is not below the number of plans. *)
Definition PlansTidy (st : State) : Prop :=
  Forall (fun p => Trimmed (planTrigger p) ∧ Trimmed (planAction p)) (ifThenPlans st)
  ∧ Z.of_nat (length (ifThenPlans st)) ≤ ifThenCreated (analytics st).

(** The habits as a list of ids and labels, the flags aside. *)
Definition habitNames (st : State) : list (string * string) :=
  map (fun h => (habitId h, habitLabel h)) (habits st).

(** The sum of the counts of a list of days with their counts. *)
Definition totalCount (l : list (string * Z)) : Z := foldr Z.add 0 (map snd l).

(** The number of entries of the log on the local calendar day [day]. *)
Definition countOnDay (tzOffset : Z) (entries : list ActivityEntry) (day : Z) : Z :=
  Z.of_nat (length (filter (fun e => localDay tzOffset (entryTimestamp e) = day) entries)).

(** The instants [now - (n - 1) days], ..., [now]. *)
Definition lastDays (n : nat) (now : Z) : list Z :=
  map (fun i => setDate now (- Z.of_nat i)) (rev (seq 0 n)).

(** The days and counts that come before the first occurrence of the
    largest count have smaller counts, and none has a larger one. *)
Definition FirstPeak (l : list (string * Z)) (dc : string * Z) : Prop :=
  ∃ l1 l2, l = l1 ++ dc :: l2
           ∧ Forall (fun x => snd x < snd dc) l1
           ∧ Forall (fun x => snd x ≤ snd dc) l2.

(** A number below one hundred in two decimal digits. *)
Definition twoDigits (n : Z) : string :=
  String (pretty_N_char (Z.to_N (n `div` 10)))
    (String (pretty_N_char (Z.to_N (n `mod` 10))) "").

(** Reading the compact text of [v], wherever a value may start and
    whatever follows, completes [v]. *)
Definition ReadsBackCompact (v : JSON.JValue) : Prop :=
  forall ex stack r,
    JSON.ValueSlot ex -> JSON.delimited r = true ->
    JSON.scan JSON.LTop ex stack (stringifyCompact v +:+ r) =
    match JSON.complete v stack with
    | Some (ex', stack') => JSON.scan JSON.LTop ex' stack' r
    | None => None
    end.

(** What [stringifyCompact] writes for a property. *)
Definition fieldCompact (kv : string * JSON.JValue) : string :=
  JSON.quote (fst kv) +:+ ":" +:+ stringifyCompact (snd kv).

(** Every string that the persistence effects serialise is plain text:
    those of the exported atoms, and the days, labels and notes of the two
    records. *)
Definition StoredPlain (st : State) : Prop :=
  PlainState st
  ∧ map_Forall (fun day labels =>
                  JSON.plainText day = true
                  ∧ Forall (fun l => JSON.plainText l = true) labels)
               (habitHistory st)
  ∧ map_Forall (fun day note => JSON.plainText day = true ∧ JSON.plainText note = true)
               (futureCostNotes st).

(** Every number that the persistence effects serialise is a safe
    integer. *)
Definition StoredSafe (st : State) : Prop :=
  SafeState st
  ∧ SafeInteger (timerSessions (analytics st))
  ∧ SafeInteger (habitsCompleted (analytics st))
  ∧ SafeInteger (goalsCreated (analytics st))
  ∧ SafeInteger (ifThenCreated (analytics st)).

(** The keys whose text the initialisers hand to [JSON.parse]. *)
Definition jsonKeys : list string :=
  [ STORAGE_KEYS.ENTRIES; STORAGE_KEYS.HABITS; STORAGE_KEYS.MINI_GOALS;
    STORAGE_KEYS.IF_THEN; STORAGE_KEYS.WOOP; STORAGE_KEYS.HABIT_HISTORY;
    STORAGE_KEYS.FUTURE_COST_NOTES; STORAGE_KEYS.ANALYTICS ].

(** The component of a first run, with the marker of the midnight reset
    that local storage holds. *)
Definition firstRun (marker : option string) : Component :=
  freshComponent
    {| entries := [];
       habits := defaultHabits;
       vision := "";
       miniGoals := [];
       ifThenPlans := [];
       woop := mkWOOPPlan "" "" "" "";
       points := 0;
       activeTheme := defaultTheme;
       habitHistory := ∅;
       futureCostNotes := ∅;
       analytics := mkAnalyticsData 0 0 0 0;
       newEntry := "";
       lastReset := marker |}
    false false.

(** The keys that the initialisers read, the marker aside. *)
Definition atomKeys : list string :=
  [ STORAGE_KEYS.ENTRIES; STORAGE_KEYS.HABITS; STORAGE_KEYS.VISION;
    STORAGE_KEYS.MINI_GOALS; STORAGE_KEYS.IF_THEN; STORAGE_KEYS.WOOP;
    STORAGE_KEYS.POINTS; STORAGE_KEYS.THEME; STORAGE_KEYS.AUDIO_SHIELD;
    STORAGE_KEYS.REMINDERS; STORAGE_KEYS.HABIT_HISTORY;
    STORAGE_KEYS.FUTURE_COST_NOTES; STORAGE_KEYS.ANALYTICS ].

(** A component in use: an entry and a goal are made, the timer runs and
    the reset check of the day is done. *)
Definition usedComponent : Component :=
  run 0 pretty
    [(1767225600000, TypeEntry " ran 5k "); (1767225600001, SubmitEntry);
     (1767225600002, TypeGoalText "save 100"); (1767225600003, SubmitGoal);
     (1767225600004, PressStartPause); (1767225600005, MinutePasses)]
    initialComponent.

(* ===================================================================== *)
(** * Properties *)
(* ===================================================================== *)

(** ** [JSON.parse] undoes [JSON.stringify] *)

Module JSONFacts.
Import JSON.

Lemma append_assoc (a b c : string) : (a +:+ b) +:+ c = a +:+ (b +:+ c).
Proof.
  induction a as [|x a IH]; [reflexivity|].
  change (String x ((a +:+ b) +:+ c) = String x (a +:+ (b +:+ c))). by rewrite IH.
Qed.

Lemma append_cons x a b : String x a +:+ b = String x (a +:+ b).
Proof. reflexivity. Qed.

Lemma append_nil_l b : "" +:+ b = b.
Proof. reflexivity. Qed.

Lemma scan_cons md ex stack c r :
  scan md ex stack (String c r) =
  match lexStep md c with
  | Some (ts, md') =>
      match feed ex stack ts with
      | Some (ex', stack') => scan md' ex' stack' r
      | None => None
      end
  | None => None
  end.
Proof. reflexivity. Qed.

(** A character that completes no token. *)
Lemma scan_quiet md md' ex stack c r :
  lexStep md c = Some ([], md') → scan md ex stack (String c r) = scan md' ex stack r.
Proof. intros H. rewrite scan_cons, H. reflexivity. Qed.

Lemma scan_token md md' t ex stack c r :
  lexStep md c = Some ([t], md') →
  scan md ex stack (String c r) =
  match parseStep ex stack t with
  | Some (ex', stack') => scan md' ex' stack' r
  | None => None
  end.
Proof.
  intros H. rewrite scan_cons, H. simpl. by destruct (parseStep ex stack t) as [[? ?]|].
Qed.

Lemma scan_blank ind ex stack r :
  blank ind = true → scan LTop ex stack (ind +:+ r) = scan LTop ex stack r.
Proof.
  induction ind as [|c ind IH]; intros Hb; [reflexivity|].
  simpl in Hb. apply andb_prop in Hb as [Hc Hb].
  rewrite append_cons, (scan_quiet LTop LTop); [by apply IH|].
  simpl. unfold lexTop. by rewrite Hc.
Qed.

Lemma blank_indent ind : blank ind = true → blank (ind +:+ "  ") = true.
Proof.
  induction ind as [|c ind IH]; intros Hb; [reflexivity|].
  simpl in Hb. apply andb_prop in Hb as [Hc Hb].
  rewrite append_cons. simpl. rewrite Hc. by apply IH.
Qed.

(** ** Strings *)

Lemma escape_plain c r :
  plainText (String c r) = true → escape (String c r) = escapeChar c +:+ escape r.
Proof.
  simpl. destruct r as [|c2 [|c3 r3]]; try reflexivity.
  intros [Hn _]%andb_prop. apply negb_true_iff in Hn. by rewrite Hn.
Qed.

Lemma plainText_tail c r : plainText (String c r) = true → plainText r = true.
Proof.
  simpl. destruct r as [|c2 [|c3 r3]]; try done. by intros [_ ?]%andb_prop.
Qed.

Lemma scan_escapeChar c acc ex stack r :
  scan (LStr acc None) ex stack (escapeChar c +:+ r) = scan (LStr (c :: acc) None) ex stack r.
Proof. destruct c as [[] [] [] [] [] [] [] []]; reflexivity. Qed.

Lemma scan_escape s : ∀ acc ex stack r,
  plainText s = true →
  scan (LStr acc None) ex stack (escape s +:+ r)
  = scan (LStr (rev (chars s) ++ acc) None) ex stack r.
Proof.
  induction s as [|c s IH]; intros acc ex stack r Hp; [reflexivity|].
  rewrite (escape_plain _ _ Hp), append_assoc, scan_escapeChar.
  rewrite IH by (by eapply plainText_tail).
  unfold chars. simpl. by rewrite <- app_assoc.
Qed.

Lemma stringOfRev_chars s : stringOfRev (rev (chars s) ++ []) = s.
Proof.
  unfold stringOfRev, chars. rewrite app_nil_r, rev_involutive.
  apply String.string_of_list_ascii_of_string.
Qed.

(** A quoted string is read back as one string token. *)
Lemma scan_quote s ex stack r :
  plainText s = true →
  scan LTop ex stack (quote s +:+ r) =
  match parseStep ex stack (TString s) with
  | Some (ex', stack') => scan LTop ex' stack' r
  | None => None
  end.
Proof.
  intros Hp. unfold quote. rewrite append_cons, append_assoc, append_cons.
  rewrite (scan_quiet LTop (LStr [] None)) by reflexivity.
  rewrite (scan_escape s [] ex stack _ Hp).
  rewrite (scan_token _ LTop (TString s)); [reflexivity|].
  simpl. unfold flushHi. by rewrite stringOfRev_chars.
Qed.

(** ** Numbers *)

Lemma digitVal_pretty d :
  (d < 10)%N → digitVal (pretty_N_char d) = Some (Z.of_N d).
Proof.
  intros Hd.
  assert (d = 0 ∨ d = 1 ∨ d = 2 ∨ d = 3 ∨ d = 4 ∨ d = 5 ∨ d = 6 ∨ d = 7
          ∨ d = 8 ∨ d = 9)%N as Hcases by lia.
  repeat (destruct Hcases as [->|Hcases]; [reflexivity|]). by subst.
Qed.

Lemma scan_digit neg m d ex stack r :
  (d < 10)%N →
  scan (LNum (intAcc neg m)) ex stack (String (pretty_N_char d) r)
  = scan (LNum (intAcc neg (10 * m + Z.of_N d))) ex stack r.
Proof.
  intros Hd. apply scan_quiet. simpl. unfold lexNum. simpl.
  by rewrite (digitVal_pretty d Hd).
Qed.

Lemma pretty_N_go_app x : ∀ s r, pretty_N_go x s +:+ r = pretty_N_go x (s +:+ r).
Proof.
  induction (N.lt_wf_0 x) as [x _ IH]; intros s r.
  destruct (decide (x = 0)%N) as [->|Hx]; [by rewrite !pretty_N_go_0|].
  rewrite (pretty_N_go_step x s), (pretty_N_go_step x (s +:+ r)) by lia.
  rewrite IH by (apply N.div_lt; lia). reflexivity.
Qed.

(** The digits of a positive number, read from a state [start] that turns a
    first digit into the integer phase. *)
Lemma scan_pretty_N_go (start : LexMode) (neg : bool) :
  (∀ d r ex stack, (1 ≤ d < 10)%N →
     scan start ex stack (String (pretty_N_char d) r)
     = scan (LNum (intAcc neg (Z.of_N d))) ex stack r) →
  ∀ x r ex stack, (0 < x)%N →
    scan start ex stack (pretty_N_go x r)
    = scan (LNum (intAcc neg (Z.of_N x))) ex stack r.
Proof.
  intros Hstart x. induction (N.lt_wf_0 x) as [x _ IH]; intros r ex stack Hx.
  rewrite pretty_N_go_step by done.
  destruct (decide (x < 10)%N) as [Hsmall|Hbig].
  - rewrite N.div_small, N.mod_small, pretty_N_go_0 by done.
    apply Hstart. lia.
  - rewrite IH; [|apply N.div_lt; lia|apply N.div_str_pos; lia].
    rewrite scan_digit by (apply N.mod_lt; lia).
    do 3 f_equal. pose proof (N.div_mod x 10). lia.
Qed.

Lemma scan_first_digit_top d r ex stack :
  (1 ≤ d < 10)%N →
  scan LTop ex stack (String (pretty_N_char d) r)
  = scan (LNum (intAcc false (Z.of_N d))) ex stack r.
Proof.
  intros Hd.
  assert (d = 1 ∨ d = 2 ∨ d = 3 ∨ d = 4 ∨ d = 5 ∨ d = 6 ∨ d = 7
          ∨ d = 8 ∨ d = 9)%N as Hcases by lia.
  repeat (destruct Hcases as [->|Hcases]; [reflexivity|]). by subst.
Qed.

Lemma scan_first_digit_sign d r ex stack :
  (1 ≤ d < 10)%N →
  scan (LNum (mkNumAcc NSign true 0 0 false 0)) ex stack (String (pretty_N_char d) r)
  = scan (LNum (intAcc true (Z.of_N d))) ex stack r.
Proof.
  intros Hd.
  assert (d = 1 ∨ d = 2 ∨ d = 3 ∨ d = 4 ∨ d = 5 ∨ d = 6 ∨ d = 7
          ∨ d = 8 ∨ d = 9)%N as Hcases by lia.
  repeat (destruct Hcases as [->|Hcases]; [reflexivity|]). by subst.
Qed.

(** A number in the zero or the integer phase ends at a delimiter, or at the
    end of the text. *)
Lemma scan_number_end a t ex stack r :
  numToken a = Some t → nPhase a = NZero ∨ nPhase a = NInt →
  delimited r = true →
  scan (LNum a) ex stack r =
  match parseStep ex stack t with
  | Some (ex', stack') => scan LTop ex' stack' r
  | None => None
  end.
Proof.
  intros Ht Hph Hd. destruct r as [|c r].
  - simpl. rewrite Ht. simpl. by destruct (parseStep ex stack t) as [[? ?]|].
  - simpl in Hd. unfold delimChar in Hd.
    destruct (digitVal c) eqn:Hdig; [discriminate|].
    apply negb_true_iff in Hd.
    apply orb_false_elim in Hd as [Hd HE]. apply orb_false_elim in Hd as [Hdot He].
    assert (lexStep (LNum a) c =
            match lexTop c with
            | Some (ts, md) => Some (t :: ts, md)
            | None => None
            end) as Hstep.
    { simpl. unfold lexNum. rewrite Ht, Hdig, Hdot, He, HE.
      destruct Hph as [-> | ->]; reflexivity. }
    rewrite scan_cons, Hstep.
    destruct (parseStep ex stack t) as [[ex' stack']|] eqn:Hps.
    + rewrite scan_cons. change (lexStep LTop c) with (lexTop c).
      destruct (lexTop c) as [[ts md]|]; [|reflexivity].
      simpl. by rewrite Hps.
    + destruct (lexTop c) as [[ts md]|]; [|reflexivity].
      simpl. by rewrite Hps.
Qed.

(** An integer is read back as one number token. *)
Lemma scan_int z ex stack r :
  delimited r = true →
  scan LTop ex stack (Text.ofInt z +:+ r) =
  match parseStep ex stack (TNumber z 0) with
  | Some (ex', stack') => scan LTop ex' stack' r
  | None => None
  end.
Proof.
  intros Hd. unfold Text.ofInt. destruct z as [|p|p].
  - change (pretty 0 +:+ r) with (String "0" r).
    rewrite (scan_quiet LTop (LNum (mkNumAcc NZero false 0 0 false 0))) by reflexivity.
    apply scan_number_end; [reflexivity|by left|done].
  - change (pretty (Z.pos p)) with (pretty_N_go (N.pos p) "").
    rewrite pretty_N_go_app.
    rewrite (scan_pretty_N_go LTop false scan_first_digit_top) by done.
    apply scan_number_end; [reflexivity|by right|done].
  - change (pretty (Z.neg p)) with ("-" +:+ pretty_N_go (N.pos p) "").
    rewrite append_assoc, pretty_N_go_app. rewrite append_cons.
    rewrite (scan_quiet LTop (LNum (mkNumAcc NSign true 0 0 false 0))) by reflexivity.
    change ("" +:+ pretty_N_go (N.pos p) ("" +:+ r)) with (pretty_N_go (N.pos p) r).
    rewrite (scan_pretty_N_go _ true scan_first_digit_sign) by done.
    apply scan_number_end; [reflexivity|by right|done].
Qed.

(** ** Values *)

(** Induction on a value, with the property at hand for the elements of an
    array and the values of an object. *)
Lemma JValue_nested_ind (P : JValue -> Prop) :
  P JNull → (∀ b, P (JBool b)) → (∀ m e, P (JNum m e)) → (∀ s, P (JStr s)) →
  (∀ items, Forall P items → P (JArr items)) →
  (∀ fields, Forall (fun kv => P (snd kv)) fields → P (JObj fields)) →
  ∀ v, P v.
Proof.
  intros Hnull Hbool Hnum Hstr Harr Hobj. fix IH 1. intros [ |b|m e|s|items|fields].
  - exact Hnull.
  - apply Hbool.
  - apply Hnum.
  - apply Hstr.
  - apply Harr. induction items as [|x items IHitems]; constructor; [apply IH|exact IHitems].
  - apply Hobj. induction fields as [|[k x] fields IHfields]; constructor;
      [apply IH|exact IHfields].
Qed.

Lemma append_nil_r (s : string) : s +:+ "" = s.
Proof.
  induction s as [|c s IH]; [reflexivity|]. rewrite append_cons. by rewrite IH.
Qed.

Ltac norm_app :=
  repeat first [rewrite append_assoc | rewrite append_cons | rewrite append_nil_l].

Lemma scan_separator ind' ex stack r :
  blank ind' = true →
  scan LTop ex stack (separator ind' +:+ r) =
  match parseStep ex stack TComma with
  | Some (ex', stack') => scan LTop ex' stack' r
  | None => None
  end.
Proof.
  intros Hb. unfold separator, newline. norm_app.
  rewrite (scan_token LTop LTop TComma) by reflexivity.
  destruct (parseStep ex stack TComma) as [[ex' stack']|]; [|reflexivity].
  rewrite (scan_quiet LTop LTop) by reflexivity. by apply scan_blank.
Qed.

(** The line break and indentation before an element or a closing bracket. *)
Lemma scan_newline ind ex stack r :
  blank ind = true →
  scan LTop ex stack (newline +:+ ind +:+ r) = scan LTop ex stack r.
Proof.
  intros Hb. unfold newline. norm_app.
  rewrite (scan_quiet LTop LTop) by reflexivity. by apply scan_blank.
Qed.

Lemma scan_elements ind' : ∀ xs x acc up ex r,
  blank ind' = true → ValueSlot ex →
  Forall ReadsBack (x :: xs) →
  scan LTop ex (FArr acc :: up)
    (Text.join (separator ind') (map (stringifyAt ind') (x :: xs)) +:+ newline +:+ r)
  = scan LTop EAfter (FArr (rev (x :: xs) ++ acc) :: up) (newline +:+ r).
Proof.
  induction xs as [|y ys IH]; intros x acc up ex r Hb Hex Hall;
    apply Forall_cons in Hall as [Hx Hall].
  - simpl Text.join. rewrite (Hx ind' ex _ _ Hb Hex) by reflexivity. reflexivity.
  - change (Text.join (separator ind') (map (stringifyAt ind') (x :: y :: ys)))
      with (stringifyAt ind' x +:+ separator ind'
            +:+ Text.join (separator ind') (map (stringifyAt ind') (y :: ys))).
    rewrite !append_assoc.
    rewrite (Hx ind' ex _ _ Hb Hex) by reflexivity.
    cbn [complete]. rewrite (scan_separator ind' _ _ _ Hb). cbn [parseStep].
    rewrite (IH y (x :: acc) up EValue r Hb (or_introl eq_refl) Hall).
    do 3 f_equal. simpl. by rewrite <- !app_assoc.
Qed.

Lemma setProp_fresh k v acc :
  k ∉ map fst acc → setProp k v acc = acc ++ [(k, v)].
Proof.
  induction acc as [|[k' v'] acc IH]; intros Hn; [reflexivity|].
  simpl in *. apply not_elem_of_cons in Hn as [Hne Hn].
  rewrite bool_decide_eq_false_2 by congruence.
  rewrite IH by done. reflexivity.
Qed.

Lemma scan_fields ind' : ∀ fs kv acc up ex r,
  blank ind' = true → KeySlot ex →
  Forall (fun kv => plainText (fst kv) = true ∧ ReadsBack (snd kv)) (kv :: fs) →
  NoDup (map fst acc ++ map fst (kv :: fs)) →
  scan LTop ex (FObj acc :: up)
    (Text.join (separator ind') (map (fieldText ind') (kv :: fs)) +:+ newline +:+ r)
  = scan LTop EAfter (FObj (acc ++ kv :: fs) :: up) (newline +:+ r).
Proof.
  assert (∀ kv acc up ex r,
    blank ind' = true → KeySlot ex → plainText (fst kv) = true → ReadsBack (snd kv) →
    fst kv ∉ map fst acc → delimited r = true →
    scan LTop ex (FObj acc :: up) (fieldText ind' kv +:+ r)
    = scan LTop EAfter (FObj (acc ++ [kv]) :: up) r) as Hfield.
  { intros [k v] acc up ex r Hb Hex Hk Hv Hfresh Hd. unfold fieldText. simpl fst. simpl snd.
    rewrite !append_assoc. rewrite (scan_quote k _ _ _ Hk).
    assert (parseStep ex (FObj acc :: up) (TString k) = Some (EColon, FObjK acc k :: up)) as ->
      by (destruct Hex as [-> | ->]; reflexivity).
    norm_app.
    rewrite (scan_token LTop LTop TColon) by reflexivity. cbn [parseStep].
    rewrite (scan_quiet LTop LTop) by reflexivity.
    rewrite (Hv ind' EValue _ _ Hb (or_introl eq_refl) Hd). cbn [complete].
    by rewrite (setProp_fresh _ _ _ Hfresh). }
  induction fs as [|kv' fs IH]; intros kv acc up ex r Hb Hex Hall Hnd;
    apply Forall_cons in Hall as [[Hk Hv] Hall].
  - simpl Text.join. apply Hfield; try done.
    simpl in Hnd. apply NoDup_app in Hnd as (_ & Hnd & _).
    intros Hin. apply (Hnd _ Hin). by left.
  - change (Text.join (separator ind') (map (fieldText ind') (kv :: kv' :: fs)))
      with (fieldText ind' kv +:+ separator ind'
            +:+ Text.join (separator ind') (map (fieldText ind') (kv' :: fs))).
    rewrite !append_assoc.
    rewrite (Hfield kv acc up ex _ Hb Hex Hk Hv); [| |reflexivity].
    2:{ simpl in Hnd. apply NoDup_app in Hnd as (_ & Hnd & _).
        intros Hin. apply (Hnd _ Hin). by left. }
    rewrite (scan_separator ind' _ _ _ Hb). cbn [parseStep].
    rewrite (IH kv' (acc ++ [kv]) up EObjKey r Hb (or_intror eq_refl) Hall).
    + by rewrite <- app_assoc.
    + rewrite map_app, <- app_assoc. exact Hnd.
Qed.

Lemma parseStep_open_array ex stack :
  ValueSlot ex → parseStep ex stack TLBracket = Some (EArrFirst, FArr [] :: stack).
Proof. by intros [-> | ->]. Qed.

Lemma parseStep_open_object ex stack :
  ValueSlot ex → parseStep ex stack TLBrace = Some (EObjFirst, FObj [] :: stack).
Proof. by intros [-> | ->]. Qed.

(** Every printable value is read back from its text. *)
Lemma Printable_ReadsBack v : Printable v → ReadsBack v.
Proof.
  induction v as [ |b|m e|s|items IH|fields IH] using JValue_nested_ind;
    intros Hp ind ex stack r Hb Hex Hd.
  - change (stringifyAt ind JNull) with "null". norm_app.
    rewrite (scan_quiet LTop (LLit "ull" TNull)) by reflexivity.
    rewrite (scan_quiet _ (LLit "ll" TNull)) by reflexivity.
    rewrite (scan_quiet _ (LLit "l" TNull)) by reflexivity.
    rewrite (scan_token _ LTop TNull) by reflexivity.
    by destruct Hex as [-> | ->].
  - destruct b.
    + change (stringifyAt ind (JBool true)) with "true". norm_app.
      rewrite (scan_quiet LTop (LLit "rue" TTrue)) by reflexivity.
      rewrite (scan_quiet _ (LLit "ue" TTrue)) by reflexivity.
      rewrite (scan_quiet _ (LLit "e" TTrue)) by reflexivity.
      rewrite (scan_token _ LTop TTrue) by reflexivity.
      by destruct Hex as [-> | ->].
    + change (stringifyAt ind (JBool false)) with "false". norm_app.
      rewrite (scan_quiet LTop (LLit "alse" TFalse)) by reflexivity.
      rewrite (scan_quiet _ (LLit "lse" TFalse)) by reflexivity.
      rewrite (scan_quiet _ (LLit "se" TFalse)) by reflexivity.
      rewrite (scan_quiet _ (LLit "e" TFalse)) by reflexivity.
      rewrite (scan_token _ LTop TFalse) by reflexivity.
      by destruct Hex as [-> | ->].
  - inversion Hp; subst.
    change (stringifyAt ind (JNum m 0)) with (Text.ofInt (m * 10 ^ 0)).
    rewrite Z.pow_0_r, Z.mul_1_r, (scan_int m _ _ _ Hd).
    by destruct Hex as [-> | ->].
  - inversion Hp; subst. change (stringifyAt ind (JStr s)) with (quote s).
    rewrite scan_quote by done. by destruct Hex as [-> | ->].
  - inversion Hp as [ | | | |? Hitems| ]; subst.
    destruct items as [|x xs].
    + change (stringifyAt ind (JArr [])) with "[]". norm_app.
      rewrite (scan_token LTop LTop TLBracket) by reflexivity.
      rewrite (parseStep_open_array _ _ Hex).
      rewrite (scan_token LTop LTop TRBracket) by reflexivity. reflexivity.
    + change (stringifyAt ind (JArr (x :: xs)))
        with ("[" +:+ newline +:+ (ind +:+ "  ")
              +:+ Text.join (separator (ind +:+ "  "))
                    (map (stringifyAt (ind +:+ "  ")) (x :: xs))
              +:+ newline +:+ ind +:+ "]").
      pose proof (blank_indent _ Hb) as Hb'.
      generalize dependent (ind +:+ "  "). intros ind' Hb'.
      rewrite append_assoc, append_cons, append_nil_l.
      rewrite (scan_token LTop LTop TLBracket) by reflexivity.
      rewrite (parseStep_open_array _ _ Hex).
      rewrite !append_assoc.
      rewrite (scan_newline _ _ _ _ Hb').
      rewrite (scan_elements _ xs x [] stack EArrFirst _ Hb' (or_intror eq_refl)).
      2:{ apply Forall_forall. intros y Hy.
          rewrite Forall_forall in IH, Hitems. apply IH; [done|by apply Hitems]. }
      rewrite (scan_newline _ _ _ _ Hb). norm_app.
      rewrite (scan_token LTop LTop TRBracket) by reflexivity.
      cbn [parseStep]. by rewrite app_nil_r, rev_involutive.
  - inversion Hp as [ | | | | |? Hnd Hfields]; subst.
    destruct fields as [|kv fs].
    + change (stringifyAt ind (JObj [])) with "{}". norm_app.
      rewrite (scan_token LTop LTop TLBrace) by reflexivity.
      rewrite (parseStep_open_object _ _ Hex).
      rewrite (scan_token LTop LTop TRBrace) by reflexivity. reflexivity.
    + change (stringifyAt ind (JObj (kv :: fs)))
        with ("{" +:+ newline +:+ (ind +:+ "  ")
              +:+ Text.join (separator (ind +:+ "  "))
                    (map (fieldText (ind +:+ "  ")) (kv :: fs))
              +:+ newline +:+ ind +:+ "}").
      pose proof (blank_indent _ Hb) as Hb'.
      generalize dependent (ind +:+ "  "). intros ind' Hb'.
      rewrite append_assoc, append_cons, append_nil_l.
      rewrite (scan_token LTop LTop TLBrace) by reflexivity.
      rewrite (parseStep_open_object _ _ Hex).
      rewrite !append_assoc.
      rewrite (scan_newline _ _ _ _ Hb').
      rewrite (scan_fields _ fs kv [] stack EObjFirst _ Hb' (or_introl eq_refl)).
      2:{ apply Forall_forall. intros y Hy.
          rewrite Forall_forall in IH, Hfields.
          destruct (Hfields _ Hy). split; [done|]. by apply IH. }
      2:{ exact Hnd. }
      rewrite (scan_newline _ _ _ _ Hb). norm_app.
      rewrite (scan_token LTop LTop TRBrace) by reflexivity.
      reflexivity.
Qed.

(** [JSON.parse] undoes [JSON.stringify] on printable values. *)
Theorem parse_stringify v : Printable v → parse (stringify v) = Some v.
Proof.
  intros Hp. unfold parse, stringify.
  rewrite <- (append_nil_r (stringifyAt "" v)).
  rewrite (Printable_ReadsBack v Hp "" EValue [] "") by (reflexivity || by left).
  reflexivity.
Qed.

End JSONFacts.

(** ** Heatmap tiers *)

Lemma heatmapClasses_tier (count : Z) :
  0 ≤ count → legendTier (heatmapClasses count).1 = Some (specTier count).
Proof.
  intros Hc. unfold heatmapClasses, specTier.
  repeat (case_match; simpl; try reflexivity; try lia).
Qed.


(** ** Midnight reset *)

Section ResetFacts.
Variables (tzOffset : Z) (dateLabel : Z -> string).
Abbreviation checkReset := (checkReset tzOffset dateLabel).
Abbreviation getTodayString := (getTodayString tzOffset dateLabel).

(** A check that finds another day in the marker clears every flag and
    writes today. *)
Lemma checkReset_new_day now st :
  lastReset st ≠ Some (getTodayString now) →
  Forall (fun h => habitCompleted h = false) (habits (checkReset now st))
  ∧ lastReset (checkReset now st) = Some (getTodayString now).
Proof.
  intros Hne. unfold checkReset. rewrite bool_decide_eq_true_2 by done.
  split; [|reflexivity]. simpl. apply List.Forall_forall. intros h Hh.
  apply in_map_iff in Hh as (h' & <- & _). reflexivity.
Qed.

(** After a check the marker names the day of the check. *)
Lemma checkReset_marker now st :
  lastReset (checkReset now st) = Some (getTodayString now).
Proof.
  unfold checkReset. case_bool_decide as Hd; [reflexivity|].
  destruct (decide (lastReset st = Some (getTodayString now))); [done|].
  contradiction.
Qed.

(** A check that finds today in the marker does nothing. *)
Lemma checkReset_same_day now st :
  lastReset st = Some (getTodayString now) → checkReset now st = st.
Proof.
  intros Heq. unfold checkReset. rewrite bool_decide_eq_false_2; [done|].
  intros Hne. by apply Hne.
Qed.
End ResetFacts.

(** C4. The daily rollover is idempotent: once the check has run on a day,
    a second check on the same calendar day changes nothing, neither a
    habit's completed flag nor the last-reset-day marker. *)
Theorem checkReset_idempotent (tzOffset : Z) (dateLabel : Z -> string)
    (now1 now2 : Z) (st : State) :
  getTodayString tzOffset dateLabel now2 = getTodayString tzOffset dateLabel now1 →
  let st1 := checkReset tzOffset dateLabel now1 st in
  let st2 := checkReset tzOffset dateLabel now2 st1 in
  st2 = st1
  ∧ map habitCompleted (habits st2) = map habitCompleted (habits st1)
  ∧ lastReset st2 = lastReset st1.
Proof.
  intros Hday st1 st2.
  assert (st2 = st1) as ->; [|done].
  subst st1 st2. apply checkReset_same_day.
  rewrite Hday. apply checkReset_marker.
Qed.

Lemma checkReset_idempotent_witness :
  let st1 := checkReset 0 pretty 1767225600000 initialState in
  let st2 := checkReset 0 pretty 1767225660000 st1 in
  getTodayString 0 pretty 1767225660000 = getTodayString 0 pretty 1767225600000
  ∧ st2 = st1
  ∧ map habitCompleted (habits st2) = map habitCompleted (habits st1)
  ∧ lastReset st2 = lastReset st1.
Proof.
  split; [reflexivity|].
  apply (checkReset_idempotent 0 pretty 1767225600000 1767225660000 initialState).
  reflexivity.
Defined.


(** ** Restoring a backup *)

Lemma importField_absent {A} f k (dec : JSON.JValue -> option A) set st :
  JSON.truthyProp f k = false → importField f k dec set st = Some st.
Proof.
  unfold JSON.truthyProp, importField. destruct (JSON.prop f k) as [v|]; [|done].
  by intros ->.
Qed.

Lemma importField_present {A} f k v (dec : JSON.JValue -> option A) set st :
  JSON.prop f k = Some v → JSON.truthy v = true →
  importField f k dec set st = (a ← dec v; Some (set a st)).
Proof. unfold importField. by intros -> ->. Qed.

Lemma importField_preserves {A B} (proj : State -> B) f k
    (dec : JSON.JValue -> option A) set st st' :
  Preserves proj set → importField f k dec set st = Some st' → proj st' = proj st.
Proof.
  intros Hp. unfold importField.
  destruct (JSON.prop f k) as [v|]; [|by intros [= <-]].
  destruct (JSON.truthy v); [|by intros [= <-]].
  destruct (dec v) as [a|]; simpl; [|done]. intros [= <-]. apply Hp.
Qed.

(** The steps of [importFields], one state after the other. *)
Lemma importFields_steps f st st' :
  importFields f st = Some st' →
  ∃ s1 s2 s3 s4 s5 s6 s7 s8 s9 s10,
    importField f "entries" (Codec.asList Codec.asEntry) setEntries st = Some s1
    ∧ importField f "habits" (Codec.asList Codec.asHabit) setHabits s1 = Some s2
    ∧ importField f "vision" Codec.asStr setVision s2 = Some s3
    ∧ importField f "miniGoals" (Codec.asList Codec.asMiniGoal) setMiniGoals s3 = Some s4
    ∧ importField f "ifThenPlans" (Codec.asList Codec.asIfThenPlan) setIfThenPlans s4
        = Some s5
    ∧ importField f "woop" Codec.asWoop setWoop s5 = Some s6
    ∧ importField f "points" Codec.asInt setPoints s6 = Some s7
    ∧ importField f "activeTheme" Codec.asStr setActiveTheme s7 = Some s8
    ∧ importField f "habitHistory" (Codec.asRecord (Codec.asList Codec.asStr))
        setHabitHistory s8 = Some s9
    ∧ importField f "futureCostNotes" (Codec.asRecord Codec.asStr)
        setFutureCostNotes s9 = Some s10
    ∧ importField f "analytics" Codec.asAnalytics setAnalytics s10 = Some st'.
Proof.
  unfold importFields. intros H.
  repeat match type of H with
         | (mbind _ ?m = Some _) =>
             let s := fresh "s" in
             destruct m as [s|] eqn:?; simpl in H; [|discriminate]
         end.
  do 10 eexists.
  repeat (split; [first [reflexivity | eassumption]|]).
  first [reflexivity | eassumption].
Qed.


Local Ltac preserved H proj :=
  apply (importField_preserves proj) in H; [|intros ? ?; reflexivity].

Local Ltac skipped H Hf :=
  rewrite (importField_absent _ _ _ _ _ Hf) in H; injection H as <-.

Lemma importFields_points_skipped f st st' :
  importFields f st = Some st' → JSON.truthyProp f "points" = false →
  points st' = points st.
Proof.
  intros H Hf.
  apply importFields_steps in H
    as (s1&s2&s3&s4&s5&s6&s7&s8&s9&s10&H1&H2&H3&H4&H5&H6&H7&H8&H9&H10&H11).
  skipped H7 Hf.
  preserved H1 points. preserved H2 points. preserved H3 points.
  preserved H4 points. preserved H5 points. preserved H6 points.
  preserved H8 points. preserved H9 points. preserved H10 points.
  preserved H11 points. congruence.
Qed.

Lemma importFields_vision_skipped f st st' :
  importFields f st = Some st' → JSON.truthyProp f "vision" = false →
  vision st' = vision st.
Proof.
  intros H Hf.
  apply importFields_steps in H
    as (s1&s2&s3&s4&s5&s6&s7&s8&s9&s10&H1&H2&H3&H4&H5&H6&H7&H8&H9&H10&H11).
  skipped H3 Hf.
  preserved H1 vision. preserved H2 vision. preserved H4 vision.
  preserved H5 vision. preserved H6 vision. preserved H7 vision.
  preserved H8 vision. preserved H9 vision. preserved H10 vision.
  preserved H11 vision. congruence.
Qed.

(** A truthy value under [entries] replaces the log. *)
Lemma importFields_entries_replaced f v es st st' :
  importFields f st = Some st' → JSON.prop f "entries" = Some v →
  JSON.truthy v = true → Codec.asList Codec.asEntry v = Some es →
  entries st' = es.
Proof.
  intros H Hp Ht Hd.
  apply importFields_steps in H
    as (s1&s2&s3&s4&s5&s6&s7&s8&s9&s10&H1&H2&H3&H4&H5&H6&H7&H8&H9&H10&H11).
  rewrite (importField_present _ _ _ _ _ _ Hp Ht), Hd in H1. injection H1 as <-.
  preserved H2 entries. preserved H3 entries. preserved H4 entries.
  preserved H5 entries. preserved H6 entries. preserved H7 entries.
  preserved H8 entries. preserved H9 entries. preserved H10 entries.
  preserved H11 entries. simpl in *. congruence.
Qed.

(** A document that is one object with the single key [points]. *)
Lemma importFields_points_only v st :
  JSON.truthy v = true →
  importFields [("points", v)] st = (p ← Codec.asInt v; Some (setPoints p st)).
Proof.
  intros Ht. unfold importFields, importField. simpl. rewrite Ht.
  destruct (Codec.asInt v); reflexivity.
Qed.

(** C2. A document that [JSON.parse] rejects makes the import end in the
    error alert with every atom as it was: nothing is applied before the
    parse has succeeded. *)
Theorem importData_unparseable (text : string) (st : State) :
  JSON.parse text = None → importData text st = InvalidBackup st.
Proof. intros H. unfold importData. by rewrite H. Qed.

Lemma importData_unparseable_witness :
  JSON.parse "{not json" = None
  ∧ importData "{not json" initialState = InvalidBackup initialState.
Proof.
  split; [reflexivity|].
  apply (importData_unparseable "{not json" initialState). reflexivity.
Defined.

(** C3. Importing a document whose only key is [points], with a truthy
    value, changes [points] and nothing else: entries, habits, vision,
    mini-goals, if-then plans, WOOP, active theme, habit history, future
    cost notes and analytics are as before. *)
Theorem importData_points_only (text : string) (v : JSON.JValue) (p : Z)
    (st : State) :
  JSON.parse text = Some (JSON.JObj [("points", v)]) →
  JSON.truthy v = true →
  Codec.asInt v = Some p →
  ∃ st', importData text st = Restored st'
    ∧ points st' = p
    ∧ entries st' = entries st ∧ habits st' = habits st
    ∧ vision st' = vision st ∧ miniGoals st' = miniGoals st
    ∧ ifThenPlans st' = ifThenPlans st ∧ woop st' = woop st
    ∧ activeTheme st' = activeTheme st ∧ habitHistory st' = habitHistory st
    ∧ futureCostNotes st' = futureCostNotes st ∧ analytics st' = analytics st.
Proof.
  intros Hparse Ht Hp. exists (setPoints p st).
  unfold importData. rewrite Hparse. simpl.
  rewrite (importFields_points_only v st Ht), Hp. simpl.
  repeat split; reflexivity.
Qed.

Lemma importData_points_only_witness :
  let text := Text.dq "{'points': 42}" in
  JSON.parse text = Some (JSON.JObj [("points", JSON.JInt 42)])
  ∧ ∃ st', importData text initialState = Restored st'
    ∧ points st' = 42
    ∧ entries st' = entries initialState ∧ habits st' = habits initialState
    ∧ vision st' = vision initialState ∧ miniGoals st' = miniGoals initialState
    ∧ ifThenPlans st' = ifThenPlans initialState ∧ woop st' = woop initialState
    ∧ activeTheme st' = activeTheme initialState
    ∧ habitHistory st' = habitHistory initialState
    ∧ futureCostNotes st' = futureCostNotes initialState
    ∧ analytics st' = analytics initialState.
Proof.
  split; [reflexivity|].
  apply (importData_points_only (Text.dq "{'points': 42}") (JSON.JInt 42) 42
           initialState); reflexivity.
Defined.

(** ** Habits *)

Section HabitFacts.
Variables (tzOffset : Z) (dateLabel : Z -> string).
Abbreviation toggle := (toggleHabit tzOffset dateLabel).
Abbreviation todayOf := (getTodayString tzOffset dateLabel).

Lemma findHabit_flip id hs :
  findHabit id (map (flipHabit id) hs) = flipHabit id <$> findHabit id hs.
Proof.
  unfold findHabit. induction hs as [|h hs IH]; [reflexivity|]. simpl.
  destruct (decide (habitId h = id)) as [E|E].
  - unfold flipHabit at 1 2. rewrite !(bool_decide_eq_true_2 _ E). reflexivity.
  - unfold flipHabit at 1 2. rewrite !(bool_decide_eq_false_2 _ E). exact IH.
Qed.

Lemma findHabit_id id hs h : findHabit id hs = Some h → habitId h = id.
Proof.
  unfold findHabit. intros H. apply find_some in H as [_ H].
  by apply bool_decide_eq_true in H.
Qed.

Lemma dayHistory_logHabit today label hist :
  dayHistory today (logHabit today label hist) =
  if includes (dayHistory today hist) label
  then dayHistory today hist
  else dayHistory today hist ++ [label].
Proof.
  unfold logHabit, dayHistory.
  destruct (includes (default [] (hist !! today)) label); simpl; [reflexivity|].
  by rewrite lookup_insert_eq.
Qed.

Lemma logHabit_includes today label hist :
  includes (dayHistory today (logHabit today label hist)) label = true.
Proof.
  rewrite dayHistory_logHabit.
  destruct (includes (dayHistory today hist) label) eqn:E; [exact E|].
  apply bool_decide_eq_true. apply elem_of_app. right. by apply list_elem_of_singleton.
Qed.

(** Logging a label that the day already has changes nothing. *)
Lemma logHabit_again today label hist :
  logHabit today label (logHabit today label hist) = logHabit today label hist.
Proof.
  unfold logHabit at 1. fold (dayHistory today (logHabit today label hist)).
  by rewrite logHabit_includes.
Qed.

(** Toggling a pending habit: the flag is set, the counter goes up by one
    and the label is logged for today. *)
Lemma toggleHabit_on id now st h :
  findHabit id (habits st) = Some h → habitCompleted h = false →
  toggle id now st =
    setHabits (map (flipHabit id) (habits st))
      (setHabitHistory (logHabit (todayOf now) (habitLabel h) (habitHistory st))
         (setAnalytics
            (mkAnalyticsData (timerSessions (analytics st))
               (habitsCompleted (analytics st) + 1)
               (goalsCreated (analytics st)) (ifThenCreated (analytics st))) st)).
Proof.
  intros Hf Hc. unfold toggleHabit.
  change (find _ (map _ (habits st))) with (findHabit id (map (flipHabit id) (habits st))).
  rewrite findHabit_flip, Hf. simpl. unfold flipHabit at 1 2.
  rewrite (bool_decide_eq_true_2 _ (findHabit_id _ _ _ Hf)). simpl.
  rewrite Hc. reflexivity.
Qed.

(** Toggling a completed habit only clears the flag. *)
Lemma toggleHabit_off id now st h :
  findHabit id (habits st) = Some h → habitCompleted h = true →
  toggle id now st = setHabits (map (flipHabit id) (habits st)) st.
Proof.
  intros Hf Hc. unfold toggleHabit.
  change (find _ (map _ (habits st))) with (findHabit id (map (flipHabit id) (habits st))).
  rewrite findHabit_flip, Hf. simpl. unfold flipHabit at 1.
  rewrite (bool_decide_eq_true_2 _ (findHabit_id _ _ _ Hf)). simpl.
  rewrite Hc. reflexivity.
Qed.

(** A toggle flips the flag of the habit found for [id] and keeps its
    label. *)
Lemma toggleHabit_find id now st h :
  findHabit id (habits st) = Some h →
  findHabit id (habits (toggle id now st)) =
    Some (mkHabit (habitId h) (habitLabel h) (negb (habitCompleted h))).
Proof.
  intros Hf.
  assert (habits (toggle id now st) = map (flipHabit id) (habits st)) as ->.
  { destruct (habitCompleted h) eqn:Hc.
    - by rewrite (toggleHabit_off _ _ _ _ Hf Hc).
    - by rewrite (toggleHabit_on _ _ _ _ Hf Hc). }
  rewrite findHabit_flip, Hf. simpl. unfold flipHabit.
  by rewrite (bool_decide_eq_true_2 _ (findHabit_id _ _ _ Hf)).
Qed.

End HabitFacts.

Lemma count_label_app_new (label : string) (l : list string) :
  label ∉ l → length (filter (fun x => x = label) (l ++ [label])) = 1%nat.
Proof.
  intros Hn. rewrite filter_app, length_app.
  assert (filter (fun x => x = label) l = []) as ->.
  { induction l as [|x l IH]; [reflexivity|].
    apply not_elem_of_cons in Hn as [Hne Hn].
    rewrite filter_cons_False by congruence. by apply IH. }
  rewrite filter_cons_True by done. reflexivity.
Qed.

(** C5. Toggling a pending habit on, off and on again within one calendar
    day leaves its label in that day's history exactly once: the second
    completion appends nothing, and a day's list that has no duplicate
    gets none. *)
Theorem toggleHabit_logs_once (tzOffset : Z) (dateLabel : Z -> string)
    (id : string) (now1 now2 now3 : Z) (st : State) (h : Habit) :
  findHabit id (habits st) = Some h →
  habitCompleted h = false →
  getTodayString tzOffset dateLabel now2 = getTodayString tzOffset dateLabel now1 →
  getTodayString tzOffset dateLabel now3 = getTodayString tzOffset dateLabel now1 →
  let today := getTodayString tzOffset dateLabel now1 in
  let st1 := toggleHabit tzOffset dateLabel id now1 st in
  let st3 := toggleHabit tzOffset dateLabel id now3
               (toggleHabit tzOffset dateLabel id now2 st1) in
  let before := dayHistory today (habitHistory st) in
  let after := dayHistory today (habitHistory st3) in
  after = (if includes before (habitLabel h) then before
           else before ++ [habitLabel h])
  ∧ dayHistory today (habitHistory st1) = after
  ∧ habitLabel h ∈ after
  ∧ (habitLabel h ∉ before →
     length (filter (fun x => x = habitLabel h) after) = 1%nat)
  ∧ (NoDup before → NoDup after).
Proof.
  intros Hf Hc Hd2 Hd3 today st1 st3 before after.
  pose proof (toggleHabit_find tzOffset dateLabel id now1 st h Hf) as Hf1.
  rewrite Hc in Hf1. simpl in Hf1. fold st1 in Hf1.
  pose proof (toggleHabit_find tzOffset dateLabel id now2 st1 _ Hf1) as Hf2.
  simpl in Hf2.
  assert (habitHistory st3 = logHabit today (habitLabel h) (habitHistory st)) as Hh3.
  { subst st3.
    rewrite (toggleHabit_on _ _ _ _ _ _ Hf2 eq_refl). simpl.
    rewrite (toggleHabit_off _ _ _ _ _ _ Hf1 eq_refl). simpl.
    subst st1. rewrite (toggleHabit_on _ _ _ _ _ _ Hf Hc). simpl.
    rewrite Hd3. apply logHabit_again. }
  assert (habitHistory st1 = logHabit today (habitLabel h) (habitHistory st)) as Hh1.
  { subst st1. by rewrite (toggleHabit_on _ _ _ _ _ _ Hf Hc). }
  assert (after = if includes before (habitLabel h) then before
                  else before ++ [habitLabel h]) as Hafter.
  { subst after. rewrite Hh3. apply dayHistory_logHabit. }
  split; [exact Hafter|].
  split; [subst after; by rewrite Hh1, Hh3|].
  rewrite Hafter. unfold includes.
  case_bool_decide as Hin.
  - split; [exact Hin|]. split; [contradiction|]. auto.
  - split; [apply elem_of_app; right; by apply list_elem_of_singleton|].
    split; [intros _; by apply count_label_app_new|].
    intros Hnd. apply NoDup_app. split; [exact Hnd|].
    split; [|apply NoDup_singleton].
    intros x Hx Hx'. apply list_elem_of_singleton in Hx' as ->. contradiction.
Qed.

Lemma toggleHabit_logs_once_witness :
  let st3 := toggleHabit 0 pretty "2" 7
               (toggleHabit 0 pretty "2" 6 (toggleHabit 0 pretty "2" 5 initialState)) in
  findHabit "2" (habits initialState) = Some (mkHabit "2" "Read 10 pages" false)
  ∧ dayHistory (getTodayString 0 pretty 5) (habitHistory st3) = ["Read 10 pages"]
  ∧ habitsCompleted (analytics st3) = 2.
Proof.
  pose proof (toggleHabit_logs_once 0 pretty "2" 5 6 7 initialState
                (mkHabit "2" "Read 10 pages" false)
                eq_refl eq_refl eq_refl eq_refl) as [H _].
  split; [reflexivity|]. split; [exact H|]. reflexivity.
Defined.

(** ** Activity log *)

Lemma Forall_filter_keep {A} (Q P : A -> Prop) `{!∀ x, Decision (P x)} (l : list A) :
  Forall Q l → Forall Q (filter P l).
Proof.
  induction 1 as [|x l Hx Hl IH]; [constructor|].
  rewrite filter_cons. destruct (decide (P x)); [by constructor|exact IH].
Qed.

Lemma NewestFirst_filter (P : ActivityEntry -> Prop) `{!∀ e, Decision (P e)} es :
  NewestFirst es → NewestFirst (filter P es).
Proof.
  unfold NewestFirst. induction 1 as [|e es Hs IH Hall]; [constructor|].
  rewrite filter_cons. destruct (decide (P e)); [|exact IH].
  constructor; [exact IH|]. by apply Forall_filter_keep.
Qed.

Lemma ofInt_inj (a b : Z) : Text.ofInt a = Text.ofInt b → a = b.
Proof. unfold Text.ofInt. apply (inj pretty). Qed.

(** With clock-made ids and distinct time stamps, no id occurs twice. *)
Lemma ids_NoDup es :
  IdsFromClock es → NoDup (map entryTimestamp es) → NoDup (map entryId es).
Proof.
  unfold IdsFromClock. induction 1 as [|e es Hid Hids IH]; intros Hnd; [constructor|].
  simpl in *. apply NoDup_cons in Hnd as [Hnew Hnd].
  apply NoDup_cons. split; [|by apply IH].
  intros Hin. apply Hnew.
  apply list_elem_of_In, in_map_iff in Hin as (e' & Heq & Hin).
  apply list_elem_of_In, in_map_iff. exists e'. split; [|exact Hin].
  rewrite List.Forall_forall in Hids. rewrite Hid, (Hids _ Hin) in Heq.
  by apply ofInt_inj in Heq.
Qed.

Lemma deleteEntry_absent id es :
  id ∉ map entryId es → filter (fun e => entryId e ≠ id) es = es.
Proof.
  induction es as [|e es IH]; [reflexivity|]. simpl. intros Hn.
  apply not_elem_of_cons in Hn as [Hne Hn].
  rewrite filter_cons_True by congruence. f_equal. by apply IH.
Qed.

(** Deleting an id that the log has, each id being there once, removes one
    entry. *)
Lemma deleteEntry_present id es :
  NoDup (map entryId es) → id ∈ map entryId es →
  S (length (filter (fun e => entryId e ≠ id) es)) = length es.
Proof.
  induction es as [|e es IH]; simpl; intros Hnd Hin; [by apply elem_of_nil in Hin|].
  apply NoDup_cons in Hnd as [Hne Hnd].
  destruct (decide (entryId e = id)) as [E|E].
  - rewrite filter_cons_False by (intros ?; done).
    rewrite deleteEntry_absent; [reflexivity|]. by rewrite <- E.
  - rewrite filter_cons_True by done. simpl. f_equal. apply IH; [done|].
    apply elem_of_cons in Hin as [?|?]; [congruence|done].
Qed.

(** An append whose text trims to the empty string is dropped. *)
Lemma addEntry_blank text now st :
  Text.trim text = "" →
  listAll (applyOp (Append text now) st) = listAll st.
Proof.
  intros Hb. unfold applyOp, addEntry. simpl. rewrite Hb.
  rewrite bool_decide_eq_true_2 by done. reflexivity.
Qed.

(** Any other append puts its entry in front. *)
Lemma addEntry_prepends text now st :
  Text.trim text ≠ "" →
  listAll (applyOp (Append text now) st) =
    mkActivityEntry (Text.ofInt now) (Text.trim text) now :: listAll st.
Proof.
  intros Hb. unfold applyOp, addEntry. simpl.
  rewrite bool_decide_eq_false_2 by done. reflexivity.
Qed.

Lemma deleteEntry_listAll id st :
  listAll (applyOp (Remove id) st) =
    filter (fun e => entryId e ≠ id) (listAll st).
Proof. reflexivity. Qed.

Lemma created_blank text now ops :
  Text.trim text = "" → created (Append text now :: ops) = created ops.
Proof. intros Hb. unfold created. simpl. by rewrite bool_decide_eq_true_2. Qed.

Lemma created_accepted text now ops :
  Text.trim text ≠ "" →
  created (Append text now :: ops) =
    mkActivityEntry (Text.ofInt now) (Text.trim text) now :: created ops.
Proof. intros Hb. unfold created. simpl. by rewrite bool_decide_eq_false_2. Qed.

(** Whatever the clock shows, the log keeps the order of arrival: it is
    what is left of the entries made by the run, the last made first,
    followed by what is left of the entries it started with. *)
Lemma runOps_order ops : ∀ st,
  listAll (runOps ops st) `sublist_of` rev (created ops) ++ listAll st.
Proof.
  induction ops as [|op ops IH]; intros st; [reflexivity|].
  change (runOps (op :: ops) st) with (runOps ops (applyOp op st)).
  etrans; [apply IH|]. destruct op as [text now|id].
  - destruct (decide (Text.trim text = "")) as [Hb|Hb].
    + by rewrite (addEntry_blank _ _ _ Hb), (created_blank _ _ _ Hb).
    + rewrite (addEntry_prepends _ _ _ Hb), (created_accepted _ _ _ Hb).
      simpl. by rewrite <- app_assoc.
  - rewrite deleteEntry_listAll. change (created (Remove id :: ops)) with (created ops).
    apply sublist_app; [reflexivity|apply sublist_filter].
Qed.

Lemma sublist_map {A B} (f : A -> B) (l1 l2 : list A) :
  l1 `sublist_of` l2 → map f l1 `sublist_of` map f l2.
Proof. induction 1; simpl; by constructor. Qed.

(** The length of the log after a run in which no two accepted appends,
    and no accepted append and entry already logged, share a clock
    reading. *)
Lemma runOps_length ops : ∀ st,
  IdsFromClock (listAll st) →
  NoDup (map entryTimestamp (listAll st) ++ appendTimes ops) →
  (length (listAll (runOps ops st)) + removalsOfPresent ops st
   = length (listAll st) + successfulAppends ops)%nat.
Proof.
  induction ops as [|op ops IH]; intros st Hi Hnd.
  { simpl. unfold successfulAppends. simpl. lia. }
  change (runOps (op :: ops) st) with (runOps ops (applyOp op st)).
  destruct op as [text now|id].
  - change (removalsOfPresent (Append text now :: ops) st)
      with (removalsOfPresent ops (applyOp (Append text now) st)).
    destruct (decide (Text.trim text = "")) as [Hb|Hb].
    + assert (appendTimes (Append text now :: ops) = appendTimes ops) as Ht.
      { unfold appendTimes. simpl. by rewrite bool_decide_eq_true_2. }
      unfold successfulAppends in *. rewrite Ht in *.
      pose proof (addEntry_blank text now st Hb) as Hl.
      rewrite <- Hl. apply IH; by rewrite Hl.
    + assert (appendTimes (Append text now :: ops) = now :: appendTimes ops) as Ht.
      { unfold appendTimes. simpl. by rewrite bool_decide_eq_false_2. }
      unfold successfulAppends in *. rewrite Ht in *.
      pose proof (addEntry_prepends text now st Hb) as Hl.
      rewrite IH.
      * rewrite Hl. cbn [length]. lia.
      * rewrite Hl. constructor; [reflexivity|exact Hi].
      * rewrite Hl. simpl. by rewrite <- Permutation_middle in Hnd.
  - assert (appendTimes (Remove id :: ops) = appendTimes ops) as Ht by reflexivity.
    unfold successfulAppends in *. rewrite Ht in *.
    pose proof (deleteEntry_listAll id st) as Hl.
    change (removalsOfPresent (Remove id :: ops) st)
      with ((if bool_decide (id ∈ map entryId (listAll st)) then 1 else 0)
            + removalsOfPresent ops (applyOp (Remove id) st))%nat.
    assert (length (listAll (runOps ops (applyOp (Remove id) st)))
            + removalsOfPresent ops (applyOp (Remove id) st)
            = length (listAll (applyOp (Remove id) st)) + length (appendTimes ops))%nat
      as Hrun.
    { apply IH; rewrite Hl.
      - by apply Forall_filter_keep.
      - eapply sublist_NoDup; [exact Hnd|].
        apply sublist_app; [|reflexivity]. apply sublist_map, sublist_filter. }
    rewrite Hl in Hrun. apply NoDup_app in Hnd as (Hnd & _ & _).
    case_bool_decide as Hin.
    + pose proof (deleteEntry_present id (listAll st) (ids_NoDup _ Hi Hnd) Hin). lia.
    + rewrite (deleteEntry_absent id (listAll st) Hin) in Hrun. lia.
Qed.

(** If the clock moves forward from one accepted append to the next, and is
    ahead of what is already logged, the log is in the order of its time
    stamps. *)
Lemma runOps_newest ops : ∀ st,
  NewestFirst (listAll st) →
  StronglySorted Z.lt (appendTimes ops) →
  (∀ t e, t ∈ appendTimes ops → e ∈ listAll st → entryTimestamp e < t) →
  NewestFirst (listAll (runOps ops st)).
Proof.
  induction ops as [|op ops IH]; intros st Hs Hc Hb; [exact Hs|].
  change (runOps (op :: ops) st) with (runOps ops (applyOp op st)).
  destruct op as [text now|id].
  - destruct (decide (Text.trim text = "")) as [Eb|Eb].
    + assert (appendTimes (Append text now :: ops) = appendTimes ops) as Ht.
      { unfold appendTimes. simpl. by rewrite bool_decide_eq_true_2. }
      rewrite Ht in *. pose proof (addEntry_blank text now st Eb) as Hl.
      apply IH; rewrite ?Hl; done.
    + assert (appendTimes (Append text now :: ops) = now :: appendTimes ops) as Ht.
      { unfold appendTimes. simpl. by rewrite bool_decide_eq_false_2. }
      rewrite Ht in *. pose proof (addEntry_prepends text now st Eb) as Hl.
      apply StronglySorted_inv in Hc as [Hc Hnow].
      apply IH; rewrite ?Hl.
      * constructor; [done|]. apply List.Forall_forall. intros e He. simpl.
        apply Hb; [left|by apply list_elem_of_In].
      * done.
      * intros t e Ht' He. apply elem_of_cons in He as [->|He]; simpl.
        -- rewrite List.Forall_forall in Hnow. apply Hnow. by apply list_elem_of_In.
        -- apply Hb; [by right|done].
  - change (appendTimes (Remove id :: ops)) with (appendTimes ops) in *.
    pose proof (deleteEntry_listAll id st) as Hl.
    apply IH; rewrite ?Hl.
    + by apply NewestFirst_filter.
    + done.
    + intros t e Ht' He. apply list_elem_of_filter in He as [_ He]. by apply Hb.
Qed.

(** C9. On a log that starts empty, for every sequence of appends and
    removals in which no two accepted appends read the same clock value:
    the log lists what is left of the appended entries with the most
    recently appended first, each accepted append having put its entry in
    front; its length is the number of accepted appends minus the number of
    removals of an id that was present; and an append whose text trims to
    the empty string leaves the log unchanged.  If the clock moves forward
    from each accepted append to the next, the time stamps decrease along
    the log. *)
Theorem log_after_operations (ops : list LogOp) (st : State) :
  listAll st = [] →
  NoDup (appendTimes ops) →
  listAll (runOps ops st) `sublist_of` rev (created ops)
  ∧ (length (listAll (runOps ops st)) + removalsOfPresent ops st
     = successfulAppends ops)%nat
  ∧ (∀ text now s, Text.trim text = "" →
       listAll (applyOp (Append text now) s) = listAll s)
  ∧ (∀ text now s, Text.trim text ≠ "" →
       listAll (applyOp (Append text now) s) =
         mkActivityEntry (Text.ofInt now) (Text.trim text) now :: listAll s)
  ∧ (StronglySorted Z.lt (appendTimes ops) →
     NewestFirst (listAll (runOps ops st))).
Proof.
  intros Hempty Hclock. split_and!.
  - pose proof (runOps_order ops st) as H. by rewrite Hempty, app_nil_r in H.
  - pose proof (runOps_length ops st) as H. rewrite Hempty in H.
    apply H; [constructor|exact Hclock].
  - apply addEntry_blank.
  - apply addEntry_prepends.
  - intros Hsorted. apply runOps_newest; [rewrite Hempty; constructor|exact Hsorted|].
    intros t e _ He. rewrite Hempty in He. by apply elem_of_nil in He.
Qed.

Lemma log_after_operations_witness :
  let ops := [Append "a" 1000; Append "  " 1001; Append " b " 1002;
              Remove "1000"; Remove "nope"] in
  listAll (runOps ops initialState) = [mkActivityEntry "1002" "b" 1002]
  ∧ created ops = [mkActivityEntry "1000" "a" 1000; mkActivityEntry "1002" "b" 1002]
  ∧ successfulAppends ops = 2%nat
  ∧ removalsOfPresent ops initialState = 1%nat
  ∧ NewestFirst (listAll (runOps ops initialState)).
Proof.
  assert (NoDup (appendTimes [Append "a" 1000; Append "  " 1001; Append " b " 1002;
                              Remove "1000"; Remove "nope"])) as Hnd
    by (apply (bool_decide_unpack _); vm_compute; exact I).
  pose proof (log_after_operations
                [Append "a" 1000; Append "  " 1001; Append " b " 1002;
                 Remove "1000"; Remove "nope"] initialState eq_refl Hnd)
    as (_ & _ & _ & _ & H).
  split_and!; try reflexivity.
  apply H. repeat constructor.
Defined.

(** C9 does not hold for every sequence: when the clock shows the same
    millisecond at two appends, both entries get the same id and one
    removal deletes both. *)
Lemma log_length_counterexample :
  ¬ (∀ ops : list LogOp,
       (length (listAll (runOps ops initialState))
        + removalsOfPresent ops initialState)%nat = successfulAppends ops).
Proof.
  intros H.
  specialize (H [Append "a" 1000; Append "b" 1000; Remove "1000"]).
  vm_compute in H. discriminate.
Qed.

(** ** The activity map and the average *)

Section MetricFacts.
Variables (tzOffset : Z) (dateLabel : Z -> string).
Abbreviation dateOf := (fun e => toDateString tzOffset dateLabel (entryTimestamp e)).
Abbreviation amStep :=
  (fun (m : gmap string Z) entry =>
     <[dateOf entry := default 0 (m !! dateOf entry) + 1]> m).

Lemma amStep_size m e : (size m ≤ size (amStep m e) ≤ S (size m))%nat.
Proof.
  destruct (m !! dateOf e) as [v|] eqn:E.
  - rewrite map_size_insert_Some by eauto. lia.
  - rewrite map_size_insert_None by done. lia.
Qed.

Lemma foldl_amStep_size es : ∀ m,
  (size m ≤ size (foldl amStep m es) ≤ size m + length es)%nat.
Proof.
  induction es as [|e es IH]; intros m; simpl; [lia|].
  pose proof (IH (amStep m e)). pose proof (amStep_size m e). lia.
Qed.

Lemma foldl_amStep_keeps es : ∀ m k,
  is_Some (m !! k) → is_Some (foldl amStep m es !! k).
Proof.
  induction es as [|e es IH]; intros m k Hk; simpl; [done|].
  apply IH. destruct (decide (dateOf e = k)) as [<-|Hne].
  - rewrite lookup_insert_eq. eauto.
  - by rewrite lookup_insert_ne.
Qed.

(** Every count in the map is at least one. *)
Lemma foldl_amStep_positive es : ∀ m,
  (∀ k v, m !! k = Some v → 1 ≤ v) →
  ∀ k v, foldl amStep m es !! k = Some v → 1 ≤ v.
Proof.
  induction es as [|e es IH]; intros m Hm; simpl; [exact Hm|].
  apply IH. intros k v. destruct (decide (dateOf e = k)) as [<-|Hne].
  - rewrite lookup_insert_eq. intros [= <-].
    destruct (m !! dateOf e) as [w|] eqn:E; simpl; [|lia].
    pose proof (Hm _ _ E). lia.
  - rewrite lookup_insert_ne by done. apply Hm.
Qed.

Lemma activityMap_positive es k v :
  activityMap tzOffset dateLabel es !! k = Some v → 1 ≤ v.
Proof.
  apply foldl_amStep_positive. intros k' v'. by rewrite lookup_empty.
Qed.

(** The number of distinct active days of a non-empty log is at least one
    and at most the number of entries. *)
Lemma activityMap_size e es :
  (1 ≤ size (activityMap tzOffset dateLabel (e :: es)) ≤ length (e :: es))%nat.
Proof.
  unfold activityMap. split.
  - simpl. destruct (foldl_amStep_keeps es (amStep ∅ e) (dateOf e)) as [v Hv].
    { rewrite lookup_insert_eq. eauto. }
    destruct (decide (size (foldl amStep (amStep ∅ e) es) = 0%nat)) as [Hz|]; [|lia].
    apply map_size_empty_iff in Hz. rewrite Hz, lookup_empty in Hv. discriminate.
  - pose proof (foldl_amStep_size (e :: es) ∅) as H.
    rewrite map_size_empty in H. lia.
Qed.

Lemma keys_length (m : gmap string Z) :
  length (map fst (map_to_list m)) = size m.
Proof. rewrite length_map. apply length_map_to_list. Qed.

End MetricFacts.

(** C7. Every per-day count is drawn in the colour of its tier: 0 is the
    none tier, 1 to 2 the low tier, 3 to 5 the medium tier, 6 and more the
    high tier; the boundary counts 2 and 5 belong to the lower tier and 6
    is high.  So is every cell of the heatmap, whose count is the number of
    entries of its day. *)
Theorem heatmap_bucketing :
  (∀ n : nat,
     legendTier (heatmapClasses (Z.of_nat n)).1 = Some (specTier (Z.of_nat n)))
  ∧ (∀ n : nat, specTier (Z.of_nat n) =
       match n with
       | 0 => TierNone
       | 1 | 2 => TierLow
       | 3 | 4 | 5 => TierMedium
       | _ => TierHigh
       end%nat)
  ∧ (∀ tzOffset dateLabel entries date,
       legendTier (heatmapCell tzOffset dateLabel entries date).1 =
       Some (specTier
               (default 0 (activityMap tzOffset dateLabel entries
                             !! toDateString tzOffset dateLabel date))))
  ∧ legendTier (heatmapClasses 0).1 = Some TierNone
  ∧ legendTier (heatmapClasses 2).1 = Some TierLow
  ∧ legendTier (heatmapClasses 5).1 = Some TierMedium
  ∧ legendTier (heatmapClasses 6).1 = Some TierHigh
  ∧ legendTier (heatmapClasses 7).1 = Some TierHigh.
Proof.
  split; [intros n; apply heatmapClasses_tier; lia|].
  split.
  { intros n. do 6 (destruct n as [|n]; [reflexivity|]).
    unfold specTier.
    destruct (Z.eqb_spec (Z.of_nat (S (S (S (S (S (S n))))))) 0); [lia|].
    repeat match goal with
           | |- context [?a <=? ?b] => destruct (Z.leb_spec a b); [lia|]
           end.
    reflexivity. }
  split; [|repeat split; reflexivity].
  intros tzOffset dateLabel entries date. unfold heatmapCell.
  apply heatmapClasses_tier.
  destruct (activityMap tzOffset dateLabel entries
              !! toDateString tzOffset dateLabel date) as [v|] eqn:E; simpl; [|lia].
  pose proof (activityMap_positive _ _ _ _ _ E). lia.
Qed.

(** C8. [avgActionsPerDay] is total: on an empty log it is the number 0; on
    any other log the divisor, the number of distinct active days, is at
    least one, and the value is the quotient of the entry count by it as
    [toFixed(1)] writes it: computed in double precision and rounded to one
    fraction digit. *)
Theorem avgActionsPerDay_guarded (tzOffset : Z) (dateLabel : Z -> string)
    (entries : list ActivityEntry) :
  match entries with
  | [] => avgActionsPerDay tzOffset dateLabel entries = AvgNumber 0
  | _ :: _ =>
      let days := size (activityMap tzOffset dateLabel entries) in
      (1 ≤ days ≤ length entries)%nat
      ∧ avgActionsPerDay tzOffset dateLabel entries =
          AvgText (toFixed1 (SFdiv prec emax
                               (doubleOfZ (Z.of_nat (length entries)))
                               (doubleOfZ (Z.of_nat days))))
  end.
Proof.
  destruct entries as [|e es]; [reflexivity|].
  pose proof (activityMap_size tzOffset dateLabel e es) as Hsize.
  split; [exact Hsize|].
  unfold avgActionsPerDay. rewrite keys_length.
  rewrite bool_decide_eq_false_2 by lia. reflexivity.
Qed.

(** C8 does not hold with the exact quotient: four entries on three days
    give the text "1.3", and no number of tenths is 4/3. *)
Lemma avgActionsPerDay_counterexample :
  ¬ (∀ entries : list ActivityEntry,
       entries ≠ [] →
       avgDenotes (avgActionsPerDay 0 pretty entries)
         (Z.of_nat (length entries))
         (Z.of_nat (size (activityMap 0 pretty entries)))).
Proof.
  intros H. specialize (H fourOnThreeDays ltac:(discriminate)).
  assert (avgActionsPerDay 0 pretty fourOnThreeDays = AvgText "1.3") as Hv
    by (vm_compute; reflexivity).
  assert (size (activityMap 0 pretty fourOnThreeDays) = 3%nat) as Hd
    by (vm_compute; reflexivity).
  rewrite Hv, Hd in H. destruct H as (n & _ & Hn). simpl in Hn. lia.
Qed.

(** ** The streak *)

Lemma StreakRun_unique has start k k' :
  StreakRun has start k → StreakRun has start k' → k = k'.
Proof.
  intros (Hk & Hin & Hout) (Hk' & Hin' & Hout').
  destruct (Z.lt_trichotomy k k') as [Hlt|[Heq|Hgt]]; [|exact Heq|].
  - exfalso. apply Hout, Hin'. lia.
  - exfalso. apply Hout', Hin. lia.
Qed.

Lemma elem_of_distinct (x : string) (l : list string) : x ∈ distinct l ↔ x ∈ l.
Proof.
  induction l as [|y l IH]; simpl; [done|].
  rewrite !elem_of_cons, list_elem_of_filter, IH.
  destruct (decide (x = y)) as [Heq|Hne]; [split; by left|].
  split; [intros [?|[_ ?]]; [by left|by right]|].
  intros [?|?]; [by left|by right].
Qed.

Lemma filter_le_pred_length (d : Z) (days : list Z) :
  (length (filter (fun x => (x ≤ d - 1)%Z) days) ≤ length (filter (fun x => (x ≤ d)%Z) days))%nat
  ∧ (d ∈ days →
     (length (filter (fun x => (x ≤ d - 1)%Z) days) < length (filter (fun x => (x ≤ d)%Z) days))%nat).
Proof.
  induction days as [|x days [IH1 IH2]]; [split; [done|by intros ?%elem_of_nil]|].
  rewrite !filter_cons.
  destruct (decide (x ≤ d - 1)), (decide (x ≤ d)); simpl; try lia.
  - split; [lia|]. intros [->|Hin]%elem_of_cons; [lia|]. specialize (IH2 Hin). lia.
  - split; [lia|]. intros [->|Hin]%elem_of_cons; [lia|]. by apply IH2.
Qed.

Section StreakFacts.
Variables (tzOffset : Z) (dateLabel : Z -> string).
Hypothesis dateLabel_inj : Inj (=) (=) dateLabel.
Abbreviation dayOf := (localDay tzOffset).
Abbreviation dateString := (toDateString tzOffset dateLabel).

Lemma localDay_setDate_back t : dayOf (setDate t (-1)) = dayOf t - 1.
Proof.
  unfold localDay, setDate, msPerDay.
  replace (t + -1 * 86400000 + tzOffset) with (t + tzOffset + (-1) * 86400000) by lia.
  rewrite Z.div_add by lia. lia.
Qed.

Lemma localDay_yesterday now : dayOf (now - 86400000) = dayOf now - 1.
Proof.
  rewrite <- localDay_setDate_back. unfold setDate, msPerDay. f_equal; lia.
Qed.

(** A date string is among the dates of the log exactly when the log has an
    entry on its day. *)
Lemma includes_dates entries d :
  includes (distinct (map (fun e => dateString (entryTimestamp e)) entries))
           (dateLabel d) = true
  ↔ hasEntryOn tzOffset entries d.
Proof.
  unfold includes, hasEntryOn. rewrite bool_decide_eq_true, elem_of_distinct.
  rewrite !list_elem_of_In, !in_map_iff. unfold toDateString. split.
  - intros (e & He & Hin). apply dateLabel_inj in He. eauto.
  - intros (e & He & Hin). exists e. by rewrite He.
Qed.

Lemma includes_dates_false entries d :
  includes (distinct (map (fun e => dateString (entryTimestamp e)) entries))
           (dateLabel d) = false
  ↔ ¬ hasEntryOn tzOffset entries d.
Proof.
  rewrite <- includes_dates. by destruct (includes _ _).
Qed.

(** The loop stops: it counts the days of the run that ends on the day of
    [currentDate], and every test that succeeds leaves fewer logged days at
    or before the current one. *)
Lemma streakLoop_run entries fuel : ∀ currentDate streak,
  (length (filter (fun x => (x ≤ dayOf currentDate)%Z)
             (map (fun e => dayOf (entryTimestamp e)) entries)) < fuel)%nat →
  ∃ k, streakLoop tzOffset dateLabel fuel
         (distinct (map (fun e => dateString (entryTimestamp e)) entries))
         currentDate streak = Some (streak + k)
       ∧ StreakRun (hasEntryOn tzOffset entries) (dayOf currentDate) k.
Proof.
  induction fuel as [|fuel IH]; intros cur streak Hfuel; [lia|].
  simpl. unfold toDateString at 1.
  match goal with
  | |- context [includes ?l ?x] => destruct (includes l x) eqn:Hinc
  end.
  - apply includes_dates in Hinc.
    destruct (filter_le_pred_length (dayOf cur)
                (map (fun e => dayOf (entryTimestamp e)) entries)) as [_ Hlt].
    specialize (Hlt Hinc).
    destruct (IH (setDate cur (-1)) (streak + 1)) as (k & Hk & Hle & Hin & Hout).
    { rewrite localDay_setDate_back. lia. }
    rewrite localDay_setDate_back in Hin, Hout.
    exists (k + 1). split; [rewrite Hk; f_equal; lia|].
    split; [lia|]. split.
    + intros i Hi. destruct (decide (i = 0)) as [->|Hne].
      * by rewrite Z.sub_0_r.
      * replace (dayOf cur - i) with (dayOf cur - 1 - (i - 1)) by lia.
        apply Hin. lia.
    + replace (dayOf cur - (k + 1)) with (dayOf cur - 1 - k) by lia. exact Hout.
  - apply includes_dates_false in Hinc.
    exists 0. split; [f_equal; lia|].
    split; [lia|]. split; [intros i Hi; lia|]. by rewrite Z.sub_0_r.
Qed.

Lemma calculateStreakWithin_spec now entries fuel :
  (length entries < fuel)%nat →
  let today := dayOf now in
  let has := hasEntryOn tzOffset entries in
  ∃ k, calculateStreakWithin tzOffset dateLabel fuel now entries = Some k
    ∧ (entries = [] → k = 0)
    ∧ (¬ has today → ¬ has (today - 1) → k = 0)
    ∧ (has today → StreakRun has today k ∧ 1 ≤ k)
    ∧ (¬ has today → has (today - 1) → StreakRun has (today - 1) k ∧ 1 ≤ k).
Proof.
  intros Hfuel today has. unfold calculateStreakWithin.
  destruct (decide (entries = [])) as [Hentries|Hentries].
  { exists 0. subst has. rewrite Hentries. simpl. split_and!; try done.
    - intros H. by apply elem_of_nil in H.
    - intros _ H. by apply elem_of_nil in H. }
  rewrite bool_decide_eq_false_2 by (by destruct entries).
  unfold getTodayString. cbv zeta.
  change (toDateString tzOffset dateLabel now) with (dateLabel today).
  change (toDateString tzOffset dateLabel (now - 86400000))
    with (dateLabel (dayOf (now - 86400000))).
  rewrite localDay_yesterday. fold today.
  assert (∀ cur, ∃ k,
    streakLoop tzOffset dateLabel fuel
      (distinct (map (fun e => dateString (entryTimestamp e)) entries)) cur 0 = Some k
    ∧ StreakRun has (dayOf cur) k) as Hloop.
  { intros cur. destruct (streakLoop_run entries fuel cur 0) as (k & Hk & Hrun).
    - pose proof (length_filter (fun x : Z => x ≤ dayOf cur)
                    (map (fun e => dayOf (entryTimestamp e)) entries)) as Hle.
      rewrite length_map in Hle. lia.
    - exists k. rewrite Z.add_0_l in Hk. by split. }
  assert (∀ start k, has start → StreakRun has start k → 1 ≤ k) as Hpos.
  { intros start k Hs (Hk & _ & Hout).
    destruct (decide (k = 0)) as [->|]; [|lia]. by rewrite Z.sub_0_r in Hout. }
  match goal with
  | |- context [includes ?l (dateLabel today)] =>
      destruct (includes l (dateLabel today)) eqn:Ht
  end.
  - apply includes_dates in Ht. simpl.
    destruct (Hloop now) as (k & Hk & Hrun). exists k.
    split_and!; [exact Hk|done|done|eauto|done].
  - apply includes_dates_false in Ht.
    match goal with
    | |- context [includes ?l (dateLabel (today - 1))] =>
        destruct (includes l (dateLabel (today - 1))) eqn:Hy; simpl
    end.
    + apply includes_dates in Hy.
      destruct (Hloop (now - 86400000)) as (k & Hk & Hrun).
      rewrite localDay_yesterday in Hrun. exists k.
      split_and!; [exact Hk|done|done|done|eauto].
    + apply includes_dates_false in Hy. exists 0.
      split_and!; [done|done|done|done|done].
Qed.

End StreakFacts.

(** At a fixed UTC offset the instant 24 hours before the clock reading
    lies on yesterday, and [calculateStreak] returns, for every log and
    clock: 0 on an empty log; 0 when neither today nor yesterday has an
    entry; otherwise the number of consecutive calendar days with an entry,
    counted backwards from today if today has one and from yesterday if not,
    up to the first day without one.  Entries on today and the four days
    before it, and on no other day, give 5; entries on today and three days
    ago only give 1.  The loop needs no more tests than one more than there
    are entries. *)
Theorem calculateStreak_spec (tzOffset : Z) (dateLabel : Z -> string)
    (now : Z) (entries : list ActivityEntry) :
  Inj (=) (=) dateLabel →
  let today := localDay tzOffset now in
  let has := hasEntryOn tzOffset entries in
  ∃ k, calculateStreak tzOffset dateLabel now entries = Some k
    ∧ (∀ fuel, (length entries < fuel)%nat →
         calculateStreakWithin tzOffset dateLabel fuel now entries = Some k)
    ∧ (entries = [] → k = 0)
    ∧ (¬ has today → ¬ has (today - 1) → k = 0)
    ∧ (has today → StreakRun has today k)
    ∧ (¬ has today → has (today - 1) → StreakRun has (today - 1) k)
    ∧ ((∀ d, has d ↔ today - 4 ≤ d ≤ today) → k = 5)
    ∧ ((∀ d, has d ↔ d = today ∨ d = today - 3) → k = 1).
Proof.
  intros Hinj today has.
  destruct (calculateStreakWithin_spec tzOffset dateLabel Hinj now entries
              (S (length entries)) ltac:(lia))
    as (k & Hk & Hnil & Hnone & Htoday & Hyest).
  fold today in Hnone, Htoday, Hyest. fold has in Hnone, Htoday, Hyest.
  exists k. split; [exact Hk|]. split.
  { intros fuel Hfuel.
    destruct (calculateStreakWithin_spec tzOffset dateLabel Hinj now entries
                fuel Hfuel) as (k' & Hk' & _ & Hnone' & Htoday' & Hyest').
    fold today in Hnone', Htoday', Hyest'. fold has in Hnone', Htoday', Hyest'.
    rewrite Hk'. f_equal.
    destruct (decide (has today)) as [Ht|Ht].
    - eapply StreakRun_unique; [apply Htoday'|apply Htoday]; exact Ht.
    - destruct (decide (has (today - 1))) as [Hy|Hy].
      + eapply StreakRun_unique; [apply Hyest'|apply Hyest]; done.
      + rewrite Hnone, Hnone'; done. }
  split; [exact Hnil|]. split; [exact Hnone|].
  split; [intros Ht; by apply Htoday|].
  split; [intros Ht Hy; by apply Hyest|].
  split.
  - intros Hfive.
    assert (has today) as Ht by (apply Hfive; lia).
    apply (StreakRun_unique has today); [by apply Htoday|].
    split; [lia|]. split.
    + intros i Hi. apply Hfive. lia.
    + intros Hfalse. apply Hfive in Hfalse. lia.
  - intros Htwo.
    assert (has today) as Ht by (apply Htwo; lia).
    apply (StreakRun_unique has today); [by apply Htoday|].
    split; [lia|]. split.
    + intros i Hi. replace (today - i) with today by lia. exact Ht.
    + intros Hfalse. apply Htwo in Hfalse. lia.
Qed.

Lemma calculateStreak_spec_witness :
  calculateStreak 0 pretty 8640000005 fiveDayLog = Some 5
  ∧ ∃ k, calculateStreak 0 pretty 8640000005 fiveDayLog = Some k
      ∧ StreakRun (hasEntryOn 0 fiveDayLog) (localDay 0 8640000005) k.
Proof.
  split; [reflexivity|].
  destruct (calculateStreak_spec 0 pretty 8640000005 fiveDayLog (inj pretty))
    as (k & Hk & _ & _ & _ & Hrun & _).
  exists k. split; [exact Hk|]. apply Hrun.
  apply (bool_decide_unpack _). vm_compute. exact I.
Defined.

(** ** The streak in a time zone *)

Lemma fixedZone_localDay tzOffset t :
  Zoned.localDay (fixedZone tzOffset) t = localDay tzOffset t.
Proof. reflexivity. Qed.

Lemma fixedZone_setDate tzOffset t k :
  Zoned.setDate (fixedZone tzOffset) t k = setDate t k.
Proof. unfold Zoned.setDate, Zoned.UTC, Zoned.LocalTime, setDate. simpl. lia. Qed.

Lemma fixedZone_streakLoop tzOffset dateLabel fuel dates : ∀ currentDate streak,
  Zoned.streakLoop (fixedZone tzOffset) dateLabel fuel dates currentDate streak
  = streakLoop tzOffset dateLabel fuel dates currentDate streak.
Proof.
  induction fuel as [|fuel IH]; intros cur streak; [reflexivity|].
  simpl. rewrite fixedZone_setDate, IH. reflexivity.
Qed.

(** In a zone that keeps one offset the streak is that of [calculateStreak]
    at this offset. *)
Lemma fixedZone_calculateStreak tzOffset dateLabel now entries :
  Zoned.calculateStreak (fixedZone tzOffset) dateLabel now entries
  = calculateStreak tzOffset dateLabel now entries.
Proof.
  unfold Zoned.calculateStreak, calculateStreak, Zoned.calculateStreakWithin,
    calculateStreakWithin.
  case_bool_decide; [reflexivity|]. cbv zeta.
  rewrite fixedZone_streakLoop. reflexivity.
Qed.

Lemma fixedZone_StepsByDay tzOffset : StepsByDay (fixedZone tzOffset).
Proof.
  intros t. rewrite fixedZone_setDate, !fixedZone_localDay.
  unfold localDay, setDate, msPerDay.
  replace (t + -1 * 86400000 + tzOffset) with (t + tzOffset + (-1) * 86400000) by lia.
  rewrite Z.div_add by lia. lia.
Qed.

Lemma fixedZone_DayAgoIsYesterday tzOffset now : DayAgoIsYesterday (fixedZone tzOffset) now.
Proof.
  unfold DayAgoIsYesterday. rewrite !fixedZone_localDay. unfold localDay, msPerDay.
  replace (now - 86400000 + tzOffset) with (now + tzOffset + (-1) * 86400000) by lia.
  rewrite Z.div_add by lia. lia.
Qed.

(** In New York a day back is the calendar day before, also across the two
    clock changes: the hour that is skipped and the hour that comes twice
    lie within one day. *)
Lemma newYork2026_StepsByDay : StepsByDay newYork2026.
Proof.
  intros t.
  unfold Zoned.localDay, Zoned.setDate, Zoned.UTC, Zoned.LocalTime, newYork2026,
    msPerDay, msPerHour.
  cbn [offsetAt offsetOfLocal].
  repeat match goal with
  | |- context [if ?b then _ else _] => destruct b eqn:?
  end;
  repeat match goal with
  | H : (_ && _) = true |- _ => apply andb_prop in H as [? ?]
  | H : (_ && _) = false |- _ => apply andb_false_iff in H
  end;
  repeat match goal with
  | H : (_ <=? _) = true |- _ => apply Z.leb_le in H
  | H : (_ <? _) = true |- _ => apply Z.ltb_lt in H
  | H : (_ <=? _) = false \/ _ |- _ => rewrite Z.leb_gt in H
  | H : _ \/ (_ <? _) = false |- _ => rewrite Z.ltb_ge in H
  end;
  Z.to_euclidean_division_equations; lia.
Qed.

(** C6. [calculateStreak] takes for yesterday the day of the instant 24
    hours before the clock reading, which on the day after a clock change
    can be the day before yesterday.  In New York on Mon Mar 09 2026 at
    00:30, with one entry made on Sun Mar 08 at 12:00, yesterday has an
    entry and today has none, the run of days that ends yesterday is one day
    long, and the function returns 0, not 1; with one entry made on Sat Mar
    07 instead, neither today nor yesterday has an entry and it returns 1,
    not 0.  The loop of the same function goes back by the calendar: from
    the clock reading it steps to yesterday, and once an entry is made today
    it counts Sunday, so that this entry takes the streak from 0 to 2. *)
Theorem calculateStreak_misses_yesterday :
  let now := 1773030600000 in
  let today := Zoned.localDay newYork2026 now in
  (hasEntryIn newYork2026 sundayLog (today - 1)
   ∧ ¬ hasEntryIn newYork2026 sundayLog today
   ∧ StreakRun (hasEntryIn newYork2026 sundayLog) (today - 1) 1
   ∧ Zoned.calculateStreak newYork2026 pretty now sundayLog = Some 0)
  ∧ (¬ hasEntryIn newYork2026 saturdayLog today
     ∧ ¬ hasEntryIn newYork2026 saturdayLog (today - 1)
     ∧ Zoned.calculateStreak newYork2026 pretty now saturdayLog = Some 1)
  ∧ Zoned.localDay newYork2026 (now - 86400000) = today - 2
  ∧ Zoned.localDay newYork2026 (Zoned.setDate newYork2026 now (-1)) = today - 1
  ∧ Zoned.calculateStreak newYork2026 pretty now
      (entries (addEntry now (setNewEntry "stretch" (setEntries sundayLog initialState))))
    = Some 2.
Proof.
  intros now today.
  split_and!;
    try (apply (bool_decide_unpack _); vm_compute; exact I);
    try (vm_compute; reflexivity).
  unfold StreakRun. split_and!; [lia| |apply (bool_decide_unpack _); vm_compute; exact I].
  intros i Hi. replace i with 0 by lia. apply (bool_decide_unpack _). vm_compute. exact I.
Qed.

(** ** Export followed by import *)

Local Arguments Codec.asInt : simpl never.
Local Arguments JSON.JInt : simpl never.

Lemma asInt_JInt z : SafeInteger z → Codec.asInt (JSON.JInt z) = Some z.
Proof.
  unfold SafeInteger, Codec.asInt, JSON.JInt. intros Hs. cbn.
  rewrite Z.mul_1_r. destruct (Z.leb_spec (Z.abs z) Codec.maxSafeInteger); [done|lia].
Qed.

Lemma mapM_decode {A} (enc : A -> JSON.JValue) (dec : JSON.JValue -> option A)
    (l : list A) :
  Forall (fun a => dec (enc a) = Some a) l → mapM dec (map enc l) = Some l.
Proof.
  induction 1 as [|a l Ha _ IH]; [reflexivity|]. simpl. by rewrite Ha, IH.
Qed.

Lemma asEntry_ofEntry e :
  SafeInteger (entryTimestamp e) → Codec.asEntry (Codec.ofEntry e) = Some e.
Proof.
  intros Hs. destruct e as [i t ts]. unfold Codec.asEntry, Codec.ofEntry, Codec.field.
  simpl in *. by rewrite (asInt_JInt ts Hs).
Qed.

Lemma asHabit_ofHabit h : Codec.asHabit (Codec.ofHabit h) = Some h.
Proof. by destruct h. Qed.

Lemma asMiniGoal_ofMiniGoal g : Codec.asMiniGoal (Codec.ofMiniGoal g) = Some g.
Proof. by destruct g. Qed.

Lemma asIfThenPlan_ofIfThenPlan p : Codec.asIfThenPlan (Codec.ofIfThenPlan p) = Some p.
Proof. by destruct p. Qed.

Lemma asWoop_ofWoop w : Codec.asWoop (Codec.ofWoop w) = Some w.
Proof. by destruct w. Qed.

Lemma truthy_JInt z : JSON.truthy (JSON.JInt z) = negb (bool_decide (z = 0)).
Proof.
  unfold JSON.truthy, JSON.JInt, JSON.isZeroNumber. simpl. rewrite orb_false_r.
  destruct (Z.eqb_spec z 0);
    [rewrite bool_decide_eq_true_2 by done|rewrite bool_decide_eq_false_2 by done];
    reflexivity.
Qed.

Lemma importField_decoded {A} f k v (dec : JSON.JValue -> option A) a set st :
  JSON.prop f k = Some v → JSON.truthy v = true → dec v = Some a →
  importField f k dec set st = Some (set a st).
Proof. unfold importField. by intros -> -> ->. Qed.

Lemma importField_falsy {A} f k v (dec : JSON.JValue -> option A) set st :
  JSON.prop f k = Some v → JSON.truthy v = false →
  importField f k dec set st = Some st.
Proof. unfold importField. by intros -> ->. Qed.

Lemma importField_missing {A} f k (dec : JSON.JValue -> option A) set st :
  JSON.prop f k = None → importField f k dec set st = Some st.
Proof. unfold importField. by intros ->. Qed.

Lemma option_bind_Some_l {A B} (a : A) (f : A -> option B) : (Some a ≫= f) = f a.
Proof. reflexivity. Qed.

Lemma truthy_JStr s : JSON.truthy (JSON.JStr s) = negb (bool_decide (s = "")).
Proof. reflexivity. Qed.

(** Importing the object that [exportData] serialises. *)
Lemma importParsed_exportDocument isoNow src dst :
  SafeState src →
  importParsed (exportDocument isoNow src) dst = Restored (restoredFrom src dst).
Proof.
  intros [Hentries Hpoints]. unfold importParsed, exportDocument, importFields.
  erewrite (importField_decoded _ "entries"); [|reflexivity|reflexivity|].
  2:{ apply mapM_decode. eapply Forall_impl; [exact Hentries|].
      intros e. apply asEntry_ofEntry. }
  rewrite option_bind_Some_l.
  erewrite (importField_decoded _ "habits"); [|reflexivity|reflexivity|].
  2:{ apply mapM_decode, Forall_forall. intros ? _. apply asHabit_ofHabit. }
  rewrite option_bind_Some_l.
  assert (∀ st, importField
             [("entries", JSON.JArr (map Codec.ofEntry (entries src)));
              ("habits", JSON.JArr (map Codec.ofHabit (habits src)));
              ("vision", JSON.JStr (vision src));
              ("miniGoals", JSON.JArr (map Codec.ofMiniGoal (miniGoals src)));
              ("ifThenPlans", JSON.JArr (map Codec.ofIfThenPlan (ifThenPlans src)));
              ("woop", Codec.ofWoop (woop src));
              ("points", JSON.JInt (points src));
              ("activeTheme", JSON.JStr (activeTheme src));
              ("timestamp", JSON.JStr isoNow)] "vision" Codec.asStr setVision st
           = Some (if bool_decide (vision src = "") then st
                   else setVision (vision src) st)) as ->.
  { intros st. case_bool_decide as Hv.
    - eapply importField_falsy; [reflexivity|]. by rewrite truthy_JStr, bool_decide_eq_true_2.
    - eapply importField_decoded; [reflexivity| |reflexivity].
      by rewrite truthy_JStr, bool_decide_eq_false_2. }
  rewrite option_bind_Some_l.
  erewrite (importField_decoded _ "miniGoals"); [|reflexivity|reflexivity|].
  2:{ apply mapM_decode, Forall_forall. intros ? _. apply asMiniGoal_ofMiniGoal. }
  rewrite option_bind_Some_l.
  erewrite (importField_decoded _ "ifThenPlans"); [|reflexivity|reflexivity|].
  2:{ apply mapM_decode, Forall_forall. intros ? _. apply asIfThenPlan_ofIfThenPlan. }
  rewrite option_bind_Some_l.
  erewrite (importField_decoded _ "woop");
    [|reflexivity|reflexivity|apply asWoop_ofWoop].
  rewrite option_bind_Some_l.
  assert (∀ st, importField
             [("entries", JSON.JArr (map Codec.ofEntry (entries src)));
              ("habits", JSON.JArr (map Codec.ofHabit (habits src)));
              ("vision", JSON.JStr (vision src));
              ("miniGoals", JSON.JArr (map Codec.ofMiniGoal (miniGoals src)));
              ("ifThenPlans", JSON.JArr (map Codec.ofIfThenPlan (ifThenPlans src)));
              ("woop", Codec.ofWoop (woop src));
              ("points", JSON.JInt (points src));
              ("activeTheme", JSON.JStr (activeTheme src));
              ("timestamp", JSON.JStr isoNow)] "points" Codec.asInt setPoints st
           = Some (if bool_decide (points src = 0) then st
                   else setPoints (points src) st)) as ->.
  { intros st. case_bool_decide as Hv.
    - eapply importField_falsy; [reflexivity|]. by rewrite truthy_JInt, bool_decide_eq_true_2.
    - eapply importField_decoded; [reflexivity| |by apply asInt_JInt].
      by rewrite truthy_JInt, bool_decide_eq_false_2. }
  rewrite option_bind_Some_l.
  assert (∀ st, importField
             [("entries", JSON.JArr (map Codec.ofEntry (entries src)));
              ("habits", JSON.JArr (map Codec.ofHabit (habits src)));
              ("vision", JSON.JStr (vision src));
              ("miniGoals", JSON.JArr (map Codec.ofMiniGoal (miniGoals src)));
              ("ifThenPlans", JSON.JArr (map Codec.ofIfThenPlan (ifThenPlans src)));
              ("woop", Codec.ofWoop (woop src));
              ("points", JSON.JInt (points src));
              ("activeTheme", JSON.JStr (activeTheme src));
              ("timestamp", JSON.JStr isoNow)] "activeTheme" Codec.asStr
             setActiveTheme st
           = Some (if bool_decide (activeTheme src = "") then st
                   else setActiveTheme (activeTheme src) st)) as ->.
  { intros st. case_bool_decide as Hv.
    - eapply importField_falsy; [reflexivity|]. by rewrite truthy_JStr, bool_decide_eq_true_2.
    - eapply importField_decoded; [reflexivity| |reflexivity].
      by rewrite truthy_JStr, bool_decide_eq_false_2. }
  rewrite option_bind_Some_l.
  rewrite (importField_missing _ "habitHistory") by reflexivity.
  rewrite option_bind_Some_l.
  rewrite (importField_missing _ "futureCostNotes") by reflexivity.
  rewrite option_bind_Some_l.
  rewrite (importField_missing _ "analytics") by reflexivity.
  unfold restoredFrom.
  destruct (bool_decide (vision src = "")), (bool_decide (points src = 0)),
    (bool_decide (activeTheme src = "")); reflexivity.
Qed.

(** ** The backup file read back *)

Local Ltac closed_NoDup := apply (bool_decide_unpack _); vm_compute; exact I.

Lemma ofEntry_printable e :
  JSON.plainText (entryId e) = true ∧ JSON.plainText (entryText e) = true →
  JSON.Printable (Codec.ofEntry e).
Proof.
  intros [Hi Ht]. unfold Codec.ofEntry. constructor; [closed_NoDup|].
  repeat constructor; assumption.
Qed.

Lemma ofHabit_printable h :
  JSON.plainText (habitId h) = true ∧ JSON.plainText (habitLabel h) = true →
  JSON.Printable (Codec.ofHabit h).
Proof.
  intros [Hi Hl]. unfold Codec.ofHabit. constructor; [closed_NoDup|].
  repeat constructor; assumption.
Qed.

Lemma ofMiniGoal_printable g :
  JSON.plainText (goalId g) = true ∧ JSON.plainText (goalText g) = true
  ∧ JSON.plainText (goalDeadline g) = true →
  JSON.Printable (Codec.ofMiniGoal g).
Proof.
  intros (Hi & Ht & Hd). unfold Codec.ofMiniGoal. constructor; [closed_NoDup|].
  repeat constructor; assumption.
Qed.

Lemma ofIfThenPlan_printable p :
  JSON.plainText (planId p) = true ∧ JSON.plainText (planTrigger p) = true
  ∧ JSON.plainText (planAction p) = true →
  JSON.Printable (Codec.ofIfThenPlan p).
Proof.
  intros (Hi & Ht & Ha). unfold Codec.ofIfThenPlan. constructor; [closed_NoDup|].
  repeat constructor; assumption.
Qed.

Lemma ofWoop_printable w :
  JSON.plainText (wish w) = true ∧ JSON.plainText (outcome w) = true
  ∧ JSON.plainText (obstacle w) = true ∧ JSON.plainText (plan w) = true →
  JSON.Printable (Codec.ofWoop w).
Proof.
  intros (Hw & Ho & Hb & Hp). unfold Codec.ofWoop. constructor; [closed_NoDup|].
  repeat constructor; assumption.
Qed.

Lemma printable_items {A} (enc : A -> JSON.JValue) (Q : A -> Prop) (l : list A) :
  (∀ a, Q a → JSON.Printable (enc a)) → Forall Q l →
  JSON.Printable (JSON.JArr (map enc l)).
Proof.
  intros Henc Hall. constructor. induction Hall as [|a l Ha _ IH]; simpl; constructor;
    [by apply Henc|exact IH].
Qed.

(** The object that [exportData] serialises is printable. *)
Lemma exportDocument_printable isoNow st :
  PlainState st → JSON.plainText isoNow = true →
  JSON.Printable (exportDocument isoNow st).
Proof.
  intros (He & Hh & Hv & Hg & Hp & Hw & Ht) Hiso. unfold exportDocument.
  constructor; [closed_NoDup|].
  repeat (apply Forall_cons; split; [split; [reflexivity|]|]); [..|constructor].
  - by apply (printable_items Codec.ofEntry _ _ ofEntry_printable).
  - by apply (printable_items Codec.ofHabit _ _ ofHabit_printable).
  - by constructor.
  - by apply (printable_items Codec.ofMiniGoal _ _ ofMiniGoal_printable).
  - by apply (printable_items Codec.ofIfThenPlan _ _ ofIfThenPlan_printable).
  - by apply ofWoop_printable.
  - constructor.
  - by constructor.
  - by constructor.
Qed.

(** Importing the file that [exportData] wrote: the exported atoms come
    back, except those that are falsy, and the atoms that are not exported
    are left as they are. *)
Lemma importData_exportData isoNow src dst :
  SafeState src → PlainState src → JSON.plainText isoNow = true →
  importData (exportData isoNow src) dst = Restored (restoredFrom src dst).
Proof.
  intros Hsafe Hplain Hiso. unfold importData, exportData.
  rewrite JSONFacts.parse_stringify by (by apply exportDocument_printable).
  by apply importParsed_exportDocument.
Qed.

(** C1. Exporting a state and importing the file into another (a cleared
    engine, say) brings back the atoms that [exportData] writes, and only
    those: the habit history, the future cost notes and the analytics
    counters, which [importData] reads but [exportData] leaves out, stay as
    they are in the engine that imports.  For [trackedState] and the
    cleared engine the history and the counters are lost. *)
Theorem export_import_drops_history :
  (∀ isoNow src dst,
     SafeState src → PlainState src → JSON.plainText isoNow = true →
     ∃ st',
       importData (exportData isoNow src) dst = Restored st'
       ∧ entries st' = entries src ∧ habits st' = habits src
       ∧ miniGoals st' = miniGoals src ∧ ifThenPlans st' = ifThenPlans src
       ∧ woop st' = woop src
       ∧ (vision src ≠ "" → vision st' = vision src)
       ∧ (points src ≠ 0 → points st' = points src)
       ∧ (activeTheme src ≠ "" → activeTheme st' = activeTheme src)
       ∧ habitHistory st' = habitHistory dst
       ∧ futureCostNotes st' = futureCostNotes dst
       ∧ analytics st' = analytics dst)
  ∧ (∃ st',
       importData (exportData "2026-01-01T00:00:00.000Z" trackedState) initialState
         = Restored st'
       ∧ habitHistory st' = ∅
       ∧ habitHistory trackedState ≠ ∅
       ∧ analytics st' = mkAnalyticsData 0 0 0 0
       ∧ analytics trackedState = mkAnalyticsData 0 1 0 0).
Proof.
  split.
  - intros isoNow src dst Hsafe Hplain Hiso. exists (restoredFrom src dst).
    split; [by apply importData_exportData|].
    unfold restoredFrom. simpl. split_and!; try reflexivity.
    + intros Hv. by rewrite bool_decide_eq_false_2.
    + intros Hv. by rewrite bool_decide_eq_false_2.
    + intros Hv. by rewrite bool_decide_eq_false_2.
  - eexists. split; [vm_compute; reflexivity|].
    split_and!; try reflexivity.
    intros H.
    apply (f_equal (fun m => m !! getTodayString 0 pretty 1767225600000)) in H.
    vm_compute in H. discriminate.
Qed.

(** C10. [importData] skips a key whose value is falsy, not only a key that
    is absent: a document with [points] equal to 0, or [vision] equal to
    the empty string, leaves that atom as it was, while an empty array
    under [entries] is truthy and empties the log.  So the backup of a
    state with no points, imported into a state that has points, leaves
    those points in place: the zero does not survive the round trip. *)
Theorem importData_skips_falsy :
  (∀ text f st st',
     JSON.parse text = Some (JSON.JObj f) → importData text st = Restored st' →
     (JSON.truthyProp f "points" = false → points st' = points st)
     ∧ (JSON.truthyProp f "vision" = false → vision st' = vision st)
     ∧ (JSON.prop f "entries" = Some (JSON.JArr []) → entries st' = []))
  ∧ (∀ f e, JSON.prop f "points" = Some (JSON.JNum 0 e) →
       JSON.truthyProp f "points" = false)
  ∧ (∀ f, JSON.prop f "vision" = Some (JSON.JStr "") →
       JSON.truthyProp f "vision" = false)
  ∧ (∀ isoNow src dst,
       SafeState src → PlainState src → JSON.plainText isoNow = true →
       points src = 0 → points dst ≠ 0 →
       ∃ dst', importData (exportData isoNow src) dst = Restored dst'
         ∧ points dst' = points dst ∧ points dst' ≠ points src).
Proof.
  split_and!.
  - intros text f st st' Hparse. unfold importData. rewrite Hparse. simpl.
    destruct (importFields f st) as [s|] eqn:Hf; [|discriminate].
    intros [= <-]. split_and!.
    + by apply importFields_points_skipped.
    + by apply importFields_vision_skipped.
    + intros He. by eapply importFields_entries_replaced.
  - intros f e Hp. unfold JSON.truthyProp. by rewrite Hp.
  - intros f Hp. unfold JSON.truthyProp. by rewrite Hp.
  - intros isoNow src dst Hsafe Hplain Hiso Hzero Hdst.
    exists (restoredFrom src dst). split; [by apply importData_exportData|].
    unfold restoredFrom. simpl. rewrite bool_decide_eq_true_2 by done.
    split; [reflexivity|congruence].
Qed.

(** A document with a zero, an empty string and an empty array, imported
    into [trackedState]: the points and the vision stay, the log is
    emptied. *)
Lemma importData_skips_falsy_witness :
  let text := Text.dq "{'points': 0, 'vision': '', 'entries': []}" in
  let st := addEntry 1767225600000 (setNewEntry "walked" (setVision "ship it" trackedState)) in
  ∃ st', importData text st = Restored st'
    ∧ entries st ≠ [] ∧ points st' = 3 ∧ vision st' = "ship it" ∧ entries st' = [].
Proof.
  eexists. split; [vm_compute; reflexivity|].
  destruct (proj1 importData_skips_falsy
              (Text.dq "{'points': 0, 'vision': '', 'entries': []}")
              [("points", JSON.JNum 0 0); ("vision", JSON.JStr "");
               ("entries", JSON.JArr [])]
              (addEntry 1767225600000
                 (setNewEntry "walked" (setVision "ship it" trackedState)))
              _ eq_refl eq_refl) as (Hp & Hv & He).
  split; [discriminate|].
  split; [exact (Hp eq_refl)|]. split; [exact (Hv eq_refl)|exact (He eq_refl)].
Defined.

(* ===================================================================== *)
(** * Further properties *)
(* ===================================================================== *)

(** ** The timer *)

Section TimerFacts.
Variables (tzOffset : Z) (dateLabel : Z -> string).
Abbreviation step := (dispatch tzOffset dateLabel).
Abbreviation runAll := (run tzOffset dateLabel).

Lemma run_cons na acts c :
  runAll (na :: acts) c = runAll acts (step na.1 na.2 c).
Proof. reflexivity. Qed.

Lemma run_app acts1 acts2 c :
  runAll (acts1 ++ acts2) c = runAll acts2 (runAll acts1 c).
Proof. unfold run. by rewrite foldl_app. Qed.

(** An action other than those of the timer leaves the timer alone. *)
Lemma handle_timer now a c :
  a ≠ SecondPasses → a ≠ PressStartPause → a ≠ PressReset →
  timeLeft (handle tzOffset dateLabel now a c) = timeLeft c
  ∧ isActive (handle tzOffset dateLabel now a c) = isActive c.
Proof.
  intros H1 H2 H3. destruct a; try done; simpl;
    unfold addMiniGoal, addIfThen, toggleReminders;
    repeat case_match; done.
Qed.

Lemma afterRender_same now c c' :
  isActive c' = isActive c → timeLeft c' = timeLeft c → afterRender now c c' = c'.
Proof. intros H1 H2. unfold afterRender. by rewrite bool_decide_eq_true_2. Qed.

Lemma dispatch_other now a c :
  a ≠ SecondPasses → a ≠ PressStartPause → a ≠ PressReset →
  step now a c = handle tzOffset dateLabel now a c.
Proof.
  intros H1 H2 H3. destruct (handle_timer now a c H1 H2 H3) as [Ht Ha].
  by apply afterRender_same.
Qed.

(** A second on a running timer with more than one second left. *)
Lemma dispatch_second_running now c :
  isActive c = true → 1 < timeLeft c →
  step now SecondPasses c = setTimeLeft (timeLeft c - 1) c.
Proof.
  intros Ha Ht. unfold dispatch, handle, intervalRuns. rewrite Ha. simpl.
  replace (0 <? timeLeft c) with true by (symmetry; apply Z.ltb_lt; lia).
  unfold afterRender, intervalTick. rewrite bool_decide_eq_false_2 by (simpl; lia).
  unfold timerEffect, intervalRuns. simpl. rewrite Ha. simpl.
  by replace (0 <? timeLeft c - 1) with true by (symmetry; apply Z.ltb_lt; lia).
Qed.

(** The last second of a running timer. *)
Lemma dispatch_second_last now c :
  isActive c = true → timeLeft c = 1 →
  step now SecondPasses c = handleTimerComplete now c.
Proof.
  intros Ha Ht. unfold dispatch, handle, intervalRuns. rewrite Ha, Ht. simpl.
  unfold afterRender, intervalTick. rewrite bool_decide_eq_false_2 by (simpl; lia).
  unfold timerEffect, intervalRuns. simpl. rewrite Ha, Ht. simpl.
  unfold handleTimerComplete. simpl. reflexivity.
Qed.

(** A second on a timer that does not run. *)
Lemma dispatch_second_idle now c :
  intervalRuns c = false → step now SecondPasses c = c.
Proof.
  intros Hr. unfold dispatch, handle. rewrite Hr. by apply afterRender_same.
Qed.

Lemma dispatch_toggle now c :
  TimerAtRest c → step now PressStartPause c = toggleTimer c.
Proof.
  intros [Hlo Hhi]. unfold dispatch, handle, afterRender.
  rewrite bool_decide_eq_false_2 by (simpl; intros [H _]; by destruct (isActive c)).
  unfold timerEffect, intervalRuns, toggleTimer. simpl.
  replace (0 <? timeLeft c) with true by (symmetry; apply Z.ltb_lt; lia).
  replace (timeLeft c =? 0) with false by (symmetry; apply Z.eqb_neq; lia).
  by destruct (isActive c).
Qed.

Lemma dispatch_reset now c : step now PressReset c = resetTimer c.
Proof.
  unfold dispatch, handle, afterRender. case_bool_decide; [done|].
  unfold timerEffect, intervalRuns, resetTimer. simpl. reflexivity.
Qed.

Lemma dispatch_rest now a c : TimerAtRest c → TimerAtRest (step now a c).
Proof.
  intros Hr. pose proof Hr as [Hlo Hhi]. unfold TIMER_DURATION in *.
  destruct (decide (a = SecondPasses)) as [->|H1].
  { destruct (intervalRuns c) eqn:Hruns.
    - unfold intervalRuns in Hruns. apply andb_prop in Hruns as [Ha _].
      destruct (decide (timeLeft c = 1)) as [H1|H1].
      + rewrite dispatch_second_last by done. unfold TimerAtRest. simpl. done.
      + rewrite dispatch_second_running by (done || lia).
        unfold TimerAtRest, TIMER_DURATION. simpl. lia.
    - by rewrite dispatch_second_idle. }
  destruct (decide (a = PressStartPause)) as [->|H2].
  { rewrite dispatch_toggle by done. exact Hr. }
  destruct (decide (a = PressReset)) as [->|H3].
  { rewrite dispatch_reset. unfold TimerAtRest. simpl. done. }
  rewrite dispatch_other by done.
  destruct (handle_timer now a c H1 H2 H3) as [Ht _].
  unfold TimerAtRest. rewrite Ht. exact Hr.
Qed.

End TimerFacts.

(** X1. Whatever the user does and however long it takes, the timer never
    rests below one second or above the full five minutes. *)
Theorem timer_stays_in_range (tzOffset : Z) (dateLabel : Z -> string)
    (acts : list (Z * Action)) (c : Component) :
  TimerAtRest c → TimerAtRest (run tzOffset dateLabel acts c).
Proof.
  revert c. induction acts as [|[now a] acts IH]; intros c Hr; [exact Hr|].
  rewrite run_cons. apply IH. by apply dispatch_rest.
Qed.

Lemma timer_stays_in_range_witness :
  TimerAtRest initialComponent
  ∧ TimerAtRest (run 0 pretty
                   [(1000, PressStartPause); (2000, SecondPasses); (3000, SecondPasses);
                    (3500, PressStartPause); (4000, SecondPasses)]
                   initialComponent).
Proof.
  assert (TimerAtRest initialComponent) as H by (unfold TimerAtRest; simpl; done).
  split; [exact H|]. apply (timer_stays_in_range 0 pretty _ _ H).
Defined.

Section SessionFacts.
Variables (tzOffset : Z) (dateLabel : Z -> string).
Abbreviation step := (dispatch tzOffset dateLabel).
Abbreviation runAll := (run tzOffset dateLabel).
Abbreviation handler := (handle tzOffset dateLabel).

Ltac handlers :=
  unfold handle, onEngine, addMiniGoal, addIfThen, applyPreset, deleteIfThen,
    deleteMiniGoal, toggleMiniGoal, selectTheme, toggleReminders, editFutureCost,
    addEntry, deleteEntry, toggleHabit, checkReset, toggleTimer, resetTimer,
    intervalTick.

(** The render after an action completes a session, or changes nothing. *)
Lemma dispatch_cases now a c :
  step now a c = handler now a c
  ∨ step now a c = handleTimerComplete now (handler now a c).
Proof.
  unfold dispatch, afterRender, timerEffect. repeat case_match; auto.
Qed.

(** At rest only the last second of a running timer completes a session. *)
Lemma dispatch_rest_cases now a c :
  TimerAtRest c →
  step now a c = handler now a c
  ∨ (a = SecondPasses ∧ isActive c = true ∧ timeLeft c = 1
     ∧ step now a c = handleTimerComplete now c).
Proof.
  intros Hr. pose proof Hr as [Hlo Hhi].
  destruct (decide (a = SecondPasses)) as [->|H1].
  { destruct (intervalRuns c) eqn:Hruns.
    - pose proof Hruns as Hruns'.
      unfold intervalRuns in Hruns'. apply andb_prop in Hruns' as [Ha _].
      destruct (decide (timeLeft c = 1)) as [H1|H1].
      + right. by rewrite dispatch_second_last.
      + left. rewrite dispatch_second_running by (done || lia).
        unfold handle. by rewrite Hruns.
    - left. rewrite dispatch_second_idle by done. unfold handle. by rewrite Hruns. }
  left.
  destruct (decide (a = PressStartPause)) as [->|H2]; [by rewrite dispatch_toggle|].
  destruct (decide (a = PressReset)) as [->|H3]; [by rewrite dispatch_reset|].
  by rewrite dispatch_other.
Qed.

(** No handler touches the points or the session counter; none lowers a
    counter. *)
Lemma handle_counters now a c :
  points (engine (handler now a c)) = points (engine c)
  ∧ timerSessions (analytics (engine (handler now a c)))
    = timerSessions (analytics (engine c))
  ∧ CountersLe (engine c) (engine (handler now a c)).
Proof.
  unfold CountersLe.
  destruct a; handlers; repeat case_match; simpl; split_and!; lia.
Qed.

Lemma handleTimerComplete_counters now c :
  points (engine (handleTimerComplete now c)) = points (engine c) + 1
  ∧ timerSessions (analytics (engine (handleTimerComplete now c)))
    = timerSessions (analytics (engine c)) + 1
  ∧ CountersLe (engine c) (engine (handleTimerComplete now c)).
Proof. unfold CountersLe. simpl. split_and!; lia. Qed.

Lemma dispatch_counters now a c :
  points (engine (step now a c)) - timerSessions (analytics (engine (step now a c)))
  = points (engine c) - timerSessions (analytics (engine c))
  ∧ CountersLe (engine c) (engine (step now a c)).
Proof.
  destruct (handle_counters now a c) as (Hp & Hs & Hle).
  destruct (dispatch_cases now a c) as [-> | ->].
  - split; [lia|done].
  - destruct (handleTimerComplete_counters now (handler now a c)) as (Hp' & Hs' & Hle').
    split; [lia|]. unfold CountersLe in *. lia.
Qed.

Lemma run_counters acts : ∀ c,
  points (engine (runAll acts c)) - timerSessions (analytics (engine (runAll acts c)))
  = points (engine c) - timerSessions (analytics (engine c))
  ∧ CountersLe (engine c) (engine (runAll acts c)).
Proof.
  induction acts as [|[now a] acts IH]; intros c.
  - unfold CountersLe. simpl. lia.
  - rewrite run_cons. destruct (IH (step now a c)) as [H1 H2].
    destruct (dispatch_counters now a c) as [H3 H4]. simpl.
    split; [lia|]. unfold CountersLe in *. lia.
Qed.

(** While no second passes, a timer at rest stays at rest and the points
    stay as they are. *)
Lemma run_no_seconds acts : ∀ c,
  TimerAtRest c → Forall (fun na => na.2 ≠ SecondPasses) acts →
  points (engine (runAll acts c)) = points (engine c).
Proof.
  induction acts as [|[now a] acts IH]; intros c Hr Hall; [reflexivity|].
  apply Forall_cons in Hall as [Ha Hall]. rewrite run_cons.
  rewrite IH; [|by apply dispatch_rest|done]. simpl in *.
  destruct (dispatch_rest_cases now a c Hr) as [-> | (? & _)]; [|done].
  apply handle_counters.
Qed.

(** A running timer counts down, one second at a time. *)
Lemma run_seconds nows : ∀ c,
  isActive c = true → Z.of_nat (length nows) < timeLeft c →
  runAll (seconds nows) c = setTimeLeft (timeLeft c - Z.of_nat (length nows)) c.
Proof.
  induction nows as [|now nows IH]; intros c Ha Hlen.
  - simpl. rewrite Z.sub_0_r. by destruct c.
  - simpl length in *. change (seconds (now :: nows)) with ((now, SecondPasses) :: seconds nows).
    rewrite run_cons. simpl fst. simpl snd.
    rewrite dispatch_second_running by (done || lia).
    rewrite IH by (simpl; (done || lia)). simpl. unfold setTimeLeft. simpl.
    f_equal. lia.
Qed.

End SessionFacts.

(** X2. A timer that runs with [n] seconds left shows [n - k] after [k]
    seconds, for [k < n], and nothing else has changed; the [n]-th second
    completes the session: one point, one timer session, an entry at the
    head of the log, the timer back at five minutes and stopped. *)
Theorem timer_countdown (tzOffset : Z) (dateLabel : Z -> string)
    (c : Component) (nows : list Z) (last : Z) :
  isActive c = true →
  1 ≤ timeLeft c →
  (Z.of_nat (length nows) < timeLeft c →
   run tzOffset dateLabel (seconds nows) c
   = setTimeLeft (timeLeft c - Z.of_nat (length nows)) c)
  ∧ (Z.of_nat (length nows) + 1 = timeLeft c →
     let c' := run tzOffset dateLabel (seconds (nows ++ [last])) c in
     c' = handleTimerComplete last c
     ∧ points (engine c') = points (engine c) + 1
     ∧ timerSessions (analytics (engine c')) = timerSessions (analytics (engine c)) + 1
     ∧ entries (engine c')
       = mkActivityEntry (Text.ofInt last) "Completed 5-Minute Action Burst" last
           :: entries (engine c)
     ∧ timeLeft c' = TIMER_DURATION ∧ isActive c' = false).
Proof.
  intros Ha Ht. split.
  - intros Hlen. by apply run_seconds.
  - intros Hlen c'.
    assert (c' = handleTimerComplete last c) as ->; [|by split_and!].
    unfold c', seconds. rewrite map_app, run_app.
    fold (seconds nows).
    rewrite (run_seconds tzOffset dateLabel nows c) by (done || lia).
    simpl map. rewrite run_cons. simpl fst. simpl snd.
    rewrite dispatch_second_last by (simpl; (done || lia)).
    reflexivity.
Qed.

Lemma timer_countdown_witness :
  let c := toggleTimer (setTimeLeft 3 initialComponent) in
  run 0 pretty (seconds [1000; 2000]) c = setTimeLeft 1 c
  ∧ points (engine (run 0 pretty (seconds [1000; 2000; 3000]) c)) = 1
  ∧ timeLeft (run 0 pretty (seconds [1000; 2000; 3000]) c) = 300.
Proof.
  pose proof (timer_countdown 0 pretty (toggleTimer (setTimeLeft 3 initialComponent))
                [1000; 2000] 3000 eq_refl) as H.
  destruct H as [H1 H2]; [simpl; lia|].
  split_and!.
  - apply H1. simpl. lia.
  - apply H2. reflexivity.
  - apply H2. reflexivity.
Defined.

(** X3. Points are earned by completed timer sessions and by nothing else:
    along every session of use the points and the counter of timer
    sessions grow together, neither ever falls, and while no second passes
    on the timer the points stay as they are. *)
Theorem points_follow_sessions (tzOffset : Z) (dateLabel : Z -> string)
    (acts : list (Z * Action)) (c : Component) :
  let c' := run tzOffset dateLabel acts c in
  points (engine c') - points (engine c)
  = timerSessions (analytics (engine c')) - timerSessions (analytics (engine c))
  ∧ points (engine c) ≤ points (engine c')
  ∧ (TimerAtRest c → Forall (fun na => na.2 ≠ SecondPasses) acts →
     points (engine c') = points (engine c)).
Proof.
  intros c'. destruct (run_counters tzOffset dateLabel acts c) as [H1 H2].
  split_and!.
  - unfold c'. lia.
  - apply H2.
  - intros Hr Hall. by apply run_no_seconds.
Qed.

(** X4. No counter of the analytics panel falls in a session of use, the
    import of a backup aside (it is no action of a session, and it stores
    the counters of the backup): deleting a goal or a plan, or taking back
    a habit, leaves the count of what was created or completed as it is. *)
Theorem counters_never_fall (tzOffset : Z) (dateLabel : Z -> string)
    (acts : list (Z * Action)) (c : Component) :
  CountersLe (engine c) (engine (run tzOffset dateLabel acts c)).
Proof. apply run_counters. Qed.

(** ** [trim] *)

Module TrimFacts.
Import Text.

Lemma trimStart_step s :
  trimStart s = match wsToken s with Some r => trimStart r | None => s end.
Proof.
  destruct s as [|c r]; [reflexivity|]. cbn [trimStart wsToken].
  destruct (isWs1 c); [reflexivity|]. destruct r as [|c2 r2]; [reflexivity|].
  case_match; [reflexivity|]. destruct r2 as [|c3 r3]; [reflexivity|].
  by case_match.
Qed.

Lemma wsToken_shorter s r : wsToken s = Some r → (String.length r < String.length s)%nat.
Proof.
  destruct s as [|c [|c2 [|c3 r3]]]; simpl; repeat case_match; intros [= <-]; simpl; lia.
Qed.

Lemma wsToken_app s r y : wsToken s = Some r → wsToken (s +:+ y) = Some (r +:+ y).
Proof.
  destruct s as [|c [|c2 [|c3 r3]]]; simpl; repeat case_match; intros [= <-];
    try reflexivity; simplify_eq.
Qed.

Lemma trimStart_shape s :
  trimStart s = "" ∨ wsToken (trimStart s) = None.
Proof.
  remember (String.length s) as n eqn:Hn. revert s Hn.
  induction (lt_wf n) as [n _ IH]. intros s ->.
  rewrite trimStart_step. destruct (wsToken s) as [r|] eqn:Hw.
  - apply (IH (String.length r)); [by apply wsToken_shorter|reflexivity].
  - destruct s; [by left|by right].
Qed.

Lemma trimStart_fixed s : wsToken s = None → trimStart s = s.
Proof. intros H. by rewrite trimStart_step, H. Qed.

(** What is blank stays out of the way of what follows. *)
Lemma trimStart_blank_app x y : trimStart x = "" → trimStart (x +:+ y) = trimStart y.
Proof.
  remember (String.length x) as n eqn:Hn. revert x Hn.
  induction (lt_wf n) as [n _ IH]. intros x -> Hb.
  destruct x as [|c x]; [reflexivity|].
  rewrite trimStart_step in Hb. destruct (wsToken (String c x)) as [r|] eqn:Hw; [|done].
  rewrite trimStart_step, (wsToken_app _ _ y Hw).
  apply (IH (String.length r)); [by apply wsToken_shorter|reflexivity|done].
Qed.

(** [trimEnd] cuts off a blank end. *)
Lemma trimEnd_cut s : ∃ b, s = trimEnd s +:+ b ∧ trimStart b = "".
Proof.
  induction s as [|c s IH]; [by exists ""|].
  cbn [trimEnd]. unfold isBlank. case_bool_decide as Hb.
  - by exists (String c s).
  - destruct IH as (b & Hs & Hblank). exists b. split; [|done].
    change (String c (trimEnd s) +:+ b) with (String c (trimEnd s +:+ b)). by rewrite <- Hs.
Qed.

Lemma trimEnd_nonblank c s :
  trimStart (String c s) ≠ "" → trimEnd (String c s) = String c (trimEnd s).
Proof. intros H. cbn [trimEnd]. unfold isBlank. by rewrite bool_decide_eq_false_2. Qed.

Lemma trimEnd_blank s : trimStart s = "" → trimEnd s = "".
Proof.
  intros H. destruct s; [done|]. cbn [trimEnd]. unfold isBlank.
  by rewrite bool_decide_eq_true_2.
Qed.

Lemma trimEnd_keeps_nonblank c s :
  trimStart (String c s) ≠ "" → trimStart (String c (trimEnd s)) ≠ "".
Proof.
  intros Hn Hb. apply Hn. destruct (trimEnd_cut s) as (b & Hs & Hblank).
  rewrite Hs at 1. change (String c (trimEnd s +:+ b)) with (String c (trimEnd s) +:+ b).
  by rewrite trimStart_blank_app.
Qed.

Lemma trimEnd_idemp s : trimEnd (trimEnd s) = trimEnd s.
Proof.
  induction s as [|c s IH]; [reflexivity|].
  destruct (decide (trimStart (String c s) = "")) as [Hb|Hn].
  - by rewrite (trimEnd_blank _ Hb).
  - rewrite (trimEnd_nonblank _ _ Hn).
    rewrite (trimEnd_nonblank _ _ (trimEnd_keeps_nonblank _ _ Hn)). by rewrite IH.
Qed.

(** Cutting the end off a string that starts with no white space leaves
    one that starts with none. *)
Lemma wsToken_trimEnd s : wsToken s = None → wsToken (trimEnd s) = None.
Proof.
  intros Hw. destruct s as [|c r]; [reflexivity|].
  assert (trimStart (String c r) ≠ "") as Hn by (by rewrite trimStart_fixed).
  rewrite (trimEnd_nonblank _ _ Hn).
  cbn [wsToken] in *. destruct (isWs1 c); [done|].
  destruct r as [|c2 r2]; [reflexivity|].
  destruct (trimEnd (String c2 r2)) as [|d2 t2] eqn:Ht; [reflexivity|].
  cbn [trimEnd] in Ht. case_match; [done|]. injection Ht as <- <-.
  case_match; [done|].
  destruct r2 as [|c3 r3]; [reflexivity|].
  destruct (trimEnd (String c3 r3)) as [|d3 t3] eqn:Ht; [reflexivity|].
  cbn [trimEnd] in Ht. case_match; [done|]. injection Ht as <- <-.
  by case_match.
Qed.

Theorem trim_idemp s : trim (trim s) = trim s.
Proof.
  unfold trim.
  assert (trimStart (trimEnd (trimStart s)) = trimEnd (trimStart s)) as ->.
  { destruct (trimStart_shape s) as [-> | Hw]; [reflexivity|].
    apply trimStart_fixed. by apply wsToken_trimEnd. }
  apply trimEnd_idemp.
Qed.

(** A text is rejected as empty exactly when it is blank. *)
Lemma trim_empty s : trim s = "" ↔ trimStart s = "".
Proof.
  unfold trim. split.
  - intros H. destruct (trimStart_shape s) as [Hs | Hw]; [done|].
    destruct (trimStart s) as [|c r] eqn:Hs; [done|].
    rewrite trimEnd_nonblank in H; [done|]. by rewrite trimStart_fixed.
  - intros ->. reflexivity.
Qed.

End TrimFacts.

(** ** What every session of use keeps *)

Section KeptFacts.
Variables (tzOffset : Z) (dateLabel : Z -> string).
Abbreviation step := (dispatch tzOffset dateLabel).
Abbreviation runAll := (run tzOffset dateLabel).
Abbreviation handler := (handle tzOffset dateLabel).

Ltac handlers :=
  unfold handle, onEngine, addMiniGoal, addIfThen, applyPreset, deleteIfThen,
    deleteMiniGoal, toggleMiniGoal, selectTheme, toggleReminders, editFutureCost,
    addEntry, deleteEntry, toggleHabit, checkReset, toggleTimer, resetTimer,
    intervalTick.

(** A property of the engine state that every handler and the completion
    of a session keep is kept by every session of use. *)
Lemma run_keeps (P : State -> Prop) :
  (∀ now a c, P (engine c) → P (engine (handler now a c))) →
  (∀ now c, P (engine c) → P (engine (handleTimerComplete now c))) →
  ∀ acts c, P (engine c) → P (engine (runAll acts c)).
Proof.
  intros Hh Hc acts. induction acts as [|[now a] acts IH]; intros c HP; [exact HP|].
  rewrite run_cons. apply IH. simpl.
  destruct (dispatch_cases tzOffset dateLabel now a c) as [-> | ->]; auto.
Qed.

Lemma trim_Trimmed s : Text.trim s ≠ "" → Trimmed (Text.trim s).
Proof. intros H. split; [exact H|apply TrimFacts.trim_idemp]. Qed.

Lemma handle_LogTidy now a c : LogTidy (engine c) → LogTidy (engine (handler now a c)).
Proof.
  unfold LogTidy. intros H.
  destruct a; handlers; repeat case_match; simpl; try exact H.
  - constructor; [|exact H].
    apply trim_Trimmed. by eapply bool_decide_eq_false_1.
  - by apply Forall_filter_keep.
Qed.

Lemma complete_LogTidy now c :
  LogTidy (engine c) → LogTidy (engine (handleTimerComplete now c)).
Proof.
  unfold LogTidy. intros H. simpl. constructor; [|exact H].
  split; [done|reflexivity].
Qed.

Lemma handle_GoalsTidy now a c : GoalsTidy (engine c) → GoalsTidy (engine (handler now a c)).
Proof.
  unfold GoalsTidy. intros [H Hn].
  destruct a; handlers; repeat case_match; simpl; try (split; [exact H|lia]).
  - split.
    + apply Forall_app. split; [exact H|]. constructor; [|constructor].
      apply trim_Trimmed. by eapply bool_decide_eq_false_1.
    + rewrite length_app. simpl. lia.
  - split.
    + apply List.Forall_forall. intros g Hg. apply in_map_iff in Hg as (g' & <- & Hg').
      rewrite List.Forall_forall in H. case_bool_decide; simpl; by apply H.
    + rewrite length_map. lia.
  - split; [by apply Forall_filter_keep|].
    pose proof (length_filter (fun g => goalId g ≠ id) (miniGoals (engine c))). lia.
Qed.

Lemma complete_GoalsTidy now c :
  GoalsTidy (engine c) → GoalsTidy (engine (handleTimerComplete now c)).
Proof. unfold GoalsTidy. by intros [H Hn]. Qed.

Lemma preset_Trimmed p :
  p ∈ IF_THEN_PRESETS → Trimmed (formTrigger p) ∧ Trimmed (formAction p).
Proof.
  unfold IF_THEN_PRESETS. intros Hp.
  repeat (apply elem_of_cons in Hp as [->|Hp]; [by repeat split|]).
  by apply elem_of_nil in Hp.
Qed.

Lemma handle_PlansTidy now a c : PlansTidy (engine c) → PlansTidy (engine (handler now a c)).
Proof.
  unfold PlansTidy. intros [H Hn].
  destruct a; handlers; repeat case_match; simpl; try (split; [exact H|lia]).
  - match goal with Hor : _ || _ = false |- _ =>
      apply orb_false_elim in Hor as [H1 H2] end.
    apply bool_decide_eq_false in H1, H2. split.
    + apply Forall_app. split; [exact H|]. constructor; [|constructor].
      split; by apply trim_Trimmed.
    + rewrite length_app. simpl. lia.
  - split.
    + apply Forall_app. split; [exact H|]. constructor; [|constructor].
      apply preset_Trimmed. by eapply list_elem_of_lookup_2.
    + rewrite length_app. simpl. lia.
  - split; [by apply Forall_filter_keep|].
    pose proof (length_filter (fun p => planId p ≠ id) (ifThenPlans (engine c))). lia.
Qed.

Lemma complete_PlansTidy now c :
  PlansTidy (engine c) → PlansTidy (engine (handleTimerComplete now c)).
Proof. unfold PlansTidy. by intros [H Hn]. Qed.

Lemma handle_ThemeUnlocked now a c :
  ThemeUnlocked (engine c) → ThemeUnlocked (engine (handler now a c)).
Proof.
  unfold ThemeUnlocked. intros (t & Ht & Hcol & Hpts).
  destruct a; handlers; repeat case_match; simpl; try (by exists t).
  match goal with Hl : THEMES !! _ = Some ?u, Hle : (_ <=? _) = true |- _ =>
    exists u; split_and!; [by eapply list_elem_of_lookup_2|reflexivity|by apply Z.leb_le] end.
Qed.

Lemma complete_ThemeUnlocked now c :
  ThemeUnlocked (engine c) → ThemeUnlocked (engine (handleTimerComplete now c)).
Proof.
  unfold ThemeUnlocked. intros (t & Ht & Hcol & Hpts). exists t. simpl. split_and!; [done..|lia].
Qed.

Lemma handle_habitNames now a c :
  habitNames (engine (handler now a c)) = habitNames (engine c).
Proof.
  unfold habitNames.
  destruct a; handlers; repeat case_match; simpl; try reflexivity;
    rewrite map_map; apply map_ext; intros ?; simpl; by repeat case_match.
Qed.

End KeptFacts.

(** X5. In a session of use, the import of a backup aside, every entry of
    the activity log keeps a text that is not empty and has no white space
    left to trim at either end. *)
Theorem log_stays_tidy (tzOffset : Z) (dateLabel : Z -> string)
    (acts : list (Z * Action)) (c : Component) :
  LogTidy (engine c) → LogTidy (engine (run tzOffset dateLabel acts c)).
Proof.
  apply (run_keeps tzOffset dateLabel LogTidy).
  - apply handle_LogTidy.
  - apply complete_LogTidy.
Qed.

Lemma log_stays_tidy_witness :
  LogTidy (engine initialComponent)
  ∧ LogTidy (engine (run 0 pretty [(5, TypeEntry "  ran 5k "); (6, SubmitEntry)]
                       initialComponent)).
Proof.
  assert (LogTidy (engine initialComponent)) as H by constructor.
  split; [exact H|]. apply (log_stays_tidy 0 pretty _ _ H).
Defined.

(** X6. In a session of use, the import of a backup aside, every mini-goal
    keeps a trimmed, non-empty text, and the counter of created goals stays
    at or above the number of goals in the list: it counts creations and is
    not lowered by a deletion. *)
Theorem goals_stay_tidy (tzOffset : Z) (dateLabel : Z -> string)
    (acts : list (Z * Action)) (c : Component) :
  GoalsTidy (engine c) → GoalsTidy (engine (run tzOffset dateLabel acts c)).
Proof.
  apply (run_keeps tzOffset dateLabel GoalsTidy).
  - apply handle_GoalsTidy.
  - apply complete_GoalsTidy.
Qed.

Lemma goals_stay_tidy_witness :
  GoalsTidy (engine initialComponent)
  ∧ GoalsTidy (engine (run 0 pretty
                         [(5, TypeGoalText " save 100 "); (6, SubmitGoal);
                          (7, PressDeleteGoal "6")]
                         initialComponent)).
Proof.
  assert (GoalsTidy (engine initialComponent)) as H by (split; [constructor|done]).
  split; [exact H|]. apply (goals_stay_tidy 0 pretty _ _ H).
Defined.

(** X7. In a session of use, the import of a backup aside, every If-Then
    plan, typed in or taken from a preset, keeps a trimmed, non-empty
    trigger and action, and the counter of created plans stays at or above
    the number of plans. *)
Theorem plans_stay_tidy (tzOffset : Z) (dateLabel : Z -> string)
    (acts : list (Z * Action)) (c : Component) :
  PlansTidy (engine c) → PlansTidy (engine (run tzOffset dateLabel acts c)).
Proof.
  apply (run_keeps tzOffset dateLabel PlansTidy).
  - apply handle_PlansTidy.
  - apply complete_PlansTidy.
Qed.

Lemma plans_stay_tidy_witness :
  PlansTidy (engine initialComponent)
  ∧ PlansTidy (engine (run 0 pretty
                         [(5, PressPreset 2); (6, TypeTrigger "x"); (7, SubmitPlan)]
                         initialComponent)).
Proof.
  assert (PlansTidy (engine initialComponent)) as H by (split; [constructor|done]).
  split; [exact H|]. apply (plans_stay_tidy 0 pretty _ _ H).
Defined.

(** X8. The active theme is always one that the points have unlocked: a
    locked theme cannot be chosen, and points are never taken away. *)
Theorem theme_stays_unlocked (tzOffset : Z) (dateLabel : Z -> string)
    (acts : list (Z * Action)) (c : Component) :
  ThemeUnlocked (engine c) → ThemeUnlocked (engine (run tzOffset dateLabel acts c)).
Proof.
  apply (run_keeps tzOffset dateLabel ThemeUnlocked).
  - apply handle_ThemeUnlocked.
  - apply complete_ThemeUnlocked.
Qed.

Lemma theme_stays_unlocked_witness :
  ThemeUnlocked (engine initialComponent)
  ∧ ThemeUnlocked (engine (run 0 pretty [(5, PressTheme 1); (6, PressTheme 0)]
                             initialComponent)).
Proof.
  assert (ThemeUnlocked (engine initialComponent)) as H.
  { exists (mkTheme "Matrix Green" "#00FF41" 0). split_and!; [by left|reflexivity|done]. }
  split; [exact H|]. apply (theme_stays_unlocked 0 pretty _ _ H).
Defined.

(** X9. No action of a session adds, removes, renames or reorders a habit;
    only the import of a backup, which is no such action, replaces the
    list.  Along every session of use the list of habit ids and labels is
    the one at the start, whatever happens to the completed flags. *)
Theorem habit_list_is_fixed (tzOffset : Z) (dateLabel : Z -> string)
    (acts : list (Z * Action)) (c : Component) :
  habitNames (engine (run tzOffset dateLabel acts c)) = habitNames (engine c).
Proof.
  apply (run_keeps tzOffset dateLabel
           (fun st => habitNames st = habitNames (engine c))); [..|reflexivity].
  - intros now a c' H. by rewrite handle_habitNames.
  - intros now c' H. exact H.
Qed.

(** ** Days and counts *)

Section DayFacts.
Variables (tzOffset : Z) (dateLabel : Z -> string).
Abbreviation dateOf := (fun e => toDateString tzOffset dateLabel (entryTimestamp e)).
Abbreviation amStep :=
  (fun (m : gmap string Z) entry =>
     <[dateOf entry := default 0 (m !! dateOf entry) + 1]> m).
Abbreviation onDay := (loggedActions tzOffset dateLabel).
Abbreviation counts := (activityMap tzOffset dateLabel).

Lemma foldl_amStep_lookup es : ∀ m d,
  foldl amStep m es !! d =
  match length (onDay d es) with
  | O => m !! d
  | S n => Some (default 0 (m !! d) + Z.of_nat (S n))
  end.
Proof.
  induction es as [|e es IH]; intros m d; [reflexivity|].
  cbn [foldl]. rewrite IH. unfold loggedActions. rewrite filter_cons.
  destruct (decide (dateOf e = d)) as [Heq|Hne].
  - rewrite Heq, lookup_insert_eq. cbn [length default]. unfold id.
    destruct (length _); f_equal; lia.
  - by rewrite lookup_insert_ne.
Qed.

(** The count of a day is the number of entries of that day; a day without
    entries has no count. *)
Lemma activityMap_lookup es d :
  counts es !! d =
  match length (onDay d es) with
  | O => None
  | S n => Some (Z.of_nat (S n))
  end.
Proof.
  unfold activityMap. rewrite foldl_amStep_lookup, lookup_empty.
  destruct (length _); [reflexivity|]. simpl. f_equal.
Qed.

Lemma activityMap_count es d :
  default 0 (counts es !! d) = Z.of_nat (length (onDay d es)).
Proof. rewrite activityMap_lookup. by destruct (length _). Qed.

Lemma onDay_nonempty es e : e ∈ es → length (onDay (dateOf e) es) ≠ 0%nat.
Proof.
  intros He Hz. apply length_zero_iff_nil in Hz.
  assert (e ∈ @nil ActivityEntry) as Hin; [|by apply elem_of_nil in Hin].
  rewrite <- Hz. unfold loggedActions. by apply list_elem_of_filter.
Qed.

Lemma distinct_NoDup (l : list string) : NoDup (distinct l).
Proof.
  induction l as [|x l IH]; simpl; constructor.
  - rewrite list_elem_of_filter. intros [Hne _]. by apply Hne.
  - by apply NoDup_filter.
Qed.

(** [Object.entries (activityMap)] lists every day of the log once, with
    the number of its entries. *)
Lemma activityEntries_counts es :
  activityEntries tzOffset dateLabel es =
  map (fun d => (d, Z.of_nat (length (onDay d es)))) (distinct (map dateOf es)).
Proof.
  unfold activityEntries.
  assert (∀ ds : list string, (∀ d, d ∈ ds → d ∈ map dateOf es) →
    omap (fun d => pair d <$> counts es !! d) ds
    = map (fun d => (d, Z.of_nat (length (onDay d es)))) ds) as H.
  { induction ds as [|d ds IH]; intros Hin; [reflexivity|].
    cbn [omap list_omap map]. rewrite IH by (intros; apply Hin; by right).
    rewrite activityMap_lookup.
    destruct (length (onDay d es)) eqn:Hlen; [|reflexivity].
    exfalso. assert (d ∈ map dateOf es) as Hd by (apply Hin; by left).
    apply list_elem_of_In, in_map_iff in Hd as (e & <- & He).
    by apply (onDay_nonempty es e); [apply list_elem_of_In|]. }
  apply H. intros d. by rewrite elem_of_distinct.
Qed.

Lemma activityEntries_keys es :
  map fst (activityEntries tzOffset dateLabel es) = distinct (map dateOf es).
Proof. rewrite activityEntries_counts, map_map. cbn [fst]. apply map_id. Qed.

(** The ordered view and the map hold the same days and counts. *)
Lemma activityEntries_map es :
  list_to_map (activityEntries tzOffset dateLabel es) = counts es.
Proof.
  apply map_eq. intros d. rewrite activityEntries_counts.
  destruct (decide (d ∈ distinct (map dateOf es))) as [Hin|Hout].
  - assert (list_to_map (map (fun d => (d, Z.of_nat (length (onDay d es))))
                             (distinct (map dateOf es))) !! d
            = Some (Z.of_nat (length (onDay d es)))) as ->.
    { apply elem_of_list_to_map_1.
      - rewrite map_map. simpl. rewrite map_id. apply distinct_NoDup.
      - apply list_elem_of_In, in_map_iff. exists d. by rewrite <- list_elem_of_In. }
    rewrite activityMap_lookup.
    destruct (length (onDay d es)) eqn:Hlen; [|reflexivity].
    exfalso. apply elem_of_distinct, list_elem_of_In, in_map_iff in Hin as (e & <- & He).
    by apply (onDay_nonempty es e); [apply list_elem_of_In|].
  - rewrite (not_elem_of_list_to_map_1 _ d).
    2:{ rewrite <- list_fmap_compose.
        change (fst ∘ _) with (fun d : string => d).
        intros Hd. apply Hout. apply list_elem_of_fmap in Hd as (? & -> & ?). done. }
    rewrite activityMap_lookup.
    destruct (length (onDay d es)) eqn:Hlen; [reflexivity|].
    exfalso. apply Hout, elem_of_distinct.
    destruct (onDay d es) as [|e l] eqn:Hl; [done|].
    assert (e ∈ onDay d es) as He by (rewrite Hl; by left).
    apply list_elem_of_filter in He as [Hd He].
    apply list_elem_of_In, in_map_iff. exists e. by rewrite <- list_elem_of_In.
Qed.

(** Entries on the days of a duplicate-free list, day by day. *)
Lemma count_by_day es (ds : list string) :
  NoDup ds →
  foldr Z.add 0 (map (fun d => Z.of_nat (length (onDay d es))) ds)
  = Z.of_nat (length (filter (fun e => dateOf e ∈ ds) es)).
Proof.
  induction 1 as [|d ds Hd Hnd IH]; simpl.
  - induction es as [|e es IHes]; [reflexivity|].
    rewrite filter_cons. destruct (decide (dateOf e ∈ [])) as [Hin|_]; [|exact IHes].
    by apply elem_of_nil in Hin.
  - rewrite IH. clear IH. unfold loggedActions.
    induction es as [|e es IHes]; [reflexivity|].
    rewrite !filter_cons.
    destruct (decide (dateOf e = d)) as [Heq|Hne].
    + rewrite decide_False by (by rewrite Heq).
      rewrite decide_True by (rewrite Heq; by left). simpl length. lia.
    + destruct (decide (dateOf e ∈ ds)) as [Hin|Hout].
      * rewrite decide_True by (by right). simpl length. lia.
      * rewrite decide_False; [exact IHes|].
        intros [?|?]%elem_of_cons; done.
Qed.

Lemma totalCount_entries es :
  totalCount (activityEntries tzOffset dateLabel es) = Z.of_nat (length es).
Proof.
  unfold totalCount. rewrite activityEntries_counts, map_map. simpl.
  rewrite count_by_day by apply distinct_NoDup. do 2 f_equal.
  assert (∀ ds : list string, Forall (fun e => dateOf e ∈ ds) es →
            filter (fun e => dateOf e ∈ ds) es = es) as H.
  { intros ds. induction 1 as [|e l He Hl IH]; [reflexivity|].
    rewrite filter_cons, decide_True by done. by rewrite IH. }
  apply H, Forall_forall. intros e He. apply elem_of_distinct.
  apply list_elem_of_In, in_map_iff. exists e. by rewrite <- list_elem_of_In.
Qed.

End DayFacts.

(** X10. The daily summary and the heatmap agree: the colour of a cell is
    that of the number of actions which the summary of its date lists, and
    a date has a count in the activity map exactly when the summary lists
    an action for it. *)
Theorem summary_matches_heatmap (tzOffset : Z) (dateLabel : Z -> string)
    (entries : list ActivityEntry) :
  (∀ date,
     heatmapCell tzOffset dateLabel entries date =
     heatmapClasses
       (Z.of_nat (length (loggedActions tzOffset dateLabel
                            (toDateString tzOffset dateLabel date) entries))))
  ∧ (∀ selectedDate,
       default 0 (activityMap tzOffset dateLabel entries !! selectedDate)
       = Z.of_nat (length (loggedActions tzOffset dateLabel selectedDate entries)))
  ∧ (∀ selectedDate,
       activityMap tzOffset dateLabel entries !! selectedDate = None
       ↔ loggedActions tzOffset dateLabel selectedDate entries = []).
Proof.
  split_and!.
  - intros date. unfold heatmapCell. cbv zeta. by rewrite activityMap_count.
  - intros sel. apply activityMap_count.
  - intros sel. rewrite activityMap_lookup.
    destruct (loggedActions _ _ sel entries); simpl; split; done.
Qed.

(** X11. Every entry is counted on exactly one day: the counts of
    [Object.entries (activityMap)], whose days are the distinct date
    strings of the log in the order of their first entry, add up to the
    number of entries, and each count is at least one. *)
Theorem activity_counts_add_up (tzOffset : Z) (dateLabel : Z -> string)
    (entries : list ActivityEntry) :
  totalCount (activityEntries tzOffset dateLabel entries) = Z.of_nat (length entries)
  ∧ map fst (activityEntries tzOffset dateLabel entries)
    = distinct (map (fun e => toDateString tzOffset dateLabel (entryTimestamp e)) entries)
  ∧ NoDup (map fst (activityEntries tzOffset dateLabel entries))
  ∧ Forall (fun dc => 1 ≤ snd dc) (activityEntries tzOffset dateLabel entries)
  ∧ list_to_map (activityEntries tzOffset dateLabel entries)
    = activityMap tzOffset dateLabel entries.
Proof.
  assert (map fst (activityEntries tzOffset dateLabel entries)
    = distinct (map (fun e => toDateString tzOffset dateLabel (entryTimestamp e)) entries))
    as Hkeys.
  { apply activityEntries_keys. }
  split_and!.
  - apply totalCount_entries.
  - exact Hkeys.
  - rewrite Hkeys. apply distinct_NoDup.
  - apply Forall_forall. intros [d n] Hin. simpl.
    assert (activityMap tzOffset dateLabel entries !! d = Some n) as Hl.
    { rewrite <- activityEntries_map. apply elem_of_list_to_map_1; [|done].
      change (NoDup (map fst (activityEntries tzOffset dateLabel entries))).
      rewrite Hkeys. apply distinct_NoDup. }
    by eapply activityMap_positive.
  - apply activityEntries_map.
Qed.

(** ** The last days *)

Section WeekFacts.
Variables (tzOffset : Z) (dateLabel : Z -> string).
Hypothesis dateLabel_inj : Inj (=) (=) dateLabel.
Abbreviation dayOf := (localDay tzOffset).
Abbreviation dateString := (toDateString tzOffset dateLabel).

Lemma localDay_setDate t k : dayOf (setDate t k) = dayOf t + k.
Proof.
  unfold localDay, setDate, msPerDay.
  replace (t + k * 86400000 + tzOffset) with (t + tzOffset + k * 86400000) by lia.
  rewrite Z.div_add by lia. reflexivity.
Qed.

(** The entries of a date string are the entries of its day. *)
Lemma loggedActions_day d es :
  Z.of_nat (length (loggedActions tzOffset dateLabel (dateLabel d) es))
  = countOnDay tzOffset es d.
Proof.
  unfold countOnDay, loggedActions. do 2 f_equal.
  induction es as [|e es IH]; [reflexivity|]. rewrite !filter_cons, IH.
  unfold toDateString.
  destruct (decide (dayOf (entryTimestamp e) = d)) as [Heq|Hne].
  - by rewrite decide_True by (by rewrite Heq).
  - rewrite decide_False; [done|]. intros H. by apply dateLabel_inj in H.
Qed.

Lemma lastDays_days n now :
  map dayOf (lastDays n now) = map (fun i => dayOf now - Z.of_nat i) (rev (seq 0 n)).
Proof.
  unfold lastDays. rewrite map_map. apply map_ext. intros i.
  rewrite localDay_setDate. lia.
Qed.

(** The last [n] days are [n] different days. *)
Lemma lastDays_NoDup n now : NoDup (map dateString (lastDays n now)).
Proof.
  unfold lastDays. rewrite map_map.
  assert (Inj (=) (=) (fun i : nat => dateString (setDate now (- Z.of_nat i)))) as Hi.
  { intros i j Hij. unfold toDateString in Hij. apply dateLabel_inj in Hij.
    rewrite !localDay_setDate in Hij. lia. }
  apply (NoDup_fmap_2 (fun i : nat => dateString (setDate now (- Z.of_nat i)))).
  apply NoDup_ListNoDup, List.NoDup_rev, List.seq_NoDup.
Qed.

(** The counts of different days add up to no more than the log holds. *)
Lemma counts_bounded es (ts : list Z) :
  NoDup (map dateString ts) →
  foldr Z.add 0
    (map (fun t => default 0 (activityMap tzOffset dateLabel es !! dateString t)) ts)
  ≤ Z.of_nat (length es).
Proof.
  intros Hnd.
  replace (map (fun t => default 0 (activityMap tzOffset dateLabel es !! dateString t)) ts)
    with (map (fun d => Z.of_nat (length (loggedActions tzOffset dateLabel d es)))
              (map dateString ts))
    by (rewrite map_map; apply map_ext; intros; symmetry; apply activityMap_count).
  rewrite count_by_day by done.
  pose proof (length_filter
    (fun e => toDateString tzOffset dateLabel (entryTimestamp e) ∈ map dateString ts) es).
  lia.
Qed.

End WeekFacts.

(** X12. The 7-day chart has seven points, for the six days before today
    and today, in that order; each shows the number of entries of its
    calendar day, and together they show no more entries than the log
    holds. *)
Theorem velocityData_week (tzOffset : Z) (dateLabel : Z -> string)
    (weekdayShort : Z -> string) (now : Z) (entries : list ActivityEntry) :
  Inj (=) (=) dateLabel →
  let today := localDay tzOffset now in
  let data := velocityData tzOffset dateLabel weekdayShort now entries in
  map pointActions data
  = map (fun k => countOnDay tzOffset entries (today - k)) [6; 5; 4; 3; 2; 1; 0]
  ∧ map pointName data
    = map (fun k => weekdayShort (setDate now (- k))) [6; 5; 4; 3; 2; 1; 0]
  ∧ foldr Z.add 0 (map pointActions data) ≤ Z.of_nat (length entries).
Proof.
  intros Hinj today data. split_and!.
  - unfold data, velocityData. rewrite map_map. simpl map.
    rewrite !activityMap_count. unfold toDateString.
    rewrite !(loggedActions_day _ _ Hinj), !localDay_setDate.
    repeat f_equal; lia.
  - reflexivity.
  - unfold data, velocityData. rewrite map_map. cbn [pointActions].
    pose proof (counts_bounded tzOffset dateLabel entries (lastDays 7 now)
                  (lastDays_NoDup tzOffset dateLabel Hinj 7 now)) as H.
    unfold lastDays in H. rewrite map_map in H. exact H.
Qed.

Lemma velocityData_week_witness :
  map pointActions (velocityData 0 pretty pretty 8640000005 fiveDayLog)
  = [1; 0; 1; 1; 1; 1; 1].
Proof.
  pose proof (velocityData_week 0 pretty pretty 8640000005 fiveDayLog _) as [H _].
  rewrite H. reflexivity.
Defined.

(** X13. The heatmap has thirty cells, for thirty different calendar days
    in a row, the last one today; together the cells show no more entries
    than the log holds. *)
Theorem last30Days_cells (tzOffset : Z) (dateLabel : Z -> string) (now : Z)
    (entries : list ActivityEntry) :
  Inj (=) (=) dateLabel →
  let days := getLast30Days now in
  length days = 30%nat
  ∧ map (localDay tzOffset) days
    = map (fun i => localDay tzOffset now - Z.of_nat i) (rev (seq 0 30))
  ∧ last days = Some now
  ∧ NoDup (map (toDateString tzOffset dateLabel) days)
  ∧ foldr Z.add 0
      (map (fun date => default 0 (activityMap tzOffset dateLabel entries
                                     !! toDateString tzOffset dateLabel date)) days)
    ≤ Z.of_nat (length entries).
Proof.
  intros Hinj days. change days with (lastDays 30 now). split_and!.
  - reflexivity.
  - apply lastDays_days.
  - unfold lastDays, setDate. simpl. f_equal. lia.
  - by apply lastDays_NoDup.
  - apply counts_bounded. by apply lastDays_NoDup.
Qed.

Lemma last30Days_cells_witness :
  NoDup (map (toDateString 0 pretty) (getLast30Days 8640000005))
  ∧ map (localDay 0) (getLast30Days 8640000005)
    = map (fun i => 100 - Z.of_nat i) (rev (seq 0 30)).
Proof.
  pose proof (last30Days_cells 0 pretty 8640000005 [] _) as (_ & H2 & _ & H4 & _).
  split; [exact H4|exact H2].
Defined.

(** ** The most active day *)

Section PeakFacts.
Variables (tzOffset : Z) (dateLabel : Z -> string) (monthDay : string -> string).
Abbreviation peakStep :=
  (fun (acc : PeakDay) (dc : string * Z) =>
     if peakCount acc <? snd dc then mkPeakDay (monthDay (fst dc)) (snd dc) else acc).

Lemma peak_foldl l : ∀ acc,
  (Forall (fun x => snd x ≤ peakCount acc) l ∧ foldl peakStep acc l = acc)
  ∨ (∃ dc, FirstPeak l dc ∧ peakCount acc < snd dc
           ∧ foldl peakStep acc l = mkPeakDay (monthDay (fst dc)) (snd dc)).
Proof.
  induction l as [|x l IH]; intros acc; [by left|].
  cbn [foldl]. destruct (Z.ltb_spec (peakCount acc) (snd x)) as [Hlt|Hge].
  - right. destruct (IH (mkPeakDay (monthDay (fst x)) (snd x)))
      as [[Hall Heq]|(dc & (l1 & l2 & -> & H1 & H2) & Hlt' & Heq)]; simpl in *.
    + exists x. split_and!; [|done|done]. exists [], l. by split_and!.
    + exists dc. split_and!; [|lia|done].
      exists (x :: l1), l2. split_and!; [done| |done]. by constructor.
  - destruct (IH acc) as [[Hall Heq]|(dc & (l1 & l2 & -> & H1 & H2) & Hlt' & Heq)].
    + left. split; [by constructor|done].
    + right. exists dc. split_and!; [|done|done].
      exists (x :: l1), l2. split_and!; [done| |done]. constructor; [lia|done].
Qed.

End PeakFacts.

(** X14. [mostActiveDay] of an empty log is "N/A" with 0.  Of any other
    log it is a day of the log with the largest number of entries, which
    is at least one; of several such days it is the one whose first entry
    stands nearest the head of the log. *)
Theorem mostActiveDay_peak (tzOffset : Z) (dateLabel : Z -> string)
    (monthDay : string -> string) (entries : list ActivityEntry) :
  match entries with
  | [] => mostActiveDay tzOffset dateLabel monthDay entries = mkPeakDay "N/A" 0
  | _ :: _ =>
      ∃ date count,
        mostActiveDay tzOffset dateLabel monthDay entries
        = mkPeakDay (monthDay date) count
        ∧ 1 ≤ count
        ∧ count = Z.of_nat (length (loggedActions tzOffset dateLabel date entries))
        ∧ (∀ d, Z.of_nat (length (loggedActions tzOffset dateLabel d entries)) ≤ count)
        ∧ FirstPeak (activityEntries tzOffset dateLabel entries) (date, count)
  end.
Proof.
  destruct entries as [|e es]; [reflexivity|].
  unfold mostActiveDay.
  destruct (peak_foldl monthDay (activityEntries tzOffset dateLabel (e :: es))
              (mkPeakDay "N/A" 0)) as [[Hall _]|([date count] & Hpeak & Hlt & Heq)].
  - exfalso. rewrite activityEntries_counts in Hall. cbn [map distinct] in Hall.
    apply Forall_cons in Hall as [Hall _]. cbn [snd peakCount] in Hall.
    pose proof (onDay_nonempty tzOffset dateLabel (e :: es) e) as Hne.
    specialize (Hne ltac:(by left)). cbv beta in Hne. lia.
  - simpl in *. exists date, count. rewrite Heq.
    pose proof Hpeak as (l1 & l2 & Hl & H1 & H2).
    assert ((date, count) ∈ activityEntries tzOffset dateLabel (e :: es)) as Hin.
    { rewrite Hl. apply elem_of_app. right. by left. }
    assert (count = Z.of_nat (length (loggedActions tzOffset dateLabel date (e :: es))))
      as Hcount.
    { rewrite activityEntries_counts in Hin.
      apply list_elem_of_fmap in Hin as (d & [= -> ->] & _). reflexivity. }
    split_and!; [reflexivity|lia|exact Hcount| |exact Hpeak].
    intros d.
    destruct (decide (d ∈ map fst (activityEntries tzOffset dateLabel (e :: es))))
      as [Hd|Hd].
    + apply list_elem_of_fmap in Hd as ([d' n] & -> & Hd). simpl.
      assert (n = Z.of_nat (length (loggedActions tzOffset dateLabel d' (e :: es)))) as <-.
      { rewrite activityEntries_counts in Hd.
        apply list_elem_of_fmap in Hd as (d'' & [= -> ->] & _). reflexivity. }
      rewrite Hl in Hd. apply elem_of_app in Hd as [Hd|Hd].
      * rewrite Forall_forall in H1. specialize (H1 _ Hd). simpl in H1. lia.
      * apply elem_of_cons in Hd as [[= -> ->]|Hd]; [lia|].
        rewrite Forall_forall in H2. by specialize (H2 _ Hd).
    + destruct (loggedActions tzOffset dateLabel d (e :: es)) as [|x l] eqn:Hx; [simpl; lia|].
      exfalso. apply Hd.
      assert (x ∈ loggedActions tzOffset dateLabel d (e :: es)) as Hxin
        by (rewrite Hx; by left).
      apply list_elem_of_filter in Hxin as [Hxd Hxin].
      rewrite activityEntries_keys.
      apply elem_of_distinct, list_elem_of_In, in_map_iff. exists x.
      by rewrite <- list_elem_of_In.
Qed.

(** ** More on the streak *)

Section StreakMore.
Variables (tzOffset : Z) (dateLabel : Z -> string).
Hypothesis dateLabel_inj : Inj (=) (=) dateLabel.
Abbreviation dayOf := (localDay tzOffset).
Abbreviation has := (hasEntryOn tzOffset).
Abbreviation streak := (calculateStreak tzOffset dateLabel).

Lemma StreakRun_iff (P Q : Z -> Prop) start k :
  (∀ d, P d ↔ Q d) → StreakRun P start k → StreakRun Q start k.
Proof.
  intros Hiff (Hk & Hin & Hout). split_and!; [done| |].
  - intros i Hi. by apply Hiff, Hin.
  - intros H. by apply Hout, Hiff.
Qed.

(** The streak in the words of the days: what [calculateStreak] returns is
    fixed by which days have an entry. *)
Lemma calculateStreak_char now es k :
  (k = 0 ∧ ¬ has es (dayOf now) ∧ ¬ has es (dayOf now - 1))
  ∨ (has es (dayOf now) ∧ StreakRun (has es) (dayOf now) k)
  ∨ (¬ has es (dayOf now) ∧ has es (dayOf now - 1)
     ∧ StreakRun (has es) (dayOf now - 1) k) →
  streak now es = Some k.
Proof.
  intros Hk.
  destruct (calculateStreakWithin_spec tzOffset dateLabel dateLabel_inj now es
              (S (length es))) as (k' & Hk' & _ & Hnone & Htoday & Hyest); [lia|].
  unfold calculateStreak. rewrite Hk'. f_equal.
  destruct Hk as [(-> & H1 & H2)|[(H1 & Hrun)|(H1 & H2 & Hrun)]].
  - by apply Hnone.
  - destruct (Htoday H1) as [Hrun' _]. by eapply StreakRun_unique.
  - destruct (Hyest H1 H2) as [Hrun' _]. by eapply StreakRun_unique.
Qed.

Lemma calculateStreak_cases now es :
  ∃ k, streak now es = Some k
    ∧ ((k = 0 ∧ ¬ has es (dayOf now) ∧ ¬ has es (dayOf now - 1))
       ∨ (has es (dayOf now) ∧ StreakRun (has es) (dayOf now) k ∧ 1 ≤ k)
       ∨ (¬ has es (dayOf now) ∧ has es (dayOf now - 1)
          ∧ StreakRun (has es) (dayOf now - 1) k ∧ 1 ≤ k)).
Proof.
  destruct (calculateStreakWithin_spec tzOffset dateLabel dateLabel_inj now es
              (S (length es))) as (k & Hk & _ & Hnone & Htoday & Hyest); [lia|].
  exists k. split; [exact Hk|].
  destruct (decide (has es (dayOf now))) as [H1|H1].
  - right. left. destruct (Htoday H1). by split_and!.
  - destruct (decide (has es (dayOf now - 1))) as [H2|H2].
    + right. right. destruct (Hyest H1 H2). by split_and!.
    + left. split_and!; [by apply Hnone|done|done].
Qed.

Lemma calculateStreak_same_days now es es' :
  (∀ d, has es d ↔ has es' d) → streak now es = streak now es'.
Proof.
  intros Hiff. destruct (calculateStreak_cases now es) as (k & -> & Hk).
  symmetry. apply calculateStreak_char.
  destruct Hk as [(-> & H1 & H2)|[(H1 & Hrun & _)|(H1 & H2 & Hrun & _)]].
  - left. split_and!; [done|by rewrite <- Hiff|by rewrite <- Hiff].
  - right. left. split; [by apply Hiff|by eapply StreakRun_iff].
  - right. right. split_and!; [by rewrite <- Hiff|by apply Hiff|by eapply StreakRun_iff].
Qed.

End StreakMore.

(** X15. The streak depends only on which calendar days have an entry:
    two logs with entries on the same days have the same streak, whatever
    the order of the entries and however many there are on a day. *)
Theorem calculateStreak_days_only (tzOffset : Z) (dateLabel : Z -> string)
    (now : Z) (entries entries' : list ActivityEntry) :
  Inj (=) (=) dateLabel →
  (∀ d, hasEntryOn tzOffset entries d ↔ hasEntryOn tzOffset entries' d) →
  calculateStreak tzOffset dateLabel now entries
  = calculateStreak tzOffset dateLabel now entries'.
Proof. intros Hinj Hiff. by apply calculateStreak_same_days. Qed.

Lemma calculateStreak_days_only_witness :
  calculateStreak 0 pretty 8640000005 (rev fiveDayLog ++ fiveDayLog)
  = calculateStreak 0 pretty 8640000005 fiveDayLog.
Proof.
  apply (calculateStreak_days_only 0 pretty); [apply _|].
  intros d. unfold hasEntryOn.
  rewrite map_app, map_rev, elem_of_app, !list_elem_of_In, <- in_rev. tauto.
Defined.

Section ZoneFacts.
Variables (zone : Zone) (dateLabel : Z -> string).
Hypothesis dateLabel_inj : Inj (=) (=) dateLabel.
Hypothesis zone_steps : StepsByDay zone.
Abbreviation dayIn := (Zoned.localDay zone).
Abbreviation hasIn := (hasEntryIn zone).
Abbreviation datesIn :=
  (fun entries => distinct (map (fun e => Zoned.toDateString zone dateLabel (entryTimestamp e))
                                entries)).

Lemma includes_datesIn entries d :
  includes (datesIn entries) (dateLabel d) = true ↔ hasIn entries d.
Proof.
  unfold includes, hasEntryIn. rewrite bool_decide_eq_true, elem_of_distinct.
  rewrite !list_elem_of_In, !in_map_iff. unfold Zoned.toDateString. split.
  - intros (e & He & Hin). apply dateLabel_inj in He. eauto.
  - intros (e & He & Hin). exists e. by rewrite He.
Qed.

Lemma includes_datesIn_false entries d :
  includes (datesIn entries) (dateLabel d) = false ↔ ¬ hasIn entries d.
Proof.
  rewrite <- includes_datesIn. by destruct (includes _ _).
Qed.

(** The loop stops in every zone in which a day back is the day before: it
    counts the days of the run that ends on the day of [currentDate]. *)
Lemma streakLoopIn_run entries fuel : ∀ currentDate streak,
  (length (filter (fun x => (x ≤ dayIn currentDate)%Z)
             (map (fun e => dayIn (entryTimestamp e)) entries)) < fuel)%nat →
  ∃ k, Zoned.streakLoop zone dateLabel fuel (datesIn entries) currentDate streak
       = Some (streak + k)
       ∧ StreakRun (hasIn entries) (dayIn currentDate) k.
Proof.
  induction fuel as [|fuel IH]; intros cur streak Hfuel; [lia|].
  simpl. unfold Zoned.toDateString at 1.
  match goal with
  | |- context [includes ?l ?x] => destruct (includes l x) eqn:Hinc
  end.
  - apply includes_datesIn in Hinc.
    destruct (filter_le_pred_length (dayIn cur)
                (map (fun e => dayIn (entryTimestamp e)) entries)) as [_ Hlt].
    specialize (Hlt Hinc).
    destruct (IH (Zoned.setDate zone cur (-1)) (streak + 1)) as (k & Hk & Hle & Hin & Hout).
    { rewrite zone_steps. lia. }
    rewrite zone_steps in Hin, Hout.
    exists (k + 1). split; [rewrite Hk; f_equal; lia|].
    split; [lia|]. split.
    + intros i Hi. destruct (decide (i = 0)) as [->|Hne].
      * by rewrite Z.sub_0_r.
      * replace (dayIn cur - i) with (dayIn cur - 1 - (i - 1)) by lia.
        apply Hin. lia.
    + replace (dayIn cur - (k + 1)) with (dayIn cur - 1 - k) by lia. exact Hout.
  - apply includes_datesIn_false in Hinc.
    exists 0. split; [f_equal; lia|].
    split; [lia|]. split; [intros i Hi; lia|]. by rewrite Z.sub_0_r.
Qed.

(** What [calculateStreak] returns in such a zone: in the place of
    yesterday it has the day of the instant 24 hours before [now]. *)
Lemma calculateStreakIn_cases now entries :
  let today := dayIn now in
  let dayAgo := dayIn (now - 86400000) in
  ∃ k, Zoned.calculateStreak zone dateLabel now entries = Some k
    ∧ ((k = 0 ∧ ¬ hasIn entries today ∧ ¬ hasIn entries dayAgo)
       ∨ (hasIn entries today ∧ StreakRun (hasIn entries) today k ∧ 1 ≤ k)
       ∨ (¬ hasIn entries today ∧ hasIn entries dayAgo
          ∧ StreakRun (hasIn entries) dayAgo k ∧ 1 ≤ k)).
Proof.
  intros today dayAgo. unfold Zoned.calculateStreak, Zoned.calculateStreakWithin.
  destruct (decide (entries = [])) as [Hentries|Hentries].
  { exists 0. rewrite Hentries. simpl. split; [done|]. left.
    split_and!; [done| |]; intros H; by apply elem_of_nil in H. }
  rewrite bool_decide_eq_false_2 by (by destruct entries).
  unfold Zoned.getTodayString. cbv zeta.
  change (Zoned.toDateString zone dateLabel now) with (dateLabel today).
  change (Zoned.toDateString zone dateLabel (now - 86400000)) with (dateLabel dayAgo).
  assert (∀ cur, ∃ k,
    Zoned.streakLoop zone dateLabel (S (length entries)) (datesIn entries) cur 0 = Some k
    ∧ StreakRun (hasIn entries) (dayIn cur) k) as Hloop.
  { intros cur. destruct (streakLoopIn_run entries (S (length entries)) cur 0)
      as (k & Hk & Hrun).
    - pose proof (length_filter (fun x : Z => x ≤ dayIn cur)
                    (map (fun e => dayIn (entryTimestamp e)) entries)) as Hle.
      rewrite length_map in Hle. lia.
    - exists k. rewrite Z.add_0_l in Hk. by split. }
  assert (∀ start k, hasIn entries start → StreakRun (hasIn entries) start k → 1 ≤ k)
    as Hpos.
  { intros start k Hs (Hk & _ & Hout).
    destruct (decide (k = 0)) as [->|]; [|lia]. by rewrite Z.sub_0_r in Hout. }
  match goal with
  | |- context [includes ?l (dateLabel today)] =>
      destruct (includes l (dateLabel today)) eqn:Ht
  end.
  - apply includes_datesIn in Ht. simpl.
    destruct (Hloop now) as (k & Hk & Hrun). exists k.
    split; [exact Hk|]. right. left. split_and!; [done|done|by eapply Hpos].
  - apply includes_datesIn_false in Ht.
    match goal with
    | |- context [includes ?l (dateLabel dayAgo)] =>
        destruct (includes l (dateLabel dayAgo)) eqn:Hy; simpl
    end.
    + apply includes_datesIn in Hy.
      destruct (Hloop (now - 86400000)) as (k & Hk & Hrun). exists k.
      split; [exact Hk|]. right. right. split_and!; [done|done|done|by eapply Hpos].
    + apply includes_datesIn_false in Hy. exists 0.
      split; [done|]. by left.
Qed.

Lemma calculateStreakIn_char now entries k :
  (k = 0 ∧ ¬ hasIn entries (dayIn now) ∧ ¬ hasIn entries (dayIn (now - 86400000)))
  ∨ (hasIn entries (dayIn now) ∧ StreakRun (hasIn entries) (dayIn now) k)
  ∨ (¬ hasIn entries (dayIn now) ∧ hasIn entries (dayIn (now - 86400000))
     ∧ StreakRun (hasIn entries) (dayIn (now - 86400000)) k) →
  Zoned.calculateStreak zone dateLabel now entries = Some k.
Proof.
  intros Hk. destruct (calculateStreakIn_cases now entries) as (k' & -> & Hk').
  f_equal.
  destruct Hk as [(-> & H1 & H2)|[(H1 & Hrun)|(H1 & H2 & Hrun)]];
    destruct Hk' as [(-> & H1' & H2')|[(H1' & Hrun' & _)|(H1' & H2' & Hrun' & _)]];
    try done; by eapply StreakRun_unique.
Qed.

Lemma hasIn_cons e es d :
  hasIn (e :: es) d ↔ d = dayIn (entryTimestamp e) ∨ hasIn es d.
Proof. unfold hasEntryIn. simpl. rewrite elem_of_cons. done. Qed.

(** An entry made now: the first of the day lengthens the streak by one,
    any other leaves it. *)
Lemma streakIn_cons now e es k :
  DayAgoIsYesterday zone now →
  dayIn (entryTimestamp e) = dayIn now →
  Zoned.calculateStreak zone dateLabel now es = Some k →
  Zoned.calculateStreak zone dateLabel now (e :: es)
  = Some (if decide (hasIn es (dayIn now)) then k else k + 1).
Proof.
  intros Hago He Hk.
  destruct (calculateStreakIn_cases now es) as (k' & Hk' & Hcases).
  rewrite Hk in Hk'. injection Hk' as <-. rewrite Hago in Hcases.
  apply calculateStreakIn_char.
  right. left. split; [apply hasIn_cons; by left|].
  destruct Hcases as [(-> & H1 & H2)|[(H1 & Hrun & _)|(H1 & H2 & (Hk0 & Hin & Hout) & _)]].
  - rewrite decide_False by done. split_and!; [lia| |].
    + intros i Hi. replace i with 0 by lia. rewrite Z.sub_0_r. apply hasIn_cons. by left.
    + rewrite hasIn_cons. intros [?|?]; [lia|done].
  - rewrite decide_True by done. eapply StreakRun_iff; [|exact Hrun].
    intros d. rewrite hasIn_cons. split; [by right|]. intros [->|?]; [|done].
    by rewrite He.
  - rewrite decide_False by done. split_and!; [lia| |].
    + intros i Hi. apply hasIn_cons. destruct (decide (i = 0)) as [->|Hne].
      * left. rewrite He. lia.
      * right. replace (dayIn now - i) with (dayIn now - 1 - (i - 1)) by lia.
        apply Hin. lia.
    + rewrite hasIn_cons. intros [?|Hh]; [lia|]. apply Hout.
      by replace (dayIn now - 1 - k) with (dayIn now - (k + 1)) by lia.
Qed.

(** The day after: the streak of yesterday still stands. *)
Lemma streakIn_tomorrow now now' es k :
  DayAgoIsYesterday zone now' →
  Zoned.calculateStreak zone dateLabel now es = Some k → hasIn es (dayIn now) →
  dayIn now' = dayIn now + 1 → ¬ hasIn es (dayIn now') →
  Zoned.calculateStreak zone dateLabel now' es = Some k.
Proof.
  intros Hago Hk Htoday Hnext Hnone.
  destruct (calculateStreakIn_cases now es) as (k' & Hk' & Hcases).
  rewrite Hk in Hk'. injection Hk' as <-.
  apply calculateStreakIn_char. rewrite Hago.
  right. right. replace (dayIn now' - 1) with (dayIn now) by lia.
  destruct Hcases as [(_ & H1 & _)|[(_ & Hrun & _)|(H1 & _)]]; done.
Qed.

(** Two days after the last entry the streak is gone. *)
Lemma streakIn_lost now now' es :
  DayAgoIsYesterday zone now' →
  (∀ d, hasIn es d → d ≤ dayIn now) → dayIn now + 2 ≤ dayIn now' →
  Zoned.calculateStreak zone dateLabel now' es = Some 0.
Proof.
  intros Hago Hpast Hlater. apply calculateStreakIn_char. rewrite Hago.
  left. split_and!; [done| |]; intros H%Hpast; lia.
Qed.

End ZoneFacts.

(** X16. Logging an action never costs a streak, where the instant 24 hours
    before the clock reading lies on yesterday (as it does at a fixed UTC
    offset, and in a zone with clock changes except within the hour of a
    change one day later): submitting a non-blank entry makes the streak one
    longer when it is the first entry of the day, leaves it as it is
    otherwise, and in either case the streak is then at least one. *)
Theorem streak_after_addEntry (zone : Zone) (dateLabel : Z -> string)
    (now : Z) (st : State) (k : Z) :
  Inj (=) (=) dateLabel →
  StepsByDay zone →
  DayAgoIsYesterday zone now →
  Text.trim (newEntry st) ≠ "" →
  Zoned.calculateStreak zone dateLabel now (entries st) = Some k →
  let k' := if decide (hasEntryIn zone (entries st) (Zoned.localDay zone now))
            then k else k + 1 in
  Zoned.calculateStreak zone dateLabel now (entries (addEntry now st)) = Some k'
  ∧ k ≤ k' ∧ 1 ≤ k'.
Proof.
  intros Hinj Hsteps Hago Htext Hk k'. unfold addEntry.
  rewrite bool_decide_eq_false_2 by done.
  cbn [entries setNewEntry setEntries].
  split; [by apply streakIn_cons|].
  destruct (calculateStreakIn_cases zone dateLabel Hinj Hsteps now (entries st))
    as (k0 & Hk0 & Hcases).
  rewrite Hk in Hk0. injection Hk0 as <-. unfold k'.
  destruct Hcases as [(-> & H1 & H2)|[(H1 & _ & Hpos)|(H1 & _ & _ & Hpos)]].
  - rewrite decide_False by done. lia.
  - rewrite decide_True by done. lia.
  - rewrite decide_False by done. lia.
Qed.

Lemma streak_after_addEntry_witness :
  let st := setNewEntry " walk " (setEntries saturdayLog initialState) in
  DayAgoIsYesterday newYork2026 1772985600000
  ∧ Zoned.calculateStreak newYork2026 pretty 1772985600000 (entries st) = Some 1
  ∧ Zoned.calculateStreak newYork2026 pretty 1772985600000
      (entries (addEntry 1772985600000 st)) = Some 2.
Proof.
  assert (DayAgoIsYesterday newYork2026 1772985600000) as Hago by reflexivity.
  split_and!; [exact Hago|reflexivity|].
  apply (streak_after_addEntry newYork2026 pretty 1772985600000
           (setNewEntry " walk " (setEntries saturdayLog initialState)) 1);
    [apply _|exact newYork2026_StepsByDay|exact Hago|done|reflexivity].
Defined.

(** X17. A streak does not end at midnight, where the instant 24 hours
    before the later clock reading lies on the day before it: on the day
    after a day with an entry, and before anything is logged, the streak is
    what it was; once two days have begun since the last entry it is 0. *)
Theorem streak_next_days (zone : Zone) (dateLabel : Z -> string)
    (now now' : Z) (entries : list ActivityEntry) (k : Z) :
  Inj (=) (=) dateLabel →
  StepsByDay zone →
  DayAgoIsYesterday zone now' →
  Zoned.calculateStreak zone dateLabel now entries = Some k →
  hasEntryIn zone entries (Zoned.localDay zone now) →
  (∀ d, hasEntryIn zone entries d → d ≤ Zoned.localDay zone now) →
  (Zoned.localDay zone now' = Zoned.localDay zone now + 1 →
   Zoned.calculateStreak zone dateLabel now' entries = Some k)
  ∧ (Zoned.localDay zone now + 2 ≤ Zoned.localDay zone now' →
     Zoned.calculateStreak zone dateLabel now' entries = Some 0).
Proof.
  intros Hinj Hsteps Hago Hk Htoday Hpast. split.
  - intros Hnext. eapply streakIn_tomorrow; [done..|].
    intros H%Hpast. lia.
  - intros Hlater. by eapply streakIn_lost.
Qed.

Lemma streak_next_days_witness :
  Zoned.calculateStreak newYork2026 pretty 1772902800000 saturdayLog = Some 1
  ∧ Zoned.calculateStreak newYork2026 pretty 1772985600000 saturdayLog = Some 1
  ∧ Zoned.calculateStreak newYork2026 pretty 1773072000000 saturdayLog = Some 0.
Proof.
  assert (hasEntryIn newYork2026 saturdayLog (Zoned.localDay newYork2026 1772902800000))
    as Htoday by (apply (bool_decide_unpack _); vm_compute; exact I).
  assert (∀ d, hasEntryIn newYork2026 saturdayLog d
               → d ≤ Zoned.localDay newYork2026 1772902800000) as Hpast.
  { intros d Hd. unfold hasEntryIn in Hd. vm_compute in Hd.
    repeat (apply elem_of_cons in Hd as [->|Hd]; [done|]). by apply elem_of_nil in Hd. }
  assert (Zoned.calculateStreak newYork2026 pretty 1772902800000 saturdayLog = Some 1)
    as Hk by reflexivity.
  destruct (streak_next_days newYork2026 pretty 1772902800000 1772985600000 saturdayLog 1
              _ newYork2026_StepsByDay eq_refl Hk Htoday Hpast) as [H1 _].
  destruct (streak_next_days newYork2026 pretty 1772902800000 1773072000000 saturdayLog 1
              _ newYork2026_StepsByDay eq_refl Hk Htoday Hpast) as [_ H2].
  split_and!; [reflexivity|by apply H1|by apply H2].
Defined.

(** ** Badges *)

(** X18. In a session of use, the import of a backup aside, a badge is
    lost only with the streak: a badge that was earned is earned at the
    end, if the streak is then not shorter; the points and the counters
    that the other badges ask for do not fall. *)
Theorem badges_are_kept (tzOffset : Z) (dateLabel : Z -> string)
    (acts : list (Z * Action)) (c : Component) (badge : Badge) (streak streak' : Z) :
  badge ∈ BADGES →
  streak ≤ streak' →
  isEarned badge (points (engine c)) streak (analytics (engine c)) = true →
  let c' := run tzOffset dateLabel acts c in
  isEarned badge (points (engine c')) streak' (analytics (engine c')) = true.
Proof.
  intros Hb Hs He c'.
  destruct (run_counters tzOffset dateLabel acts c) as [_ (Hp & Ht & _ & _ & Hi)].
  fold c' in Hp, Ht, Hi. unfold isEarned in *. unfold BADGES in Hb.
  repeat (apply elem_of_cons in Hb as [->|Hb];
          [cbn [requirement statPoints statStreak statAnalytics] in *;
           apply Z.leb_le; apply Z.leb_le in He; lia|]).
  by apply elem_of_nil in Hb.
Qed.

Lemma badges_are_kept_witness :
  let c := onEngine (setPoints 10) initialComponent in
  let starter := mkBadge "starter" "Engine Start" "Earn your first 10 points"
                   (fun s => 10 <=? statPoints s) in
  isEarned starter (points (engine c)) 0 (analytics (engine c)) = true
  ∧ isEarned starter
      (points (engine (run 0 pretty [(5, PressStartPause); (6, PressDeleteEntry "1")] c)))
      0
      (analytics (engine (run 0 pretty [(5, PressStartPause); (6, PressDeleteEntry "1")] c)))
    = true.
Proof.
  split; [reflexivity|].
  apply (badges_are_kept 0 pretty _ (onEngine (setPoints 10) initialComponent) _ 0 0);
    [by left|done|reflexivity].
Defined.

(** ** Mini-goals *)

(** X19. Pressing a mini-goal twice leaves the state as it was, and
    pressing it once changes nothing but completed flags. *)
Theorem toggleMiniGoal_twice (id : string) (st : State) :
  toggleMiniGoal id (toggleMiniGoal id st) = st
  ∧ map (fun g => (goalId g, goalText g, goalDeadline g)) (miniGoals (toggleMiniGoal id st))
    = map (fun g => (goalId g, goalText g, goalDeadline g)) (miniGoals st)
  ∧ ∀ g, g ∈ miniGoals st → goalId g ≠ id → g ∈ miniGoals (toggleMiniGoal id st).
Proof.
  split_and!.
  - destruct st as [es hs v gs ps w p t hh fn a ne lr]. unfold toggleMiniGoal, setMiniGoals.
    cbn. f_equal. rewrite map_map. rewrite <- (map_id gs) at 2. apply map_ext.
    intros [i t' d b]. cbn. destruct (decide (i = id)) as [->|Hne].
    + rewrite (bool_decide_eq_true_2 (id = id)) by done. cbn.
      rewrite bool_decide_eq_true_2 by done. by rewrite negb_involutive.
    + rewrite (bool_decide_eq_false_2 (i = id)) by done. cbn.
      by rewrite bool_decide_eq_false_2.
  - unfold toggleMiniGoal. cbn. rewrite map_map. apply map_ext. intros g.
    by case_bool_decide.
  - intros g Hg Hne. unfold toggleMiniGoal. cbn.
    apply list_elem_of_In, in_map_iff. exists g.
    rewrite bool_decide_eq_false_2 by done. by rewrite <- list_elem_of_In.
Qed.

(** ** The Future Cost note *)

(** X20. The Future Cost note is kept by day: what is typed is what the
    textarea shows for the rest of that day, on another day the textarea
    shows that day's own note, the notes of other days are not touched,
    and a note typed and erased again counts as none in the daily
    summary. *)
Theorem futureCost_by_day (tzOffset : Z) (dateLabel : Z -> string)
    (text : string) (now : Z) (st : State) :
  let today := getTodayString tzOffset dateLabel now in
  let st' := editFutureCost tzOffset dateLabel text now st in
  (∀ later, getTodayString tzOffset dateLabel later = today →
     futureCostShown tzOffset dateLabel later st' = text)
  ∧ (∀ later, getTodayString tzOffset dateLabel later ≠ today →
       futureCostShown tzOffset dateLabel later st'
       = futureCostShown tzOffset dateLabel later st)
  ∧ (∀ day, day ≠ today → futureCostNotes st' !! day = futureCostNotes st !! day)
  ∧ noteOfDay today (futureCostNotes st')
    = (if bool_decide (text = "") then None else Some text)
  ∧ noteOfDay today
      (futureCostNotes (editFutureCost tzOffset dateLabel "" now st')) = None.
Proof.
  intros today st'. unfold st', futureCostShown, editFutureCost, noteOfDay. cbn.
  fold today. split_and!.
  - intros later ->. by rewrite lookup_insert_eq.
  - intros later Hne. by rewrite lookup_insert_ne.
  - intros day Hne. by rewrite lookup_insert_ne.
  - by rewrite lookup_insert_eq.
  - by rewrite lookup_insert_eq.
Qed.

(** ** The face of the timer *)

Lemma padStart_twoDigits (n : Z) :
  0 ≤ n < 60 → padStart 2 "0" (Text.ofInt n) = twoDigits n.
Proof.
  intros Hn.
  assert (∃ k : nat, (k < 60)%nat ∧ n = Z.of_nat k) as (k & Hk & ->)
    by (exists (Z.to_nat n); lia).
  clear Hn. do 60 (destruct k as [|k]; [reflexivity|]). lia.
Qed.

Lemma minutes_length (m : Z) : 0 ≤ m ≤ 5 → String.length (Text.ofInt m) = 1%nat.
Proof.
  intros Hm. assert (m = 0 ∨ m = 1 ∨ m = 2 ∨ m = 3 ∨ m = 4 ∨ m = 5) as H by lia.
  repeat (destruct H as [->|H]; [reflexivity|]). by subst.
Qed.

Lemma length_append (a b : string) :
  String.length (a +:+ b) = (String.length a + String.length b)%nat.
Proof.
  induction a as [|c a IH]; [reflexivity|].
  change (S (String.length (a +:+ b)) = S (String.length a + String.length b)).
  by rewrite IH.
Qed.

(** X21. [formatTime] writes a time that is not negative as its whole
    minutes, a colon, and the remaining seconds in exactly two digits; on
    the face of a timer at rest that is one digit of minutes, so four
    characters in all. *)
Theorem formatTime_clock :
  (∀ seconds, 0 ≤ seconds →
     formatTime seconds
     = Text.ofInt (seconds `div` 60) +:+ ":" +:+ twoDigits (seconds `mod` 60))
  ∧ (∀ c, TimerAtRest c → String.length (formatTime (timeLeft c)) = 4%nat)
  ∧ formatTime TIMER_DURATION = "5:00"
  ∧ formatTime 61 = "1:01".
Proof.
  assert (∀ seconds, 0 ≤ seconds →
     formatTime seconds
     = Text.ofInt (seconds `div` 60) +:+ ":" +:+ twoDigits (seconds `mod` 60)) as H.
  { intros s Hs. unfold formatTime. cbv zeta. rewrite Z.rem_mod_nonneg by lia.
    rewrite padStart_twoDigits; [reflexivity|]. apply Z.mod_pos_bound. lia. }
  split_and!; [exact H| |reflexivity|reflexivity].
  intros c [Hlo Hhi]. unfold TIMER_DURATION in Hhi. rewrite H by lia.
  rewrite !length_append, minutes_length; [reflexivity|].
  split; [apply Z.div_pos; lia|].
  apply Z.div_le_upper_bound; lia.
Qed.

(** ** [JSON.parse] undoes [JSON.stringify] without indentation *)

Module CompactFacts.
Import JSON JSONFacts.

Lemma scan_comma ex stack r :
  scan LTop ex stack ("," +:+ r) =
  match parseStep ex stack TComma with
  | Some (ex', stack') => scan LTop ex' stack' r
  | None => None
  end.
Proof. norm_app. by rewrite (scan_token LTop LTop TComma) by reflexivity. Qed.

Lemma scan_elements_compact : ∀ xs x acc up ex r,
  ValueSlot ex → delimited r = true →
  Forall ReadsBackCompact (x :: xs) →
  scan LTop ex (FArr acc :: up)
    (Text.join "," (map stringifyCompact (x :: xs)) +:+ r)
  = scan LTop EAfter (FArr (rev (x :: xs) ++ acc) :: up) r.
Proof.
  induction xs as [|y ys IH]; intros x acc up ex r Hex Hd Hall;
    apply Forall_cons in Hall as [Hx Hall].
  - simpl Text.join. rewrite (Hx ex _ _ Hex Hd). reflexivity.
  - change (Text.join "," (map stringifyCompact (x :: y :: ys)))
      with (stringifyCompact x +:+ ","
            +:+ Text.join "," (map stringifyCompact (y :: ys))).
    rewrite !append_assoc.
    rewrite (Hx ex _ _ Hex) by reflexivity.
    cbn [complete]. rewrite scan_comma. cbn [parseStep].
    rewrite (IH y (x :: acc) up EValue r (or_introl eq_refl) Hd Hall).
    do 3 f_equal. simpl. by rewrite <- !app_assoc.
Qed.

Lemma scan_field_compact kv acc up ex r :
  KeySlot ex → plainText (fst kv) = true → ReadsBackCompact (snd kv) →
  fst kv ∉ map fst acc → delimited r = true →
  scan LTop ex (FObj acc :: up) (fieldCompact kv +:+ r)
  = scan LTop EAfter (FObj (acc ++ [kv]) :: up) r.
Proof.
  destruct kv as [k v]. intros Hex Hk Hv Hfresh Hd. unfold fieldCompact.
  simpl fst. simpl snd.
  rewrite !append_assoc. rewrite (scan_quote k _ _ _ Hk).
  assert (parseStep ex (FObj acc :: up) (TString k) = Some (EColon, FObjK acc k :: up)) as ->
    by (destruct Hex as [-> | ->]; reflexivity).
  norm_app.
  rewrite (scan_token LTop LTop TColon) by reflexivity. cbn [parseStep].
  rewrite (Hv EValue _ _ (or_introl eq_refl) Hd). cbn [complete].
  by rewrite (setProp_fresh _ _ _ Hfresh).
Qed.

Lemma scan_fields_compact : ∀ fs kv acc up ex r,
  KeySlot ex → delimited r = true →
  Forall (fun kv => plainText (fst kv) = true ∧ ReadsBackCompact (snd kv)) (kv :: fs) →
  NoDup (map fst acc ++ map fst (kv :: fs)) →
  scan LTop ex (FObj acc :: up)
    (Text.join "," (map fieldCompact (kv :: fs)) +:+ r)
  = scan LTop EAfter (FObj (acc ++ kv :: fs) :: up) r.
Proof.
  induction fs as [|kv' fs IH]; intros kv acc up ex r Hex Hd Hall Hnd;
    apply Forall_cons in Hall as [[Hk Hv] Hall].
  - simpl Text.join. apply scan_field_compact; try done.
    simpl in Hnd. apply NoDup_app in Hnd as (_ & Hnd & _).
    intros Hin. apply (Hnd _ Hin). by left.
  - change (Text.join "," (map fieldCompact (kv :: kv' :: fs)))
      with (fieldCompact kv +:+ "," +:+ Text.join "," (map fieldCompact (kv' :: fs))).
    rewrite !append_assoc.
    rewrite (scan_field_compact kv acc up ex _ Hex Hk Hv); [| |reflexivity].
    2:{ simpl in Hnd. apply NoDup_app in Hnd as (_ & Hnd & _).
        intros Hin. apply (Hnd _ Hin). by left. }
    rewrite scan_comma. cbn [parseStep].
    rewrite (IH kv' (acc ++ [kv]) up EObjKey r (or_intror eq_refl) Hd Hall).
    + by rewrite <- app_assoc.
    + rewrite map_app, <- app_assoc. exact Hnd.
Qed.

(** The scalars are written as [stringifyAt] writes them. *)
Lemma scalar_ReadsBackCompact v :
  (∀ ind, stringifyAt ind v = stringifyCompact v) →
  Printable v → ReadsBackCompact v.
Proof.
  intros Hsame Hp ex stack r Hex Hd. rewrite <- (Hsame "").
  by apply (Printable_ReadsBack v Hp "").
Qed.

Lemma Printable_ReadsBackCompact v : Printable v → ReadsBackCompact v.
Proof.
  induction v as [ |b|m e|s|items IH|fields IH] using JValue_nested_ind; intros Hp.
  - by apply scalar_ReadsBackCompact.
  - by apply scalar_ReadsBackCompact.
  - by apply scalar_ReadsBackCompact.
  - by apply scalar_ReadsBackCompact.
  - intros ex stack r Hex Hd.
    inversion Hp as [ | | | |? Hitems| ]; subst.
    destruct items as [|x xs].
    + change (stringifyCompact (JArr [])) with "[]". norm_app.
      rewrite (scan_token LTop LTop TLBracket) by reflexivity.
      rewrite (parseStep_open_array _ _ Hex).
      rewrite (scan_token LTop LTop TRBracket) by reflexivity. reflexivity.
    + change (stringifyCompact (JArr (x :: xs)))
        with ("[" +:+ Text.join "," (map stringifyCompact (x :: xs)) +:+ "]").
      rewrite append_assoc, append_cons, append_nil_l.
      rewrite (scan_token LTop LTop TLBracket) by reflexivity.
      rewrite (parseStep_open_array _ _ Hex).
      rewrite !append_assoc.
      rewrite (scan_elements_compact xs x [] stack EArrFirst _ (or_intror eq_refl))
        by (reflexivity || (apply Forall_forall; intros y Hy;
              rewrite Forall_forall in IH, Hitems; apply IH; [done|by apply Hitems])).
      norm_app.
      rewrite (scan_token LTop LTop TRBracket) by reflexivity.
      cbn [parseStep]. by rewrite app_nil_r, rev_involutive.
  - intros ex stack r Hex Hd.
    inversion Hp as [ | | | | |? Hnd Hfields]; subst.
    destruct fields as [|kv fs].
    + change (stringifyCompact (JObj [])) with "{}". norm_app.
      rewrite (scan_token LTop LTop TLBrace) by reflexivity.
      rewrite (parseStep_open_object _ _ Hex).
      rewrite (scan_token LTop LTop TRBrace) by reflexivity. reflexivity.
    + change (stringifyCompact (JObj (kv :: fs)))
        with ("{" +:+ Text.join "," (map fieldCompact (kv :: fs)) +:+ "}").
      rewrite append_assoc, append_cons, append_nil_l.
      rewrite (scan_token LTop LTop TLBrace) by reflexivity.
      rewrite (parseStep_open_object _ _ Hex).
      rewrite !append_assoc.
      rewrite (scan_fields_compact fs kv [] stack EObjFirst _ (or_introl eq_refl)).
      2:{ reflexivity. }
      2:{ apply Forall_forall. intros y Hy.
          rewrite Forall_forall in IH, Hfields.
          destruct (Hfields _ Hy). split; [done|]. by apply IH. }
      2:{ exact Hnd. }
      norm_app.
      rewrite (scan_token LTop LTop TRBrace) by reflexivity.
      reflexivity.
Qed.

(** [JSON.parse] undoes [JSON.stringify] on printable values, with or
    without indentation. *)
Lemma parse_stringifyCompact v : Printable v → parse (stringifyCompact v) = Some v.
Proof.
  intros Hp. unfold parse.
  rewrite <- (append_nil_r (stringifyCompact v)).
  rewrite (Printable_ReadsBackCompact v Hp EValue [] "") by (reflexivity || by left).
  reflexivity.
Qed.

End CompactFacts.

(** ** [parseInt] undoes [toString] *)

Module ParseIntFacts.
Import JSON JSONFacts.

Lemma leadingDigits_pretty_N_go x : ∀ acc r,
  (0 < x)%N → default 0 acc = 0 →
  leadingDigits acc (pretty_N_go x r) = leadingDigits (Some (Z.of_N x)) r.
Proof.
  induction (N.lt_wf_0 x) as [x _ IH]; intros acc r Hx Hacc.
  rewrite pretty_N_go_step by done.
  destruct (decide (x < 10)%N) as [Hsmall|Hbig].
  - rewrite N.div_small, N.mod_small, pretty_N_go_0 by done.
    cbn [leadingDigits]. rewrite digitVal_pretty by done. rewrite Hacc. do 2 f_equal; lia.
  - rewrite IH; [|apply N.div_lt; lia|apply N.div_str_pos; lia|done].
    cbn [leadingDigits]. rewrite digitVal_pretty by (apply N.mod_lt; lia).
    cbn [default]. unfold id. pose proof (N.div_mod x 10). do 2 f_equal; lia.
Qed.

(** The decimal of a positive number starts with a digit. *)
Lemma pretty_N_go_head x r :
  (0 < x)%N → ∃ d r', (d < 10)%N ∧ pretty_N_go x r = String (pretty_N_char d) r'.
Proof.
  revert r. induction (N.lt_wf_0 x) as [x _ IH]; intros r Hx.
  rewrite pretty_N_go_step by done.
  destruct (decide (x < 10)%N) as [Hsmall|Hbig].
  - rewrite N.div_small, N.mod_small, pretty_N_go_0 by done. by exists x, r.
  - apply IH; [apply N.div_lt; lia|apply N.div_str_pos; lia].
Qed.

Lemma wsToken_digit d r : (d < 10)%N → wsToken (String (pretty_N_char d) r) = None.
Proof.
  intros Hd.
  assert (d = 0 ∨ d = 1 ∨ d = 2 ∨ d = 3 ∨ d = 4 ∨ d = 5 ∨ d = 6 ∨ d = 7
          ∨ d = 8 ∨ d = 9)%N as Hcases by lia.
  destruct r as [|c2 [|c3 r3]];
    repeat (destruct Hcases as [->|Hcases]; [reflexivity|]); by subst.
Qed.

Lemma digit_no_sign d :
  (d < 10)%N →
  (Text.code (pretty_N_char d) =? 45)%N = false
  ∧ (Text.code (pretty_N_char d) =? 43)%N = false.
Proof.
  intros Hd.
  assert (d = 0 ∨ d = 1 ∨ d = 2 ∨ d = 3 ∨ d = 4 ∨ d = 5 ∨ d = 6 ∨ d = 7
          ∨ d = 8 ∨ d = 9)%N as Hcases by lia.
  repeat (destruct Hcases as [->|Hcases]; [by split|]). by subst.
Qed.

Lemma parseInt10_pos p : parseInt10 (pretty (Z.pos p)) = Some (Z.pos p).
Proof.
  change (pretty (Z.pos p)) with (pretty_N_go (N.pos p) "").
  destruct (pretty_N_go_head (N.pos p) "") as (d & r' & Hd & Heq); [done|].
  unfold parseInt10.
  rewrite (TrimFacts.trimStart_fixed (pretty_N_go (N.pos p) ""))
    by (rewrite Heq; by apply wsToken_digit).
  rewrite Heq. destruct (digit_no_sign d Hd) as [-> ->]. rewrite <- Heq.
  by rewrite leadingDigits_pretty_N_go.
Qed.

Lemma parseInt10_neg p : parseInt10 (pretty (Z.neg p)) = Some (Z.neg p).
Proof.
  change (pretty (Z.neg p)) with (String "-" (pretty_N_go (N.pos p) "")).
  destruct (pretty_N_go_head (N.pos p) "") as (d & r' & Hd & Heq); [done|].
  unfold parseInt10. rewrite TrimFacts.trimStart_fixed.
  - change (Text.code "-" =? 45)%N with true. cbv iota.
    by rewrite leadingDigits_pretty_N_go.
  - rewrite Heq. by destruct r' as [|c3 r3].
Qed.

Theorem parseInt10_ofInt z : parseInt10 (Text.ofInt z) = Some z.
Proof.
  destruct z as [|p|p]; [reflexivity|apply parseInt10_pos|apply parseInt10_neg].
Qed.

Lemma ofInt_nonempty z : Text.ofInt z ≠ "".
Proof.
  destruct z as [|p|p]; [done| |done]. unfold Text.ofInt.
  change (pretty (Z.pos p)) with (pretty_N_go (N.pos p) "").
  destruct (pretty_N_go_head (N.pos p) "") as (d & r' & Hd & ->); done.
Qed.

End ParseIntFacts.

(** ** What local storage gives back *)

Local Ltac other_key := let H := fresh in intros H; vm_compute in H; discriminate H.

Local Ltac stored :=
  unfold storageOf; cbv zeta;
  repeat first [rewrite lookup_insert_eq | rewrite lookup_insert_ne by other_key];
  try reflexivity.

Lemma storageOf_entries c :
  storageOf c !! STORAGE_KEYS.ENTRIES
  = Some (stringifyCompact (JSON.JArr (map Codec.ofEntry (entries (engine c))))).
Proof. stored. Qed.

Lemma storageOf_habits c :
  storageOf c !! STORAGE_KEYS.HABITS
  = Some (stringifyCompact (JSON.JArr (map Codec.ofHabit (habits (engine c))))).
Proof. stored. Qed.

Lemma storageOf_vision c : storageOf c !! STORAGE_KEYS.VISION = Some (vision (engine c)).
Proof. stored. Qed.

Lemma storageOf_miniGoals c :
  storageOf c !! STORAGE_KEYS.MINI_GOALS
  = Some (stringifyCompact (JSON.JArr (map Codec.ofMiniGoal (miniGoals (engine c))))).
Proof. stored. Qed.

Lemma storageOf_ifThen c :
  storageOf c !! STORAGE_KEYS.IF_THEN
  = Some (stringifyCompact (JSON.JArr (map Codec.ofIfThenPlan (ifThenPlans (engine c))))).
Proof. stored. Qed.

Lemma storageOf_woop c :
  storageOf c !! STORAGE_KEYS.WOOP
  = Some (stringifyCompact (Codec.ofWoop (woop (engine c)))).
Proof. stored. Qed.

Lemma storageOf_points c :
  storageOf c !! STORAGE_KEYS.POINTS = Some (Text.ofInt (points (engine c))).
Proof. stored. Qed.

Lemma storageOf_theme c :
  storageOf c !! STORAGE_KEYS.THEME = Some (activeTheme (engine c)).
Proof. stored. Qed.

Lemma storageOf_audioShield c :
  storageOf c !! STORAGE_KEYS.AUDIO_SHIELD = Some (ofBool (audioShieldEnabled c)).
Proof. stored. Qed.

Lemma storageOf_reminders c :
  storageOf c !! STORAGE_KEYS.REMINDERS = Some (ofBool (remindersEnabled c)).
Proof. stored. Qed.

Lemma storageOf_analytics c :
  storageOf c !! STORAGE_KEYS.ANALYTICS
  = Some (stringifyCompact (Store.ofAnalytics (analytics (engine c)))).
Proof. stored. Qed.

Lemma storageOf_habitHistory c :
  storageOf c !! STORAGE_KEYS.HABIT_HISTORY
  = Some (stringifyCompact (Store.ofRecord Store.ofStrings (habitHistory (engine c)))).
Proof. stored. Qed.

Lemma storageOf_futureCostNotes c :
  storageOf c !! STORAGE_KEYS.FUTURE_COST_NOTES
  = Some (stringifyCompact (Store.ofRecord JSON.JStr (futureCostNotes (engine c)))).
Proof. stored. Qed.

Lemma storageOf_lastReset c :
  storageOf c !! STORAGE_KEYS.LAST_RESET = lastReset (engine c).
Proof.
  stored. destruct (lastReset (engine c)); [by rewrite lookup_insert_eq|].
  by rewrite lookup_empty.
Qed.

(** The key that no effect writes. *)
Lemma storageOf_futureCost c : storageOf c !! STORAGE_KEYS.FUTURE_COST = None.
Proof.
  stored. destruct (lastReset (engine c)); [rewrite lookup_insert_ne by other_key|];
    by rewrite lookup_empty.
Qed.

Lemma compact_array_nonempty items : stringifyCompact (JSON.JArr items) ≠ "".
Proof. done. Qed.

Lemma compact_object_nonempty fields : stringifyCompact (JSON.JObj fields) ≠ "".
Proof. done. Qed.

(** An initialiser reads back what [JSON.stringify] wrote. *)
Lemma initJson_stored {A} (dec : JSON.JValue -> option A) dflt v a :
  JSON.Printable v → stringifyCompact v ≠ "" → dec v = Some a →
  initJson dec dflt (Some (stringifyCompact v)) = Ready a.
Proof.
  intros Hp Hne Hdec. unfold initJson. rewrite bool_decide_eq_false_2 by done.
  by rewrite (CompactFacts.parse_stringifyCompact v Hp), Hdec.
Qed.

Lemma asAnalytics_ofAnalytics a :
  SafeInteger (timerSessions a) → SafeInteger (habitsCompleted a) →
  SafeInteger (goalsCreated a) → SafeInteger (ifThenCreated a) →
  Codec.asAnalytics (Store.ofAnalytics a) = Some a.
Proof.
  intros H1 H2 H3 H4. destruct a as [t h g i].
  unfold Codec.asAnalytics, Store.ofAnalytics, Codec.field. simpl in *.
  by rewrite (asInt_JInt t H1), (asInt_JInt h H2), (asInt_JInt g H3), (asInt_JInt i H4).
Qed.

Lemma ofAnalytics_printable a : JSON.Printable (Store.ofAnalytics a).
Proof.
  unfold Store.ofAnalytics. constructor.
  - apply (bool_decide_unpack _). vm_compute. exact I.
  - repeat constructor.
Qed.

Lemma asRecord_ofRecord {A} (enc : A -> JSON.JValue) (dec : JSON.JValue -> option A)
    (m : gmap string A) :
  map_Forall (fun _ a => dec (enc a) = Some a) m →
  Codec.asRecord dec (Store.ofRecord enc m) = Some m.
Proof.
  intros Hm. unfold Codec.asRecord, Store.ofRecord.
  assert (mapM (fun kv => pair (fst kv) <$> dec (snd kv))
               (map (fun kv => (fst kv, enc (snd kv))) (map_to_list m))
          = Some (map_to_list m)) as ->.
  { apply map_Forall_to_list in Hm.
    induction Hm as [|[k a] l Ha _ IH]; [reflexivity|].
    simpl in *. by rewrite Ha, IH. }
  simpl. by rewrite list_to_map_to_list.
Qed.

Lemma ofRecord_printable {A} (enc : A -> JSON.JValue) (m : gmap string A) :
  map_Forall (fun k a => JSON.plainText k = true ∧ JSON.Printable (enc a)) m →
  JSON.Printable (Store.ofRecord enc m).
Proof.
  intros Hm. unfold Store.ofRecord. constructor.
  - rewrite map_map. simpl. apply NoDup_fst_map_to_list.
  - apply map_Forall_to_list in Hm.
    induction Hm as [|[k a] l Ha _ IH]; simpl; constructor; [exact Ha|exact IH].
Qed.

Lemma asStrings_ofStrings l : Codec.asList Codec.asStr (Store.ofStrings l) = Some l.
Proof.
  unfold Codec.asList, Store.ofStrings. apply mapM_decode.
  by apply Forall_forall.
Qed.

Lemma ofStrings_printable l :
  Forall (fun s => JSON.plainText s = true) l → JSON.Printable (Store.ofStrings l).
Proof.
  intros Hl. apply (printable_items JSON.JStr _ _ (fun s Hs => JSON.PrintStr s Hs) Hl).
Qed.

Lemma initFlag_ofBool b : initFlag (Some (ofBool b)) = b.
Proof. by destruct b. Qed.

Lemma reload_ready c :
  StoredPlain (engine c) → StoredSafe (engine c) →
  mount (storageOf c) = Ready (reloaded c).
Proof.
  intros ((He & Hh & Hv & Hg & Hp & Hw & Ht) & Hhist & Hnotes)
         ((Hsafe & Hpts) & Hs1 & Hs2 & Hs3 & Hs4).
  unfold mount. cbv zeta.
  rewrite storageOf_entries, storageOf_habits, storageOf_vision, storageOf_miniGoals,
    storageOf_ifThen, storageOf_woop, storageOf_points, storageOf_theme,
    storageOf_audioShield, storageOf_reminders, storageOf_analytics,
    storageOf_habitHistory, storageOf_futureCostNotes, storageOf_lastReset.
  rewrite (initJson_stored _ _ _ (entries (engine c)));
    [|by apply (printable_items Codec.ofEntry _ _ ofEntry_printable)
     |apply compact_array_nonempty
     |apply mapM_decode; eapply Forall_impl; [exact Hsafe|];
      intros e Hse; by apply asEntry_ofEntry].
  rewrite (initJson_stored _ _ _ (habits (engine c)));
    [|by apply (printable_items Codec.ofHabit _ _ ofHabit_printable)
     |apply compact_array_nonempty
     |apply mapM_decode, Forall_forall; intros; apply asHabit_ofHabit].
  rewrite (initJson_stored _ _ _ (miniGoals (engine c)));
    [|by apply (printable_items Codec.ofMiniGoal _ _ ofMiniGoal_printable)
     |apply compact_array_nonempty
     |apply mapM_decode, Forall_forall; intros; apply asMiniGoal_ofMiniGoal].
  rewrite (initJson_stored _ _ _ (ifThenPlans (engine c)));
    [|by apply (printable_items Codec.ofIfThenPlan _ _ ofIfThenPlan_printable)
     |apply compact_array_nonempty
     |apply mapM_decode, Forall_forall; intros; apply asIfThenPlan_ofIfThenPlan].
  rewrite (initJson_stored _ _ _ (woop (engine c)));
    [|by apply ofWoop_printable|apply compact_object_nonempty|apply asWoop_ofWoop].
  rewrite (initJson_stored _ _ _ (habitHistory (engine c)));
    [|apply ofRecord_printable; intros day labels Hl;
      destruct (Hhist day labels Hl); split; [done|by apply ofStrings_printable]
     |apply compact_object_nonempty
     |apply asRecord_ofRecord; intros day labels _; apply asStrings_ofStrings].
  rewrite (initJson_stored _ _ _ (futureCostNotes (engine c)));
    [|apply ofRecord_printable; intros day note Hl;
      destruct (Hnotes day note Hl); split; [done|by constructor]
     |apply compact_object_nonempty
     |by apply asRecord_ofRecord].
  rewrite (initJson_stored _ _ _ (analytics (engine c)));
    [|apply ofAnalytics_printable|apply compact_object_nonempty
     |by apply asAnalytics_ofAnalytics].
  unfold initPoints. rewrite bool_decide_eq_false_2 by apply ParseIntFacts.ofInt_nonempty.
  rewrite ParseIntFacts.parseInt10_ofInt. cbn [both].
  rewrite !initFlag_ofBool. unfold reloaded, initText. cbv zeta.
  do 2 f_equal. f_equal; by case_bool_decide.
Qed.

(** A stored text that [JSON.parse] rejects stops the mounting. *)
Lemma initJson_thrown {A} (dec : JSON.JValue -> option A) dflt text :
  text ≠ "" → JSON.parse text = None → initJson dec dflt (Some text) = Thrown.
Proof.
  intros Hne Hp. unfold initJson. by rewrite bool_decide_eq_false_2, Hp.
Qed.

Lemma both_thrown_l {A B} (y : Init B) : both (@Thrown A) y = Thrown.
Proof. reflexivity. Qed.

Lemma both_thrown_r {A B} (x : Init A) : both x (@Thrown B) = Thrown.
Proof. by destruct x. Qed.

(** X22. A reload of the page loses nothing that is kept in local
    storage: mounting the component on what the persistence effects wrote
    gives back every persisted atom as it was, the reset marker included;
    the timer, the forms and the open summary start afresh, and an empty
    theme colour becomes the first theme. *)
Theorem reload_restores (c : Component) :
  StoredPlain (engine c) →
  StoredSafe (engine c) →
  mount (storageOf c) = Ready (reloaded c)
  ∧ (activeTheme (engine c) ≠ "" → engine (reloaded c) = setNewEntry "" (engine c))
  ∧ timeLeft (reloaded c) = TIMER_DURATION ∧ isActive (reloaded c) = false
  ∧ audioShieldEnabled (reloaded c) = audioShieldEnabled c
  ∧ remindersEnabled (reloaded c) = remindersEnabled c.
Proof.
  intros Hplain Hsafe. split_and!; try reflexivity.
  - by apply reload_ready.
  - intros Ht. unfold reloaded, freshComponent, setNewEntry. cbn.
    by rewrite bool_decide_eq_false_2.
Qed.

Lemma reload_restores_witness :
  mount (storageOf usedComponent) = Ready (reloaded usedComponent)
  ∧ entries (engine (reloaded usedComponent))
    = [mkActivityEntry "1767225600001" "ran 5k" 1767225600001]
  ∧ isActive usedComponent = true ∧ isActive (reloaded usedComponent) = false.
Proof.
  assert (StoredPlain (engine usedComponent)) as Hplain.
  { unfold StoredPlain, PlainState.
    split_and!; apply (bool_decide_unpack _); vm_compute; exact I. }
  assert (StoredSafe (engine usedComponent)) as Hsafe.
  { unfold StoredSafe, SafeState, SafeInteger.
    split_and!; apply (bool_decide_unpack _); vm_compute; exact I. }
  destruct (reload_restores usedComponent Hplain Hsafe) as (H & _).
  split_and!; [exact H|reflexivity..].
Defined.

(** X23. A stored text that is not JSON stops the component from
    mounting: when one of the keys that the initialisers parse holds a
    non-empty text which [JSON.parse] rejects, the initialiser throws,
    whatever the other keys hold. *)
Theorem mount_corrupt_throws (storage : Storage) (key text : string) :
  key ∈ jsonKeys →
  storage !! key = Some text →
  text ≠ "" →
  JSON.parse text = None →
  mount storage = Thrown.
Proof.
  intros Hkey Hl Hne Hp. unfold mount. cbv zeta. unfold jsonKeys in Hkey.
  repeat (apply elem_of_cons in Hkey as [->|Hkey];
          [rewrite Hl, (initJson_thrown _ _ text Hne Hp);
           by rewrite ?both_thrown_l, ?both_thrown_r|]).
  by apply elem_of_nil in Hkey.
Qed.

Lemma mount_corrupt_throws_witness :
  mount (<[STORAGE_KEYS.WOOP := "{wish:1}"]> (storageOf usedComponent)) = Thrown.
Proof.
  apply (mount_corrupt_throws _ STORAGE_KEYS.WOOP "{wish:1}").
  - apply (bool_decide_unpack _). vm_compute. exact I.
  - apply lookup_insert_eq.
  - done.
  - reflexivity.
Defined.

(** X24. A key that is missing, or that holds the empty text, gives the
    atom its first-run value: with every key so, the component mounts as
    on a first run. *)
Theorem mount_defaults (storage : Storage) :
  (∀ key, key ∈ atomKeys → storage !! key = None ∨ storage !! key = Some "") →
  mount storage = Ready (firstRun (storage !! STORAGE_KEYS.LAST_RESET))
  ∧ firstRun None = initialComponent.
Proof.
  intros Hkeys. split; [|reflexivity]. unfold mount. cbv zeta.
  assert (∀ key, key ∈ atomKeys →
            ∀ A (dec : JSON.JValue -> option A) dflt,
              initJson dec dflt (storage !! key) = Ready dflt) as Hjson.
  { intros key Hk A dec dflt. by destruct (Hkeys key Hk) as [-> | ->]. }
  assert (∀ key, key ∈ atomKeys → ∀ dflt, initText dflt (storage !! key) = dflt) as Htext.
  { intros key Hk dflt. by destruct (Hkeys key Hk) as [-> | ->]. }
  assert (∀ key, key ∈ atomKeys → initFlag (storage !! key) = false) as Hflag.
  { intros key Hk. by destruct (Hkeys key Hk) as [-> | ->]. }
  assert (initPoints (storage !! STORAGE_KEYS.POINTS) = Ready 0) as Hpts.
  { destruct (Hkeys STORAGE_KEYS.POINTS) as [-> | ->]; [|done..].
    apply (bool_decide_unpack _). vm_compute. exact I. }
  rewrite !Hjson, !Htext, !Hflag, Hpts
    by (apply (bool_decide_unpack _); vm_compute; exact I).
  reflexivity.
Qed.

Lemma mount_defaults_witness :
  mount (<[STORAGE_KEYS.VISION := ""]> (<[STORAGE_KEYS.LAST_RESET := "Thu Jan 01 2026"]> ∅))
  = Ready (firstRun (Some "Thu Jan 01 2026")).
Proof.
  apply mount_defaults.
  intros key Hk. unfold atomKeys in Hk.
  repeat (apply elem_of_cons in Hk as [->|Hk]; [by vm_compute; auto|]).
  by apply elem_of_nil in Hk.
Defined.

(** X25. A reload on the day of the last reset keeps the completed flags
    of the habits; a reload on any other day mounts the component with
    every habit open again and the marker set to the new day, the habit
    history staying as it was. *)
Theorem reload_and_reset (tzOffset : Z) (dateLabel : Z -> string)
    (now : Z) (c : Component) :
  StoredPlain (engine c) →
  StoredSafe (engine c) →
  let today := getTodayString tzOffset dateLabel now in
  ∃ c', boot tzOffset dateLabel now (storageOf c) = Ready c'
    ∧ (lastReset (engine c) = Some today → c' = reloaded c)
    ∧ (lastReset (engine c) ≠ Some today →
       Forall (fun h => habitCompleted h = false) (habits (engine c'))
       ∧ habitNames (engine c') = habitNames (engine c))
    ∧ lastReset (engine c') = Some today
    ∧ habitHistory (engine c') = habitHistory (engine c)
    ∧ entries (engine c') = entries (engine c)
    ∧ points (engine c') = points (engine c).
Proof.
  intros Hplain Hsafe today. unfold boot. rewrite (reload_ready c Hplain Hsafe).
  eexists. split; [reflexivity|]. split_and!.
  - intros Hday. unfold onEngine.
    rewrite checkReset_same_day by exact Hday. by destruct (reloaded c).
  - intros Hday. split.
    + by apply checkReset_new_day.
    + unfold habitNames, onEngine, checkReset. cbn.
      rewrite bool_decide_eq_true_2 by done. cbn. by rewrite map_map.
  - apply checkReset_marker.
  - unfold onEngine, checkReset. cbn. by case_bool_decide.
  - unfold onEngine, checkReset. cbn. by case_bool_decide.
  - unfold onEngine, checkReset. cbn. by case_bool_decide.
Qed.

Lemma reload_and_reset_witness :
  ∃ c', boot 0 pretty 1767225700000 (storageOf usedComponent) = Ready c'
    ∧ c' = reloaded usedComponent
    ∧ lastReset (engine c') = Some (getTodayString 0 pretty 1767225700000).
Proof.
  assert (StoredPlain (engine usedComponent)) as Hplain.
  { unfold StoredPlain, PlainState.
    split_and!; apply (bool_decide_unpack _); vm_compute; exact I. }
  assert (StoredSafe (engine usedComponent)) as Hsafe.
  { unfold StoredSafe, SafeState, SafeInteger.
    split_and!; apply (bool_decide_unpack _); vm_compute; exact I. }
  destruct (reload_and_reset 0 pretty 1767225700000 usedComponent Hplain Hsafe)
    as (c' & H1 & H2 & _ & H4 & _).
  exists c'. split_and!; [exact H1|by apply H2|exact H4].
Defined.

(** ** Importing twice *)

(** A guarded setter call whose value the state already holds changes
    nothing. *)
Lemma importField_again {A} (proj : State -> A) f k
    (dec : JSON.JValue -> option A) set s0 s1 st' :
  importField f k dec set s0 = Some s1 →
  (∀ a s, proj (set a s) = a) → (∀ s, set (proj s) s = s) →
  proj st' = proj s1 →
  importField f k dec set st' = Some st'.
Proof.
  unfold importField. intros H Hget Hset Hsame.
  destruct (JSON.prop f k) as [v|]; [|done].
  destruct (JSON.truthy v); [|done].
  destruct (dec v) as [a|]; simpl in *; [|done].
  injection H as <-. rewrite Hget in Hsame. by rewrite <- Hsame, Hset.
Qed.

Local Ltac later_steps proj :=
  repeat match goal with
         | H : importField _ _ _ _ ?s = Some ?s' |- proj ?s' = _ =>
             let E := fresh in
             pose proof H as E;
             apply (importField_preserves proj) in E; [|intros ? ?; reflexivity];
             rewrite E; clear E
         end;
  reflexivity.

Lemma importFields_again f st st' :
  importFields f st = Some st' → importFields f st' = Some st'.
Proof.
  intros H.
  apply importFields_steps in H
    as (s1&s2&s3&s4&s5&s6&s7&s8&s9&s10&H1&H2&H3&H4&H5&H6&H7&H8&H9&H10&H11).
  unfold importFields.
  rewrite (importField_again entries _ _ _ _ _ _ st' H1);
    [|done|by intros []|later_steps entries].
  rewrite option_bind_Some_l.
  rewrite (importField_again habits _ _ _ _ _ _ st' H2);
    [|done|by intros []|later_steps habits].
  rewrite option_bind_Some_l.
  rewrite (importField_again vision _ _ _ _ _ _ st' H3);
    [|done|by intros []|later_steps vision].
  rewrite option_bind_Some_l.
  rewrite (importField_again miniGoals _ _ _ _ _ _ st' H4);
    [|done|by intros []|later_steps miniGoals].
  rewrite option_bind_Some_l.
  rewrite (importField_again ifThenPlans _ _ _ _ _ _ st' H5);
    [|done|by intros []|later_steps ifThenPlans].
  rewrite option_bind_Some_l.
  rewrite (importField_again woop _ _ _ _ _ _ st' H6);
    [|done|by intros []|later_steps woop].
  rewrite option_bind_Some_l.
  rewrite (importField_again points _ _ _ _ _ _ st' H7);
    [|done|by intros []|later_steps points].
  rewrite option_bind_Some_l.
  rewrite (importField_again activeTheme _ _ _ _ _ _ st' H8);
    [|done|by intros []|later_steps activeTheme].
  rewrite option_bind_Some_l.
  rewrite (importField_again habitHistory _ _ _ _ _ _ st' H9);
    [|done|by intros []|later_steps habitHistory].
  rewrite option_bind_Some_l.
  rewrite (importField_again futureCostNotes _ _ _ _ _ _ st' H10);
    [|done|by intros []|later_steps futureCostNotes].
  rewrite option_bind_Some_l.
  apply (importField_again analytics _ _ _ _ _ _ st' H11); [done|by intros []|reflexivity].
Qed.

(** X26. Importing a backup twice is importing it once: when an import
    ends with the state restored, importing the same file again reports
    success and leaves every atom as the first import made it. *)
Theorem importData_twice (text : string) (st st' : State) :
  importData text st = Restored st' → importData text st' = Restored st'.
Proof.
  unfold importData. destruct (JSON.parse text) as [data|]; [|done].
  destruct data as [ |b|m e|s|items|f]; simpl; try done; try (by intros [= <-]).
  destruct (importFields f st) as [s1|] eqn:Hf; [|done]. intros [= <-].
  by rewrite (importFields_again f st s1 Hf).
Qed.

Lemma importData_twice_witness :
  let text := Text.dq "{'points': 7, 'vision': 'ship', 'entries': []}" in
  ∃ st', importData text trackedState = Restored st'
         ∧ importData text st' = Restored st'
         ∧ points st' = 7.
Proof.
  eexists. split; [vm_compute; reflexivity|]. split; [|reflexivity].
  apply (importData_twice (Text.dq "{'points': 7, 'vision': 'ship', 'entries': []}")
           trackedState).
  vm_compute. reflexivity.
Defined.

(** ** The focus overlay and the daily summary *)

(** X27. The objective of the focus overlay is the text of the newest
    entry throughout a session of use that starts with a tidy log, the
    import of a backup aside (it can store an entry with an empty text);
    the fallback text then shows for an empty log only.  After an accepted
    entry the objective is the trimmed text that was typed, after a
    completed session the session's line. *)
Theorem currentObjective_newest :
  (∀ tzOffset dateLabel acts c,
     LogTidy (engine c) →
     let st := engine (run tzOffset dateLabel acts c) in
     currentObjective (entries st)
     = match entries st with
       | e :: _ => entryText e
       | [] => "Focus on the current task."
       end)
  ∧ (∀ now st, Text.trim (newEntry st) ≠ "" →
       currentObjective (entries (addEntry now st)) = Text.trim (newEntry st))
  ∧ (∀ now c, currentObjective (entries (engine (handleTimerComplete now c)))
              = "Completed 5-Minute Action Burst").
Proof.
  split_and!.
  - intros tzOffset dateLabel acts c Htidy st.
    assert (LogTidy st) as Hst.
    { apply (run_keeps tzOffset dateLabel LogTidy); [| |exact Htidy].
      - apply handle_LogTidy.
      - apply complete_LogTidy. }
    unfold currentObjective. destruct (entries st) as [|e es] eqn:He; [done|].
    unfold LogTidy in Hst. rewrite He in Hst.
    apply Forall_cons in Hst as [[Hne _] _]. by rewrite bool_decide_eq_false_2.
  - intros now st Hne. unfold addEntry. rewrite bool_decide_eq_false_2 by done.
    cbn. by rewrite bool_decide_eq_false_2.
  - reflexivity.
Qed.

(** X28. A habit that is completed shows in the daily summary of that day
    and stays there: the summary of the day lists its label, and neither
    taking the completion back nor the midnight reset removes it. *)
Theorem completed_habit_in_summary (tzOffset : Z) (dateLabel : Z -> string)
    (id : string) (now : Z) (st : State) (h : Habit) :
  findHabit id (habits st) = Some h →
  habitCompleted h = false →
  let today := getTodayString tzOffset dateLabel now in
  let st1 := toggleHabit tzOffset dateLabel id now st in
  ∃ labels,
    completedHabits today (habitHistory st1) = Some labels
    ∧ habitLabel h ∈ labels
    ∧ (∀ later, habitHistory (toggleHabit tzOffset dateLabel id later st1)
                = habitHistory st1)
    ∧ (∀ later, habitHistory (checkReset tzOffset dateLabel later st1)
                = habitHistory st1).
Proof.
  intros Hfind Hopen today st1.
  assert (habitHistory st1
          = logHabit today (habitLabel h) (habitHistory st)) as Hhist.
  { unfold st1. by rewrite (toggleHabit_on _ _ _ _ _ _ Hfind Hopen). }
  pose proof (logHabit_includes today (habitLabel h) (habitHistory st)) as Hin.
  unfold includes in Hin. apply bool_decide_eq_true in Hin.
  unfold dayHistory in Hin. rewrite <- Hhist in Hin.
  destruct (habitHistory st1 !! today) as [labels|] eqn:Hl; simpl in Hin;
    [|by apply elem_of_nil in Hin].
  destruct labels as [|l labels]; [by apply elem_of_nil in Hin|].
  exists (l :: labels). split_and!.
  - unfold completedHabits. by rewrite Hl.
  - exact Hin.
  - intros later.
    pose proof (toggleHabit_find tzOffset dateLabel id now st h Hfind) as Hfind1.
    fold st1 in Hfind1. rewrite Hopen in Hfind1.
    by rewrite (toggleHabit_off _ _ _ _ _ _ Hfind1).
  - intros later. unfold checkReset. by case_bool_decide.
Qed.

Lemma completed_habit_in_summary_witness :
  ∃ labels,
    completedHabits (getTodayString 0 pretty 1767225600000) (habitHistory trackedState)
    = Some labels
    ∧ "Read 10 pages" ∈ labels.
Proof.
  destruct (completed_habit_in_summary 0 pretty "2" 1767225600000
              (setPoints 3 initialState) (mkHabit "2" "Read 10 pages" false)
              eq_refl eq_refl) as (labels & H1 & H2 & _).
  exists labels. split; [exact H1|exact H2].
Defined.

(** ** Pausing the timer, and taking back what was added *)

Section PauseFacts.
Variables (tzOffset : Z) (dateLabel : Z -> string).
Abbreviation runAll := (run tzOffset dateLabel).

(** While the timer is paused no interval runs, and the clock changes
    nothing. *)
Lemma run_seconds_idle nows c :
  isActive c = false → runAll (seconds nows) c = c.
Proof.
  intros Hi. induction nows as [|now nows IH]; [reflexivity|].
  change (seconds (now :: nows)) with ((now, SecondPasses) :: seconds nows).
  rewrite run_cons. simpl fst. simpl snd.
  rewrite dispatch_second_idle; [exact IH|]. unfold intervalRuns. by rewrite Hi.
Qed.

End PauseFacts.

(** X29. A pause costs no tick of the countdown.  The countdown is moved
    by the firings of the timer's interval and by nothing else: a running
    timer that is paused and resumed completes its session when the firings
    before the pause and after the resume add up to the time that was left,
    and while it is paused, whatever the clock shows, nothing changes.  The
    statement counts firings, not time: the interval is made anew at the
    resume, so the part of a second that had run when the pause was pressed
    is run again. *)
Theorem timer_pause_resume (tzOffset : Z) (dateLabel : Z -> string)
    (c : Component) (before idle after : list Z) (tPause tResume last : Z) :
  isActive c = true →
  TimerAtRest c →
  Z.of_nat (length before) + Z.of_nat (length after) + 1 = timeLeft c →
  let paused := run tzOffset dateLabel (seconds before ++ [(tPause, PressStartPause)]) c in
  paused = setIsActive false (setTimeLeft (timeLeft c - Z.of_nat (length before)) c)
  ∧ run tzOffset dateLabel (seconds idle) paused = paused
  ∧ run tzOffset dateLabel
      (seconds idle ++ [(tResume, PressStartPause)] ++ seconds (after ++ [last])) paused
    = handleTimerComplete last c.
Proof.
  intros Ha [Hlo Hhi] Hlen paused.
  assert (paused = setIsActive false (setTimeLeft (timeLeft c - Z.of_nat (length before)) c))
    as Hpaused.
  { unfold paused. clear paused. rewrite run_app.
    rewrite (run_seconds tzOffset dateLabel before c) by (done || lia).
    rewrite run_cons. simpl fst. simpl snd. cbn [run foldl].
    rewrite dispatch_toggle by (split; simpl; lia).
    unfold toggleTimer. simpl. by rewrite Ha. }
  clearbody paused. subst paused.
  split_and!; [reflexivity|by rewrite run_seconds_idle|].
  rewrite run_app, run_seconds_idle by done.
  rewrite run_app. cbn [run foldl fst snd].
  rewrite dispatch_toggle by (split; simpl; lia).
  fold (run tzOffset dateLabel (seconds (after ++ [last]))).
  unfold seconds. rewrite map_app, run_app. fold (seconds after).
  rewrite (run_seconds tzOffset dateLabel after) by (simpl; (done || lia)).
  cbn [map run foldl fst snd].
  rewrite dispatch_second_last by (simpl; (done || lia)).
  reflexivity.
Qed.

Lemma timer_pause_resume_witness :
  let c := toggleTimer (setTimeLeft 3 initialComponent) in
  let paused := run 0 pretty (seconds [1000] ++ [(1500, PressStartPause)]) c in
  timeLeft paused = 2 ∧ isActive paused = false
  ∧ points (engine (run 0 pretty
                      (seconds [2000; 3000; 4000] ++ [(4500, PressStartPause)]
                       ++ seconds ([5000] ++ [6000])) paused)) = 1.
Proof.
  assert (TimerAtRest (toggleTimer (setTimeLeft 3 initialComponent))) as Hrest
    by (unfold TimerAtRest; simpl; done).
  destruct (timer_pause_resume 0 pretty (toggleTimer (setTimeLeft 3 initialComponent))
              [1000] [2000; 3000; 4000] [5000] 1500 4500 6000 eq_refl Hrest eq_refl)
    as (H1 & _ & H3).
  split_and!; [by rewrite H1..|by rewrite H3].
Defined.

Lemma filter_fresh {A} (key : A -> string) (id : string) (l : list A) :
  id ∉ map key l → filter (fun x => key x ≠ id) l = l.
Proof.
  induction l as [|x l IH]; intros Hn; [reflexivity|].
  simpl in Hn. apply not_elem_of_cons in Hn as [Hne Hn].
  rewrite filter_cons, decide_True by done. by rewrite IH.
Qed.

Lemma filter_fresh_last {A} (key : A -> string) (id : string) (l : list A) (x : A) :
  id ∉ map key l → key x = id → filter (fun x => key x ≠ id) (l ++ [x]) = l.
Proof.
  intros Hn Hx. rewrite filter_app, (filter_fresh key id l Hn).
  rewrite filter_cons, decide_False by (by intros H; apply H).
  by rewrite filter_nil, app_nil_r.
Qed.

(** X30. What was just added can be taken back: deleting the mini-goal,
    the plan or the entry that was made at a clock reading whose decimal
    is not yet an id of the list gives back the list as it was before,
    while the counter of created goals or plans keeps the creation. *)
Theorem delete_takes_back (now : Z) :
  (∀ c, Text.trim (formText (newGoal c)) ≠ "" →
     Text.ofInt now ∉ map goalId (miniGoals (engine c)) →
     let st' := deleteMiniGoal (Text.ofInt now) (engine (addMiniGoal now c)) in
     miniGoals st' = miniGoals (engine c)
     ∧ goalsCreated (analytics st') = goalsCreated (analytics (engine c)) + 1)
  ∧ (∀ c, Text.trim (formTrigger (newIfThen c)) ≠ "" →
       Text.trim (formAction (newIfThen c)) ≠ "" →
       Text.ofInt now ∉ map planId (ifThenPlans (engine c)) →
       let st' := deleteIfThen (Text.ofInt now) (engine (addIfThen now c)) in
       ifThenPlans st' = ifThenPlans (engine c)
       ∧ ifThenCreated (analytics st') = ifThenCreated (analytics (engine c)) + 1)
  ∧ (∀ preset st, Text.ofInt now ∉ map planId (ifThenPlans st) →
       let st' := deleteIfThen (Text.ofInt now) (applyPreset preset now st) in
       ifThenPlans st' = ifThenPlans st
       ∧ ifThenCreated (analytics st') = ifThenCreated (analytics st) + 1)
  ∧ (∀ st, Text.trim (newEntry st) ≠ "" →
       Text.ofInt now ∉ map entryId (entries st) →
       entries (deleteEntry (Text.ofInt now) (addEntry now st)) = entries st).
Proof.
  split_and!.
  - intros c Ht Hfresh. unfold addMiniGoal. rewrite bool_decide_eq_false_2 by done.
    cbn. split; [|reflexivity]. by apply filter_fresh_last.
  - intros c Ht Ha Hfresh. unfold addIfThen. rewrite !bool_decide_eq_false_2 by done.
    cbn. split; [|reflexivity]. by apply filter_fresh_last.
  - intros preset st Hfresh. cbn. split; [|reflexivity]. by apply filter_fresh_last.
  - intros st Ht Hfresh. unfold addEntry. rewrite bool_decide_eq_false_2 by done.
    cbn. rewrite decide_False by (by intros H; apply H).
    by apply filter_fresh.
Qed.
